(** * convert-docs.py: the Markdown to HTML conversion engine

    A shallow embedding of [convert_md_to_html] (src/convert-docs.py, lines
    52-185) and the properties of its passes.

    Text.  A Python [str] is modelled by the list of the bytes of its UTF-8
    encoding ([list ascii]).  Every pattern of the source names ASCII
    delimiters only, and UTF-8 is self-synchronising, so literal patterns,
    negated classes and [.] match the same text on bytes as on code points.
    The classes [\w], [\s], [\d] and [str.lower] are Python's on the ASCII
    range; a byte above 127 is in none of the three classes and is fixed by
    [lower].  Python counts letters, digits and spaces outside ASCII too, so
    a property that depends on what the classes hold is stated for ASCII
    text ([is_ascii]).

    Regular expressions.  The source is a sequence of [re.sub] calls, so the
    patterns are kept as data ([re]) and run by a backtracking matcher [m]
    that follows the priorities of Python's [re] module: alternatives are
    tried in order, greedy quantifiers try the longest repetition first and
    lazy ones the shortest, and the first success is the match.

    Errors.  What can raise in the source (an invalid group reference in a
    template, [group(1)] of a group that took no part in the match, an index
    out of range) returns [None] here. *)

From Stdlib Require Import Ascii String List Arith Bool Lia.
Import ListNotations.

Set Implicit Arguments.

(** ** Text *)

Definition str : Type := list ascii.

Definition lit (s : string) : str := list_ascii_of_string s.

Definition NL : ascii := "010"%char.
Definition DQ : ascii := "034"%char.
Definition SP : ascii := " "%char.

Definition code (c : ascii) : nat := nat_of_ascii c.

Definition in_range (lo hi : nat) (c : ascii) : bool :=
  (lo <=? code c) && (code c <=? hi).

Definition is_char (a : ascii) (c : ascii) : bool := Ascii.eqb a c.
Definition not_char (a : ascii) (c : ascii) : bool := negb (Ascii.eqb a c).

(** [\d], [\w] and [\s] on the ASCII range.  Python's [\s] (and
    [str.strip] and [str.isspace]) counts the separators 28..31 as
    whitespace besides tab, newline, vertical tab, form feed, carriage
    return and space. *)
Definition is_digit (c : ascii) : bool := in_range 48 57 c.
Definition is_upper (c : ascii) : bool := in_range 65 90 c.
Definition is_lower (c : ascii) : bool := in_range 97 122 c.
Definition is_word (c : ascii) : bool :=
  is_digit c || is_upper c || is_lower c || is_char "_" c.
Definition is_space (c : ascii) : bool :=
  in_range 9 13 c || in_range 28 32 c.

(** The characters on which the classes above are exactly Python's. *)
Definition is_ascii (c : ascii) : bool := code c <? 128.

(** [.] without [re.DOTALL], and with it. *)
Definition dot (c : ascii) : bool := not_char NL c.
Definition any (c : ascii) : bool := true.

Definition lower_char (c : ascii) : ascii :=
  if is_upper c then ascii_of_nat (code c + 32) else c.

(** [str.lower()] *)
Definition lower (s : str) : str := map lower_char s.

Fixpoint strip_prefix (p s : str) : option str :=
  match p, s with
  | [], _ => Some s
  | a :: p', c :: s' => if Ascii.eqb a c then strip_prefix p' s' else None
  | _ :: _, [] => None
  end.

(** [str.replace(old, new)] for a one-character [old]. *)
Fixpoint replace_char (old : ascii) (new : str) (s : str) : str :=
  match s with
  | [] => []
  | c :: t => if Ascii.eqb old c then new ++ replace_char old new t
              else c :: replace_char old new t
  end.

(** [sep.join(parts)] *)
Fixpoint join (sep : str) (parts : list str) : str :=
  match parts with
  | [] => []
  | [x] => x
  | x :: rest => x ++ sep ++ join sep rest
  end.

(** [s.split(sep)] for a one-character separator: never empty, the empty
    string splits into one empty field. *)
Fixpoint split (sep : ascii) (s : str) : list str :=
  match s with
  | [] => [[]]
  | c :: t =>
      if Ascii.eqb sep c then [] :: split sep t
      else match split sep t with
           | [] => [[c]]
           | x :: xs => (c :: x) :: xs
           end
  end.

Fixpoint lstrip (s : str) : str :=
  match s with
  | c :: t => if is_space c then lstrip t else s
  | [] => []
  end.

(** [s.strip()] *)
Definition strip (s : str) : str := rev (lstrip (rev (lstrip s))).

(** Truth value of a string: non-empty. *)
Definition truthy (s : str) : bool :=
  match s with [] => false | _ => true end.

(** ** Errors *)

Definition bind {A B : Type} (x : option A) (f : A -> option B) : option B :=
  match x with Some a => f a | None => None end.

Notation "x <- e ;; k" := (bind e (fun x => k))
  (at level 61, e at next level, right associativity).

Definition orelse {A : Type} (x y : option A) : option A :=
  match x with Some a => Some a | None => y end.

(** ** Regular expressions *)

Inductive re : Type :=
| Eps
| Chr (f : ascii -> bool)   (* one character of a class *)
| Bol                        (* ^ under re.MULTILINE *)
| Eol                        (* $ under re.MULTILINE *)
| Sos                        (* ^ *)
| Eos                        (* $ *)
| Seq (r1 r2 : re)
| Opt (r : re)               (* r? *)
| Star (r : re)              (* r* *)
| LazyStar (r : re)          (* r*? *)
| Grp (n : nat) (r : re).   (* capture group number n *)

Definition Plus (r : re) : re := Seq r (Star r).
Definition LazyPlus (r : re) : re := Seq r (LazyStar r).

Fixpoint Lit (s : str) : re :=
  match s with
  | [] => Eps
  | c :: t => Seq (Chr (is_char c)) (Lit t)
  end.

Notation "r1 ;; r2" := (Seq r1 r2) (at level 61, right associativity).

(** A position of the matcher in the subject: the character before it, the
    text from it to the end, and the groups captured so far (the latest
    capture of a group first). *)
Record pos : Type := mkPos {
  prev : option ascii;
  rest : str;
  caps : list (nat * str)
}.

Definition at_bol (p : option ascii) : bool :=
  match p with None => true | Some c => Ascii.eqb c NL end.

Definition at_eol (s : str) : bool :=
  match s with [] => true | c :: _ => Ascii.eqb c NL end.

Definition at_eos (s : str) : bool :=
  match s with
  | [] => true
  | [c] => Ascii.eqb c NL
  | _ => false
  end.

Definition consumed (p p' : pos) : str :=
  firstn (length (rest p) - length (rest p')) (rest p).

Definition set_cap (n : nat) (p p' : pos) : pos :=
  mkPos (prev p') (rest p') ((n, consumed p p') :: caps p').

Definition progress (p p' : pos) : bool :=
  length (rest p') <? length (rest p).

(** The loops of the greedy and the lazy repetition: [body] matches one
    iteration, [k] is what follows the repetition.  An iteration that
    consumes nothing is given up, as the [re] module does, so the fuel, the
    length of the text left, is never exhausted before the subject is. *)
Fixpoint star_loop (body : (pos -> option pos) -> pos -> option pos)
    (k : pos -> option pos) (n : nat) (q : pos) {struct n} : option pos :=
  match n with
  | 0 => k q
  | S n' =>
      orelse (body (fun q' => if progress q q' then star_loop body k n' q' else None) q)
             (k q)
  end.

Fixpoint lazy_loop (body : (pos -> option pos) -> pos -> option pos)
    (k : pos -> option pos) (n : nat) (q : pos) {struct n} : option pos :=
  match n with
  | 0 => k q
  | S n' =>
      orelse (k q)
             (body (fun q' => if progress q q' then lazy_loop body k n' q' else None) q)
  end.

(** [m r k p]: match [r] at [p] and continue with [k]; the first success in
    backtracking order. *)
Fixpoint m (r : re) (k : pos -> option pos) (p : pos) {struct r} : option pos :=
  match r with
  | Eps => k p
  | Chr f =>
      match rest p with
      | c :: t => if f c then k (mkPos (Some c) t (caps p)) else None
      | [] => None
      end
  | Bol => if at_bol (prev p) then k p else None
  | Eol => if at_eol (rest p) then k p else None
  | Sos => match prev p with None => k p | Some _ => None end
  | Eos => if at_eos (rest p) then k p else None
  | Seq r1 r2 => m r1 (m r2 k) p
  | Opt r1 => orelse (m r1 k p) (k p)
  | Star r1 => star_loop (m r1) k (length (rest p)) p
  | LazyStar r1 => lazy_loop (m r1) k (length (rest p)) p
  | Grp n r1 => m r1 (fun p' => k (set_cap n p p')) p
  end.

(** Number of capture groups of a pattern (groups are numbered 1..n). *)
Fixpoint ngroups (r : re) : nat :=
  match r with
  | Seq r1 r2 => Nat.max (ngroups r1) (ngroups r2)
  | Opt r1 | Star r1 | LazyStar r1 => ngroups r1
  | Grp n r1 => Nat.max n (ngroups r1)
  | _ => 0
  end.

(** A match object: [group(0)], the captures, and the number of groups of
    the pattern. *)
Record mobj : Type := mkMobj {
  m_text : str;
  m_caps : list (nat * str);
  m_ngroups : nat
}.

Fixpoint assoc (n : nat) (l : list (nat * str)) : option str :=
  match l with
  | [] => None
  | (i, s) :: t => if Nat.eqb i n then Some s else assoc n t
  end.

(** [match.group(n)] for [n >= 1]: [Some None] is Python's [None] (the group
    took no part in the match), [None] is an [IndexError]. *)
Definition group (n : nat) (mo : mobj) : option (option str) :=
  if (1 <=? n) && (n <=? m_ngroups mo) then Some (assoc n (m_caps mo)) else None.

(** [pattern.match(s)]: a match at the start of [s]. *)
Definition match_at (r : re) (pv : option ascii) (s : str) : option mobj :=
  match m r Some (mkPos pv s []) with
  | Some p' => Some (mkMobj (firstn (length s - length (rest p')) s) (caps p') (ngroups r))
  | None => None
  end.

Definition re_match (r : re) (s : str) : option mobj := match_at r None s.

(** The scan of [re.sub] with a function as replacement: leftmost matches,
    not overlapping; [skip] counts the characters of the current match still
    to be passed over.  An empty match is replaced and the scan moves on by
    one character. *)
Fixpoint sub_loop (r : re) (repl : mobj -> option str)
    (skip : nat) (pv : option ascii) (s : str) {struct s} : option str :=
  match skip with
  | S n =>
      match s with
      | c :: t => sub_loop r repl n (Some c) t
      | [] => Some []
      end
  | 0 =>
      match match_at r pv s with
      | None =>
          match s with
          | c :: t => y <- sub_loop r repl 0 (Some c) t ;; Some (c :: y)
          | [] => Some []
          end
      | Some mo =>
          x <- repl mo ;;
          match s with
          | [] => Some x
          | c :: t =>
              match length (m_text mo) with
              | 0 => y <- sub_loop r repl 0 (Some c) t ;; Some (x ++ c :: y)
              | S n => y <- sub_loop r repl n (Some c) t ;; Some (x ++ y)
              end
          end
      end
  end.

Definition re_sub_fn (r : re) (repl : mobj -> option str) (s : str) : option str :=
  sub_loop r repl 0 None s.

(** Replacement templates: literal text and group references [\n]. *)
Inductive titem : Type :=
| TL (s : str)
| TG (n : nat).

Definition template : Type := list titem.

Definition titem_ok (n : nat) (t : titem) : bool :=
  match t with
  | TL _ => true
  | TG i => (1 <=? i) && (i <=? n)
  end.

(** A group that took no part in the match expands to the empty string. *)
Fixpoint expand (t : template) (mo : mobj) : str :=
  match t with
  | [] => []
  | TL s :: t' => s ++ expand t' mo
  | TG n :: t' =>
      match assoc n (m_caps mo) with
      | Some s => s ++ expand t' mo
      | None => expand t' mo
      end
  end.

(** [re.sub(pattern, template, s)]: the template is checked against the
    pattern first ([re.error: invalid group reference]). *)
Definition re_sub (r : re) (t : template) (s : str) : option str :=
  if forallb (titem_ok (ngroups r)) t
  then re_sub_fn r (fun mo => Some (expand t mo)) s
  else None.

(** ** The passes of [convert_md_to_html] *)

Definition tl (s : string) : titem := TL (lit s).

(** *** Headers (lines 57-60) *)

(* ^# (.+)$  with re.MULTILINE, and the same for ##, ###, #### *)
Definition re_heading (marker : string) : re :=
  Bol ;; Lit (lit marker) ;; Grp 1 (Plus (Chr dot)) ;; Eol.

Definition re_h1 : re := re_heading "# ".
Definition re_h2 : re := re_heading "## ".
Definition re_h3 : re := re_heading "### ".
Definition re_h4 : re := re_heading "#### ".

Definition tmpl_h1 : template := [tl "<h1>"; TG 1; tl "</h1>"].
Definition tmpl_h2 : template :=
  [TL (lit "<h2 id=" ++ [DQ]); TG 1; TL ([DQ] ++ lit ">"); TG 1; tl "</h2>"].
Definition tmpl_h3 : template := [tl "<h3>"; TG 1; tl "</h3>"].
Definition tmpl_h4 : template := [tl "<h4>"; TG 1; tl "</h4>"].

(** *** Make IDs URL-friendly (lines 63-67) *)

(** The characters that stay in an identifier: [\w], [\s] and [-]. *)
Definition id_char (c : ascii) : bool := is_word c || is_space c || is_char "-" c.

(* [^\w\s-] *)
Definition re_id_strip : re := Chr (fun c => negb (id_char c)).

(* <h2 id=Q([^Q]+)Q>([^<]+)</h2>  where Q is the double quote *)
Definition re_h2_id : re :=
  Lit (lit "<h2 id=" ++ [DQ]) ;; Grp 1 (Plus (Chr (not_char DQ))) ;;
  Lit ([DQ] ++ lit ">") ;; Grp 2 (Plus (Chr (not_char "<"))) ;;
  Lit (lit "</h2>").

Definition make_id (mo : mobj) : option str :=
  g <- group 1 mo ;;
  text <- g ;;
  stripped <- re_sub re_id_strip [] (lower text) ;;
  let id_text := replace_char SP (lit "-") stripped in
  Some (lit "<h2 id=" ++ [DQ] ++ id_text ++ [DQ] ++ lit ">" ++ text ++ lit "</h2>").

Definition headers_pass (html : str) : option str :=
  html <- re_sub re_h1 tmpl_h1 html ;;
  html <- re_sub re_h2 tmpl_h2 html ;;
  html <- re_sub re_h3 tmpl_h3 html ;;
  html <- re_sub re_h4 tmpl_h4 html ;;
  re_sub_fn re_h2_id make_id html.

(** *** Code blocks (line 70) *)

(* ```(\w+)?\n(.*?)```  with re.DOTALL *)
Definition re_code_block : re :=
  Lit (lit "```") ;; Opt (Grp 1 (Plus (Chr is_word))) ;; Chr (is_char NL) ;;
  Grp 2 (LazyStar (Chr any)) ;; Lit (lit "```").

Definition tmpl_code_block : template :=
  [tl "<pre><code>"; TG 2; tl "</code></pre>"].

Definition code_block_pass (html : str) : option str :=
  re_sub re_code_block tmpl_code_block html.

(** *** Inline code, bold, italic, links (lines 73-82) *)

(* `([^`]+)` *)
Definition re_inline_code : re :=
  Lit (lit "`") ;; Grp 1 (Plus (Chr (not_char "`"))) ;; Lit (lit "`").
Definition tmpl_inline_code : template := [tl "<code>"; TG 1; tl "</code>"].

(* \*\*(.+?)\*\* *)
Definition re_bold : re :=
  Lit (lit "**") ;; Grp 1 (LazyPlus (Chr dot)) ;; Lit (lit "**").
Definition tmpl_bold : template := [tl "<strong>"; TG 1; tl "</strong>"].

(* \*(.+?)\* *)
Definition re_italic : re :=
  Lit (lit "*") ;; Grp 1 (LazyPlus (Chr dot)) ;; Lit (lit "*").
Definition tmpl_italic : template := [tl "<em>"; TG 1; tl "</em>"].

(* \[([^\]]+)\]\(([^)]+)\) *)
Definition re_link : re :=
  Lit (lit "[") ;; Grp 1 (Plus (Chr (not_char "]"))) ;; Lit (lit "](") ;;
  Grp 2 (Plus (Chr (not_char ")"))) ;; Lit (lit ")").
Definition tmpl_link : template :=
  [TL (lit "<a href=" ++ [DQ]); TG 2; TL ([DQ] ++ lit ">"); TG 1; tl "</a>"].

Definition inline_pass (html : str) : option str :=
  html <- re_sub re_inline_code tmpl_inline_code html ;;
  html <- re_sub re_bold tmpl_bold html ;;
  html <- re_sub re_italic tmpl_italic html ;;
  re_sub re_link tmpl_link html.

(** *** Lists (lines 85-126) *)

(** The variable [in_list] of the source takes the values [False], [True]
    and ['ol']. *)
Inductive in_list_t : Type := IL_False | IL_True | IL_ol.

(** Truth value of [in_list]: the non-empty string ['ol'] is true. *)
Definition truth (s : in_list_t) : bool :=
  match s with IL_False => false | _ => true end.

(** ['</ol>' if in_list == 'ol' else '</ul>'] *)
Definition closing_tag (s : in_list_t) : str :=
  match s with IL_ol => lit "</ol>" | _ => lit "</ul>" end.

(* ^- \[ \]   and   ^- \[ \] (.+)$ *)
Definition re_unchecked : re := Sos ;; Lit (lit "- [ ]").
Definition re_unchecked_item : re :=
  Sos ;; Lit (lit "- [ ] ") ;; Grp 1 (Plus (Chr dot)) ;; Eos.
(* ^- \[x\]   and   ^- \[x\] (.+)$ *)
Definition re_checked : re := Sos ;; Lit (lit "- [x]").
Definition re_checked_item : re :=
  Sos ;; Lit (lit "- [x] ") ;; Grp 1 (Plus (Chr dot)) ;; Eos.
(* ^- (.+)$ *)
Definition re_bullet : re := Sos ;; Lit (lit "- ") ;; Grp 1 (Plus (Chr dot)) ;; Eos.
(* ^\d+\. (.+)$ *)
Definition re_ordered : re :=
  Sos ;; Plus (Chr is_digit) ;; Lit (lit ". ") ;; Grp 1 (Plus (Chr dot)) ;; Eos.

Definition tmpl_checkbox (checked : str) : template :=
  [TL (lit "<li><input type=" ++ [DQ] ++ lit "checkbox" ++ [DQ] ++ lit " id=" ++ [DQ] ++ lit "item-");
   TG 1;
   TL ([DQ] ++ checked ++ lit "><label for=" ++ [DQ] ++ lit "item-");
   TG 1;
   TL ([DQ] ++ lit ">");
   TG 1;
   tl "</label></li>"].

Definition tmpl_unchecked_item : template := tmpl_checkbox [].
Definition tmpl_checked_item : template := tmpl_checkbox (lit " checked").
Definition tmpl_li : template := [tl "<li>"; TG 1; tl "</li>"].

Definition ul_checklist_tag : str :=
  lit "<ul class=" ++ [DQ] ++ lit "checklist" ++ [DQ] ++ lit ">".
Definition ul_tag : str := lit "<ul>".
Definition ol_tag : str := lit "<ol>".

(** [if re.match(pattern, line)] *)
Definition matches (r : re) (line : str) : bool :=
  match re_match r line with Some _ => true | None => false end.

(** The loop state: [in_list] and the list [result]. *)
Definition list_st : Type := (in_list_t * list str)%type.

(** [if not in_list: result.append(tag); in_list = v] *)
Definition open_list (tag : str) (v : in_list_t) (st : list_st) : list_st :=
  let '(in_list, result) := st in
  if negb (truth in_list) then (v, result ++ [tag]) else (in_list, result).

Definition append (x : str) (st : list_st) : list_st :=
  let '(in_list, result) := st in (in_list, result ++ [x]).

(** One iteration of [for i, line in enumerate(lines)]. *)
Definition list_step (st : list_st) (line : str) : option list_st :=
  if matches re_unchecked line then
    let st := open_list ul_checklist_tag IL_True st in
    item <- re_sub re_unchecked_item tmpl_unchecked_item line ;;
    Some (append item st)
  else if matches re_checked line then
    let st := open_list ul_checklist_tag IL_True st in
    item <- re_sub re_checked_item tmpl_checked_item line ;;
    Some (append item st)
  else if matches re_bullet line then
    let st := open_list ul_tag IL_True st in
    item <- re_sub re_bullet tmpl_li line ;;
    Some (append item st)
  else if matches re_ordered line then
    let st := open_list ol_tag IL_ol st in
    item <- re_sub re_ordered tmpl_li line ;;
    Some (append item st)
  else
    let '(in_list, result) := st in
    let st := if truth in_list
              then (IL_False, result ++ [closing_tag in_list])
              else (in_list, result) in
    Some (append line st).

Fixpoint for_each {S A : Type} (f : S -> A -> option S) (st : S) (l : list A)
    : option S :=
  match l with
  | [] => Some st
  | x :: l' => st' <- f st x ;; for_each f st' l'
  end.

(** The loop and the closing of a list still open after it. *)
Definition list_lines (lines : list str) : option (list str) :=
  st <- for_each list_step (IL_False, []) lines ;;
  let '(in_list, result) := st in
  Some (if truth in_list then result ++ [closing_tag in_list] else result).

Definition lists_pass (html : str) : option str :=
  result <- list_lines (split NL html) ;;
  Some (join [NL] result).

(** *** Paragraphs (lines 129-130) *)

(* \n\n+ *)
Definition re_blank_lines : re := Chr (is_char NL) ;; Plus (Chr (is_char NL)).
Definition tmpl_par_break : template :=
  [TL ([NL] ++ lit "</p>" ++ [NL] ++ lit "<p>" ++ [NL])].

Definition paragraphs_pass (html : str) : option str :=
  html <- re_sub re_blank_lines tmpl_par_break html ;;
  Some (lit "<p>" ++ html ++ lit "</p>").

(** *** Clean up empty paragraphs (lines 133-141) *)

Definition spaces : re := Star (Chr is_space).   (* \s* *)

(* <p>\s*</p> *)
Definition re_empty_par : re := Lit (lit "<p>") ;; spaces ;; Lit (lit "</p>").
(* <p>(\s*<h[1-6])   and   (</h[1-6]>)\s*</p> *)
Definition re_p_heading : re :=
  Lit (lit "<p>") ;; Grp 1 (spaces ;; Lit (lit "<h") ;; Chr (in_range 49 54)).
Definition re_heading_p : re :=
  Grp 1 (Lit (lit "</h") ;; Chr (in_range 49 54) ;; Lit (lit ">")) ;;
  spaces ;; Lit (lit "</p>").
(* <p>(\s*<pre)  and the like *)
Definition re_p_open (tag : string) : re :=
  Lit (lit "<p>") ;; Grp 1 (spaces ;; Lit (lit tag)).
(* (</pre>)\s*</p>  and the like *)
Definition re_close_p (tag : string) : re :=
  Grp 1 (Lit (lit tag)) ;; spaces ;; Lit (lit "</p>").

Definition tmpl_g1 : template := [TG 1].

Definition cleanup_pass (html : str) : option str :=
  html <- re_sub re_empty_par [] html ;;
  html <- re_sub re_p_heading tmpl_g1 html ;;
  html <- re_sub re_heading_p tmpl_g1 html ;;
  html <- re_sub (re_p_open "<pre") tmpl_g1 html ;;
  html <- re_sub (re_close_p "</pre>") tmpl_g1 html ;;
  html <- re_sub (re_p_open "<ul") tmpl_g1 html ;;
  html <- re_sub (re_close_p "</ul>") tmpl_g1 html ;;
  html <- re_sub (re_p_open "<ol") tmpl_g1 html ;;
  re_sub (re_close_p "</ol>") tmpl_g1 html.

(** *** Status badges (lines 144-147) *)

Definition bytes (l : list nat) : str := map ascii_of_nat l.

(** The four glyphs, as the source file has them in UTF-8: U+2705, U+274C,
    U+26A0 U+FE0F and U+1F504. *)
Definition glyph_success : str := bytes [226; 156; 133].
Definition glyph_danger : str := bytes [226; 157; 140].
Definition glyph_warning : str := bytes [226; 154; 160; 239; 184; 143].
Definition glyph_info : str := bytes [240; 159; 148; 132].

Definition tmpl_badge (class : string) (glyph : str) : template :=
  [TL (lit "<span class=" ++ [DQ] ++ lit "badge " ++ lit class ++ [DQ] ++ lit ">"
       ++ glyph ++ lit "</span>")].

Definition badges_pass (html : str) : option str :=
  html <- re_sub (Lit glyph_success) (tmpl_badge "badge-success" glyph_success) html ;;
  html <- re_sub (Lit glyph_danger) (tmpl_badge "badge-danger" glyph_danger) html ;;
  html <- re_sub (Lit glyph_warning) (tmpl_badge "badge-warning" glyph_warning) html ;;
  re_sub (Lit glyph_info) (tmpl_badge "badge-info" glyph_info) html.

(** *** Tables (lines 150-183) *)

(** [[x.strip() for x in parts if x.strip()]] *)
Definition strip_all (parts : list str) : list str :=
  map strip (filter (fun x => truthy (strip x)) parts).

(** The cells of a row: [[c.strip() for c in line.split('|') if c.strip()]] *)
Definition cells_of (line : str) : list str := strip_all (split "|" line).

(** [for line in lines[2:]: cells = ...; if cells: rows.append(cells)] *)
Definition parse_rows (lines : list str) : list (list str) :=
  fold_left (fun rows line =>
               let cells := cells_of line in
               match cells with [] => rows | _ => rows ++ [cells] end)
            (skipn 2 lines) [].

(** The part of [convert_table] that builds the HTML. *)
Definition build_table (headers : list str) (rows : list (list str)) : str :=
  let table_html := lit "<table>" ++ [NL] ++ lit "<thead>" ++ [NL] ++ lit "<tr>" ++ [NL] in
  let table_html :=
    fold_left (fun t h => t ++ lit "<th>" ++ h ++ lit "</th>" ++ [NL]) headers table_html in
  let table_html :=
    table_html ++ lit "</tr>" ++ [NL] ++ lit "</thead>" ++ [NL] ++ lit "<tbody>" ++ [NL] in
  let table_html :=
    fold_left (fun t row =>
                 let t := t ++ lit "<tr>" ++ [NL] in
                 let t := fold_left (fun t cell => t ++ lit "<td>" ++ cell ++ lit "</td>" ++ [NL])
                                    row t in
                 t ++ lit "</tr>" ++ [NL])
              rows table_html in
  table_html ++ lit "</tbody>" ++ [NL] ++ lit "</table>".

(** [lines[0]] raises [IndexError] on an empty list. *)
Definition convert_table (text : str) : option str :=
  let lines := strip_all (split NL text) in
  if length lines <? 2 then Some text
  else
    line0 <- nth_error lines 0 ;;
    let headers := cells_of line0 in
    let rows := parse_rows lines in
    Some (build_table headers rows).

(* \n(\|.+\|\n)+ *)
Definition re_table_row : re :=
  Chr (is_char "|") ;; Plus (Chr dot) ;; Chr (is_char "|") ;; Chr (is_char NL).
Definition table_pattern : re := Chr (is_char NL) ;; Plus (Grp 1 re_table_row).

(** [lambda m: '\n' + convert_table(m.group(0)) + '\n'] *)
Definition table_repl (mo : mobj) : option str :=
  t <- convert_table (m_text mo) ;;
  Some ([NL] ++ t ++ [NL]).

Definition tables_pass (html : str) : option str :=
  re_sub_fn table_pattern table_repl html.

(** ** The engine (lines 52-185) *)

Definition convert_md_to_html (md_content : str) : option str :=
  let html := md_content in
  html <- headers_pass html ;;
  html <- code_block_pass html ;;
  html <- inline_pass html ;;
  html <- lists_pass html ;;
  html <- paragraphs_pass html ;;
  html <- cleanup_pass html ;;
  html <- badges_pass html ;;
  tables_pass html.

(** ** Definitions used to state the properties *)

(** [p in s]: [p] occurs in [s] as a substring. *)
Definition starts_with (p s : str) : bool :=
  match strip_prefix p s with Some _ => true | None => false end.

Fixpoint occurs (p s : str) : bool :=
  starts_with p s || match s with [] => false | _ :: t => occurs p t end.

Fixpoint eqb_str (a b : str) : bool :=
  match a, b with
  | [], [] => true
  | x :: a', y :: b' => Ascii.eqb x y && eqb_str a' b'
  | _, _ => false
  end.

(** *** The list pass with its output labelled

    The three containers that the pass opens, with their tags as they
    are written in the output, and the two closing tags. *)
Inductive container : Type := Checklist | Bullets | Numbered.

Inductive list_kind : Type := UL | OL.

Definition open_tag (c : container) : str :=
  match c with
  | Checklist => lit "<ul class=" ++ [DQ] ++ lit "checklist" ++ [DQ] ++ lit ">"
  | Bullets => lit "<ul>"
  | Numbered => lit "<ol>"
  end.

Definition close_tag (k : list_kind) : str :=
  match k with
  | UL => lit "</ul>"
  | OL => lit "</ol>"
  end.

(** The closing tag that belongs to a container. *)
Definition kind_of (c : container) : list_kind :=
  match c with Numbered => OL | _ => UL end.

(** The loop of lines 89-124 again, recording for every element appended to
    [result] whether it is a container tag opened by the pass, a container
    tag closed by it, or a line (an item or a line passed through).
    [render] gives the element that was appended. *)
Inductive event : Type :=
| Open (c : container)
| Close (k : list_kind)
| Out (line : str).

Definition render (e : event) : str :=
  match e with
  | Open c => open_tag c
  | Close k => close_tag k
  | Out line => line
  end.

Definition trace_st : Type := (in_list_t * list event)%type.

(** [if not in_list: result.append(tag); in_list = v], where [tag] is the
    opening tag of [c]. *)
Definition open_list_ev (c : container) (v : in_list_t) (st : trace_st) : trace_st :=
  let '(in_list, tr) := st in
  if negb (truth in_list) then (v, tr ++ [Open c]) else (in_list, tr).

Definition append_ev (x : str) (st : trace_st) : trace_st :=
  let '(in_list, tr) := st in (in_list, tr ++ [Out x]).

(** ['</ol>' if in_list == 'ol' else '</ul>'] *)
Definition closing_kind (in_list : in_list_t) : list_kind :=
  match in_list with IL_ol => OL | _ => UL end.

Definition list_step_ev (st : trace_st) (line : str) : option trace_st :=
  if matches re_unchecked line then
    let st := open_list_ev Checklist IL_True st in
    item <- re_sub re_unchecked_item tmpl_unchecked_item line ;;
    Some (append_ev item st)
  else if matches re_checked line then
    let st := open_list_ev Checklist IL_True st in
    item <- re_sub re_checked_item tmpl_checked_item line ;;
    Some (append_ev item st)
  else if matches re_bullet line then
    let st := open_list_ev Bullets IL_True st in
    item <- re_sub re_bullet tmpl_li line ;;
    Some (append_ev item st)
  else if matches re_ordered line then
    let st := open_list_ev Numbered IL_ol st in
    item <- re_sub re_ordered tmpl_li line ;;
    Some (append_ev item st)
  else
    let '(in_list, tr) := st in
    let st := if truth in_list
              then (IL_False, tr ++ [Close (closing_kind in_list)])
              else (in_list, tr) in
    Some (append_ev line st).

Definition list_trace (lines : list str) : option (list event) :=
  st <- for_each list_step_ev (IL_False, []) lines ;;
  let '(in_list, tr) := st in
  Some (if truth in_list then tr ++ [Close (closing_kind in_list)] else tr).

Definition kind_eqb (a b : list_kind) : bool :=
  match a, b with
  | UL, UL | OL, OL => true
  | _, _ => false
  end.

(** [well_nested cur t]: with the container [cur] open ([None]: none),
    the labelled output [t] opens a container only when none is open,
    closes only the one that is open, with the closing tag of its kind,
    and leaves none open at its end. *)
Fixpoint well_nested (cur : option container) (t : list event) : bool :=
  match t with
  | [] => match cur with None => true | Some _ => false end
  | Open c :: t' =>
      match cur with None => well_nested (Some c) t' | Some _ => false end
  | Close k :: t' =>
      match cur with
      | Some c => kind_eqb (kind_of c) k && well_nested None t'
      | None => false
      end
  | Out _ :: t' => well_nested cur t'
  end.

(** Forgetting the labels of the labelled pass gives the pass. *)
Definition erase (st : trace_st) : list_st := (fst st, map render (snd st)).

(** The container [cur] is the one that the value [in_list] stands for. *)
Definition stands_for (in_list : in_list_t) (cur : option container) : Prop :=
  match cur with
  | None => in_list = IL_False
  | Some c => truth in_list = true /\ kind_of c = closing_kind in_list
  end.

(** The labelled output so far, followed by an output that is well
    nested from the container that is open, is well nested. *)
Definition nested_so_far (st : trace_st) : Prop :=
  exists cur, stands_for (fst st) cur /\
              forall t, well_nested None (snd st ++ t) = well_nested cur t.

(** A line that the loop takes by one of its two checklist branches, and
    one that it takes by the branch of the regular items. *)
Definition is_checklist_line (line : str) : bool :=
  matches re_unchecked line || matches re_checked line.

Definition is_plain_bullet (line : str) : bool :=
  negb (is_checklist_line line) && matches re_bullet line.

(** The list item of a regular or an ordered item. *)
Definition li (text : str) : str := lit "<li>" ++ text ++ lit "</li>".

(** An ordered item as it is written. *)
Definition ordered_line (numeral text : str) : str := numeral ++ lit ". " ++ text.

(** *** Fences *)




(** *** Identifiers of level-2 headings *)

(** What [make_id] computes from the heading text. *)
Definition id_text_of (text : str) : str :=
  replace_char SP (lit "-") (filter id_char (lower text)).

(** The identifier as section 4.1 of the specification words it: lowercase,
    strip what is outside word characters, whitespace and hyphen, replace
    every run of whitespace by one hyphen. *)
Fixpoint hyphenate_runs (in_run : bool) (s : str) : str :=
  match s with
  | [] => []
  | c :: t =>
      if is_space c
      then (if in_run then hyphenate_runs true t else "-"%char :: hyphenate_runs true t)
      else c :: hyphenate_runs false t
  end.

Definition spec_slug (text : str) : str :=
  hyphenate_runs false (filter id_char (lower text)).

(** *** Text without markup *)

(** An ASCII character that begins no inline pattern, no tag and no table
    cell. *)
Definition plain_char (c : ascii) : bool :=
  is_ascii c &&
  negb (is_char "`" c || is_char "*" c || is_char "[" c || is_char "<" c ||
        is_char "|" c).

(** The characters that begin a heading or a list item. *)
Definition block_start (c : ascii) : bool :=
  is_char "#" c || is_char "-" c || is_digit c.

(** A line that begins with no [block_start] character. *)
Definition line_ok (line : str) : bool :=
  match line with [] => true | c :: _ => negb (block_start c) end.

(** No line of the text begins with a [block_start] character; [bol]
    tells whether the text begins a line. *)
Fixpoint line_starts_ok (bol : bool) (s : str) : bool :=
  match s with
  | [] => true
  | c :: t => negb (bol && block_start c) && line_starts_ok (Ascii.eqb c NL) t
  end.

(** Text with no markup at all: plain characters, no line that begins a
    block, no blank line, and something besides whitespace. *)
Definition plain (s : str) : bool :=
  forallb plain_char s && line_starts_ok true s && negb (occurs [NL; NL] s) &&
  existsb (fun c => negb (is_space c)) s.

(** Every match of [r] begins with the literal [p]. *)
Definition needs (p : str) (r : re) : Prop :=
  forall k q, starts_with p (rest q) = false -> m r k q = None.

(** Every match of [r] is some whitespace and then the literal [p]. *)
Definition after_spaces (p : str) (r : re) : Prop :=
  forall k q p', m r k q = Some p' ->
  exists a b, rest q = a ++ b /\ forallb is_space a = true /\ starts_with p b = true.

(** A text in the paragraph of line 130. *)
Definition par (s : str) : str := lit "<p>" ++ s ++ lit "</p>".

(** *** The repetition of a character class, read as a recursion on the text

    [greedy f k pv s cs] is [Star (Chr f)] followed by [k] at the position
    [(pv, s, cs)]: as many characters of [f] as there are, giving them back
    one at a time until [k] succeeds.  [lazy f k pv s cs] is
    [LazyStar (Chr f)]: [k] first, one more character when it fails. *)
Fixpoint greedy (f : ascii -> bool) (k : pos -> option pos)
    (pv : option ascii) (s : str) (cs : list (nat * str)) : option pos :=
  match s with
  | c :: t =>
      if f c then orelse (greedy f k (Some c) t cs) (k (mkPos pv s cs))
      else k (mkPos pv s cs)
  | [] => k (mkPos pv [] cs)
  end.

Fixpoint lazy (f : ascii -> bool) (k : pos -> option pos)
    (pv : option ascii) (s : str) (cs : list (nat * str)) : option pos :=
  orelse (k (mkPos pv s cs))
         (match s with
          | c :: t => if f c then lazy f k (Some c) t cs else None
          | [] => None
          end).

(** The character before the position reached after reading [s]. *)
Definition prev_after (s : str) (pv : option ascii) : option ascii :=
  fold_left (fun _ c => Some c) s pv.

(** [q] is a position reached from [p]: further in the text, with the
    captures of [p] kept. *)
Definition advances (p q : pos) : Prop :=
  (exists x, rest p = x ++ rest q) /\ (exists l, caps q = l ++ caps p).

(** What is absent or outside the class ends a repetition. *)
Definition stops (f : ascii -> bool) (s : str) : bool :=
  match s with [] => true | c :: _ => negb (f c) end.
(** ** The caller of the engine: [process_file] (lines 187-260)

    The parts of [process_file] that compute: the title of the page, the
    check that the file is under the base directory, and the place of the
    output.  Reading and writing the files, the directories and the page
    template are not modelled. *)

(** [re.search(pattern, s)]: the leftmost match. *)
Fixpoint search_loop (r : re) (pv : option ascii) (s : str) {struct s} : option mobj :=
  match match_at r pv s with
  | Some mo => Some mo
  | None =>
      match s with
      | c :: t => search_loop r (Some c) t
      | [] => None
      end
  end.

Definition re_search (r : re) (s : str) : option mobj := search_loop r None s.

(* <h1>(.+?)</h1> *)
Definition re_title : re :=
  Lit (lit "<h1>") ;; Grp 1 (LazyPlus (Chr dot)) ;; Lit (lit "</h1>").

(** Lines 199-200: [title_match.group(1) if title_match else
    Path(md_path).stem]; [stem] is the value of [Path(md_path).stem]. *)
Definition page_title (html_content stem : str) : option str :=
  match re_search re_title html_content with
  | Some title_match => g <- group 1 title_match ;; g
  | None => Some stem
  end.

(** The place of the output under [output_base], a list of path
    components, and the three prefixes given to the template. *)
Record target : Type := mkTarget {
  output_path : list str;
  css_path : str;
  js_path : str;
  root_path : str
}.

(** Lines 207-242, the branches alone: [path] is [str(md_path)], [name]
    is [md_path_obj.name] and [stem] is [md_path_obj.stem]; [x in s] is
    [occurs x s].  Line 204 before them, which raises for a file that is
    not under the base directory, is in [locate] below. *)
Definition place (path name stem : str) : target :=
  if occurs (lit "submission/app-store") path then
    mkTarget [lit "app-store"; stem ++ lit ".html"] (lit "../") (lit "../") (lit "../")
  else if occurs (lit "submission/beta-testing") path then
    mkTarget [lit "beta-testing"; stem ++ lit ".html"] (lit "../") (lit "../") (lit "../")
  else if occurs (lit "submission/marketing") path then
    mkTarget [lit "marketing"; stem ++ lit ".html"] (lit "../") (lit "../") (lit "../")
  else if occurs (lit "submission/implementation") path then
    mkTarget [lit "implementation"; stem ++ lit ".html"] (lit "../") (lit "../") (lit "../")
  else if occurs (lit "submission") path && eqb_str name (lit "README.md") then
    mkTarget [lit "reference"; lit "submission-README.html"] (lit "../") (lit "../") (lit "../")
  else if occurs (lit "Sponge/ai") path then
    mkTarget [lit "reference"; stem ++ lit ".html"] (lit "../") (lit "../") (lit "../")
  else
    mkTarget [stem ++ lit ".html"] [] [] [].

(** The prefix that leads from a file [depth] directories below a
    directory back to the directory. *)
Fixpoint up (depth : nat) : str :=
  match depth with
  | 0 => []
  | S d => lit "../" ++ up d
  end.

(** [md_path] as [main] gives it: a [Path] for an absolute POSIX path,
    here the list of its components after the root [/].  A component is
    not empty, is not [.] and has no [/] in it. *)
Definition component (c : str) : bool :=
  truthy c && negb (eqb_str c (lit ".")) && forallb (not_char "/") c.

(** [str(md_path)] *)
Definition path_str (parts : list str) : str := lit "/" ++ join (lit "/") parts.

(** The base directory of line 204, [/Users/danielwait/envclaudecode]. *)
Definition base_dir : list str := [lit "Users"; lit "danielwait"; lit "envclaudecode"].

(** [path.relative_to(base)]: the components of [path] after those of
    [base]; [None] is the [ValueError] raised when [path] is not under
    [base]. *)
Fixpoint relative_to (parts base : list str) : option (list str) :=
  match base, parts with
  | [], _ => Some parts
  | b :: base', c :: parts' => if eqb_str b c then relative_to parts' base' else None
  | _ :: _, [] => None
  end.

(** Lines 203-242: the check of line 204, then the branches. *)
Definition locate (parts : list str) (name stem : str) : option target :=
  relative <- relative_to parts base_dir ;;
  Some (place (path_str parts) name stem).

(** ** Definitions used to state the further properties *)

(** *** Lines of the list pass *)

(** A line that none of the four patterns of lines 91-111 matches: the
    loop takes it by its last branch. *)
Definition is_other (line : str) : bool :=
  negb (matches re_unchecked line) && negb (matches re_checked line) &&
  negb (matches re_bullet line) && negb (matches re_ordered line).

(** A regular item as it is written. *)
Definition bullet_line (text : str) : str := lit "- " ++ text.

(** The text of an item: not empty, on one line. *)
Definition item_text (text : str) : bool := truthy text && forallb dot text.

(** The text of a regular item that is not a checklist item. *)
Definition bullet_text (text : str) : bool :=
  item_text text && negb (is_checklist_line (bullet_line text)).

(** The numeral of an ordered item: ASCII digits, one at least. *)
Definition numeral (n : str) : bool := truthy n && forallb is_digit n.

(** An ordered item: its numeral and its text. *)
Definition ordered_item (it : str * str) : bool :=
  numeral (fst it) && item_text (snd it).

(** The state of the loop with [r0] before its [result]. *)
Definition prepend (r0 : list str) (st : list_st) : list_st := (fst st, r0 ++ snd st).



(** *** Inline markup *)

(** No character that begins an inline pattern: backtick, asterisk,
    opening square bracket. *)
Definition inline_char (c : ascii) : bool :=
  is_char "`" c || is_char "*" c || is_char "[" c.

Definition inline_free (s : str) : bool := forallb (fun c => negb (inline_char c)) s.

(** A text put together from parts that are free of a character is free
    of it. *)
Ltac free_all :=
  rewrite ?forallb_app;
  repeat match goal with
         | H : forallb _ _ = true |- _ => rewrite H
         end;
  reflexivity.

(** *** Headings *)

(** The element of a heading of level [n] without identifier. *)
Definition heading_elt (n : ascii) (text : str) : str :=
  ["<"; "h"; n; ">"]%char ++ text ++ ["<"; "/"; "h"; n; ">"]%char.

(** No occurrence of a literal in a text put together from written parts
    and one part, [Ht], that is free of the first character of the
    literal: [step] passes a written character, [free] the free part. *)
Ltac no_occ_with step free Ht :=
  cbn [lit list_ascii_of_string app];
  rewrite <- ?app_assoc; cbn [app];
  rewrite ?step by reflexivity;
  rewrite free by exact Ht;
  rewrite ?step by reflexivity;
  reflexivity.

(** *** Tables *)

(** A row of a table as it is written, without its newline: [x] is what
    stands between the first and the last [|]. *)
Definition pipe_row (x : str) : str := lit "|" ++ x ++ lit "|".

(** Rows, each on a line of its own. *)
Definition block (xs : list str) : str :=
  concat (map (fun x => pipe_row x ++ [NL]) xs).

(** The rows that have a cell. *)
Definition with_cells (rows : list (list str)) : list (list str) :=
  filter (fun cells => match cells with [] => false | _ => true end) rows.

(** *** Status badges *)

(** What lines 144-147 put in the place of a glyph. *)
Definition badge (class : string) (glyph : str) : str :=
  lit "<span class=" ++ [DQ] ++ lit "badge " ++ lit class ++ [DQ] ++ lit ">" ++
  glyph ++ lit "</span>".

(** U+26A0 alone, without the variation selector U+FE0F that follows it
    in the pattern of line 146. *)
Definition warning_sign : str := bytes [226; 154; 160].

(** *** Lines with and without block markup *)

(** [l] is [p] and something after it. *)
Definition has_more (p l : str) : bool :=
  match strip_prefix p l with Some (_ :: _) => true | _ => false end.

(** A line that one of the patterns of lines 57-60 matches. *)
Definition heading_line (l : str) : bool :=
  has_more (lit "# ") l || has_more (lit "## ") l ||
  has_more (lit "### ") l || has_more (lit "#### ") l.

Fixpoint drop_digits (l : str) : str :=
  match l with
  | c :: t => if is_digit c then drop_digits t else l
  | [] => []
  end.

(** Digits, [. ] and something after it. *)
Definition ordered_form (l : str) : bool :=
  match l with
  | c :: _ => is_digit c && has_more (lit ". ") (drop_digits l)
  | [] => false
  end.

(** A line that one of the patterns of lines 91-111 matches; the two
    checklist forms begin with [- ] and have something after it. *)
Definition list_line (l : str) : bool := has_more (lit "- ") l || ordered_form l.

(** A line that is neither a heading nor a list item. *)
Definition text_line (l : str) : bool := negb (heading_line l) && negb (list_line l).

(** Text with no markup: ASCII characters other than the backtick, the
    asterisk, [[], [<] and [|], no line that is a heading or a list item,
    no blank line, and something besides whitespace. *)
Definition unmarked (s : str) : bool :=
  forallb plain_char s && forallb text_line (split NL s) &&
  negb (occurs [NL; NL] s) && existsb (fun c => negb (is_space c)) s.

(** What the substitution of a heading pattern makes of a line. *)
Definition sub_line (marker : str) (t : template) (l : str) : str :=
  match strip_prefix marker l with
  | Some (c :: text) => expand t (mkMobj l [(1, c :: text)] 1)
  | _ => l
  end.

(** *** Places where a literal can begin

    [compat p a]: [a] and [p] agree as far as both go, so that [a] with
    some text after it may begin with [p].  [clear p x]: at no place of
    [x] can [p] begin, whatever follows [x]. *)
Fixpoint compat (p a : str) : bool :=
  match p, a with
  | c :: p', d :: a' => Ascii.eqb c d && compat p' a'
  | _, _ => true
  end.

Fixpoint clear (p x : str) : bool :=
  match x with
  | [] => true
  | _ :: t => negb (compat p x) && clear p t
  end.

(** *** Tables as they are written in the output *)

Definition th (cell : str) : str := lit "<th>" ++ cell ++ lit "</th>" ++ [NL].
Definition td (cell : str) : str := lit "<td>" ++ cell ++ lit "</td>" ++ [NL].

Definition tr (cells : list str) : str :=
  lit "<tr>" ++ [NL] ++ concat (map td cells) ++ lit "</tr>" ++ [NL].

Definition table_html (headers : list str) (rows : list (list str)) : str :=
  lit "<table>" ++ [NL] ++ lit "<thead>" ++ [NL] ++ lit "<tr>" ++ [NL] ++
  concat (map th headers) ++
  lit "</tr>" ++ [NL] ++ lit "</thead>" ++ [NL] ++ lit "<tbody>" ++ [NL] ++
  concat (map tr rows) ++
  lit "</tbody>" ++ [NL] ++ lit "</table>".

(** A row as it is written between its first and its last [|], from
    its cells. *)
Definition row_of (cells : list str) : str := join (lit "|") cells.

(** The cells of a row that are not blank, trimmed. *)
Definition trimmed (cells : list str) : list str :=
  map strip (filter (fun c => truthy (strip c)) cells).

(** A row that can be written: cells on one line without [|], ASCII,
    and something between the outer [|]. *)
Definition row_ok (cells : list str) : bool :=
  item_text (row_of cells) && forallb (forallb (not_char "|")) cells &&
  forallb (forallb is_ascii) cells.

(** *** The paragraph around a block

    The opening [<p>] of the text, when it is there; the closing [</p>]
    with what stands before it, when it is there. *)
Definition p_if (o : bool) : str := if o then lit "<p>" else [].
Definition p_end (c : bool) (W : str) : str := if c then W ++ lit "</p>" else [].

Definition blank (s : str) : bool := forallb is_space s.

(** The blocks that lines 136-141 free of their paragraph, with the
    literals of the patterns. *)
Inductive block_kind : Type := K_pre | K_ul | K_ol.

Definition open_lit (k : block_kind) : string :=
  match k with K_pre => "<pre" | K_ul => "<ul" | K_ol => "<ol" end.

Definition close_lit (k : block_kind) : string :=
  match k with K_pre => "</pre>" | K_ul => "</ul>" | K_ol => "</ol>" end.

(** A text in which none of the literals of lines 133-141 can begin. *)
Definition tame (x : str) : bool :=
  clear (lit "<p>") x && clear (lit "</h") x && clear (lit "</pre>") x &&
  clear (lit "</ul>") x && clear (lit "</ol>") x.

(** A text before a block and a text after it, as the engine leaves
    them: in a paragraph unless blank; a blank text after the block is
    dropped. *)
Definition above (pre : str) : str := if blank pre then pre else lit "<p>" ++ pre.
Definition below (post : str) : str := if blank post then [] else post ++ lit "</p>".

(** A text that is empty or ends with a newline: what follows it begins
    a line. *)
Definition ends_line (s : str) : bool :=
  match rev s with [] => true | c :: _ => is_char NL c end.

(** A text that is empty or begins with a newline: what stands before it
    ends a line. *)
Definition starts_line (s : str) : bool :=
  match s with [] => true | c :: _ => is_char NL c end.

(** The lines of a text that ends a line, and of one that begins with
    the end of a line. *)
Definition lines_before (pre : str) : list str := removelast (split NL pre).
Definition lines_after (post : str) : list str := List.tl (split NL post).

(** An ordered item as a pair of its numeral and its text, as it is
    written and as it is put out. *)
Definition item_line (it : str * str) : str := ordered_line (fst it) (snd it).
Definition item_li (it : str * str) : str := li (snd it).

(** What stands between [<ol] and [</ol>] in the container of a run of
    ordered items. *)
Definition ol_mid (items : list (str * str)) : str :=
  lit ">" ++ NL :: concat (map (fun it => item_li it ++ [NL]) items).

(** *** Headings line by line *)

Inductive level : Type := H1 | H2 | H3 | H4.

(** The level and the text of a line that is a heading: [#] up to four
    times, a space, and a text that is not empty. *)
Definition heading_parts (l : str) : option (level * str) :=
  match strip_prefix (lit "# ") l with
  | Some (c :: t) => Some (H1, c :: t)
  | _ =>
    match strip_prefix (lit "## ") l with
    | Some (c :: t) => Some (H2, c :: t)
    | _ =>
      match strip_prefix (lit "### ") l with
      | Some (c :: t) => Some (H3, c :: t)
      | _ =>
        match strip_prefix (lit "#### ") l with
        | Some (c :: t) => Some (H4, c :: t)
        | _ => None
        end
      end
    end
  end.

(** A line as lines 57-60 leave it: the level-2 heading has its text as
    identifier. *)
Definition heading_raw (l : str) : str :=
  match heading_parts l with
  | Some (H1, x) => lit "<h1>" ++ x ++ lit "</h1>"
  | Some (H2, x) => (lit "<h2 id=" ++ [DQ]) ++ x ++ ([DQ] ++ lit ">") ++ x ++ lit "</h2>"
  | Some (H3, x) => lit "<h3>" ++ x ++ lit "</h3>"
  | Some (H4, x) => lit "<h4>" ++ x ++ lit "</h4>"
  | None => l
  end.

(** A line as the headings pass leaves it: the heading element, with
    the identifier of [make_id] at level 2 and none at the other levels;
    a line that is no heading stays. *)
Definition heading_html (l : str) : str :=
  match heading_parts l with
  | Some (H1, x) => lit "<h1>" ++ x ++ lit "</h1>"
  | Some (H2, x) =>
      lit "<h2 id=" ++ [DQ] ++ id_text_of x ++ [DQ] ++ lit ">" ++ x ++ lit "</h2>"
  | Some (H3, x) => lit "<h3>" ++ x ++ lit "</h3>"
  | Some (H4, x) => lit "<h4>" ++ x ++ lit "</h4>"
  | None => l
  end.

(** The text as it reaches the list pass: lines 57-82. *)
Definition to_lists (s : str) : option str :=
  html <- headers_pass s ;;
  html <- code_block_pass html ;;
  inline_pass html.




(** * Properties of the matcher *)

Lemma pos_eta (p : pos) : mkPos (prev p) (rest p) (caps p) = p.
Proof. destruct p; reflexivity. Qed.

Lemma bind_Some {A B : Type} (x : option A) (f : A -> option B) (a : A) :
  x = Some a -> bind x f = f a.
Proof. intros ->; reflexivity. Qed.

Lemma m_Lit (s : str) : forall k p,
  m (Lit s) k p =
  match strip_prefix s (rest p) with
  | Some t => k (mkPos (prev_after s (prev p)) t (caps p))
  | None => None
  end.
Proof.
  induction s as [|a s IH]; intros k p; simpl.
  - unfold prev_after; simpl. now rewrite pos_eta.
  - destruct (rest p) as [|c t] eqn:E; [reflexivity|].
    unfold is_char. destruct (Ascii.eqb a c) eqn:Eq; [|reflexivity].
    apply Ascii.eqb_eq in Eq. subst c.
    rewrite IH. reflexivity.
Qed.

Lemma star_loop_Chr (f : ascii -> bool) (k : pos -> option pos) :
  forall n pv s cs, length s <= n ->
  star_loop (m (Chr f)) k n (mkPos pv s cs) = greedy f k pv s cs.
Proof.
  induction n as [|n IH]; intros pv s cs Hn.
  - destruct s; [reflexivity | simpl in Hn; lia].
  - destruct s as [|c t]; simpl; [reflexivity|].
    destruct (f c); [|reflexivity].
    unfold progress; simpl.
    replace (length t <? S (length t)) with true
      by (symmetry; apply Nat.ltb_lt; lia).
    rewrite IH by (simpl in Hn; lia). reflexivity.
Qed.

Lemma m_Star_Chr (f : ascii -> bool) (k : pos -> option pos) (p : pos) :
  m (Star (Chr f)) k p = greedy f k (prev p) (rest p) (caps p).
Proof.
  simpl. rewrite <- (pos_eta p) at 2. now apply star_loop_Chr.
Qed.

Lemma lazy_loop_Chr (f : ascii -> bool) (k : pos -> option pos) :
  forall n pv s cs, length s <= n ->
  lazy_loop (m (Chr f)) k n (mkPos pv s cs) = lazy f k pv s cs.
Proof.
  induction n as [|n IH]; intros pv s cs Hn.
  - destruct s; [|simpl in Hn; lia]. simpl.
    destruct (k _); reflexivity.
  - destruct s as [|c t]; simpl; [reflexivity|].
    destruct (f c); [|reflexivity].
    unfold progress; simpl.
    replace (length t <? S (length t)) with true
      by (symmetry; apply Nat.ltb_lt; lia).
    rewrite IH by (simpl in Hn; lia). reflexivity.
Qed.

Lemma m_LazyStar_Chr (f : ascii -> bool) (k : pos -> option pos) (p : pos) :
  m (LazyStar (Chr f)) k p = lazy f k (prev p) (rest p) (caps p).
Proof.
  simpl. rewrite <- (pos_eta p) at 2. now apply lazy_loop_Chr.
Qed.

(** Whatever [m r k] returns, [k] returned it, at a position reached from
    the starting one. *)
Lemma advances_refl (p : pos) : advances p p.
Proof. split; [exists [] | exists []]; reflexivity. Qed.

Lemma advances_trans (p q r : pos) : advances p q -> advances q r -> advances p r.
Proof.
  intros [[x Hx] [l Hl]] [[y Hy] [l' Hl']]. split.
  - exists (x ++ y). now rewrite Hx, Hy, app_assoc.
  - exists (l' ++ l). now rewrite Hl', Hl, app_assoc.
Qed.

Lemma orelse_Some {A : Type} (x y : option A) (a : A) :
  orelse x y = Some a -> x = Some a \/ (x = None /\ y = Some a).
Proof. destruct x; simpl; intros H; [left | right]; auto. Qed.

Section Continuation.

Variable body : (pos -> option pos) -> pos -> option pos.
Hypothesis body_cont : forall k p p',
  body k p = Some p' -> exists q, advances p q /\ k q = Some p'.

Lemma star_loop_cont (k : pos -> option pos) : forall n p p',
  star_loop body k n p = Some p' -> exists q, advances p q /\ k q = Some p'.
Proof.
  induction n as [|n IH]; intros p p' H; simpl in H.
  - exists p. split; [apply advances_refl | exact H].
  - apply orelse_Some in H. destruct H as [H | [_ H]].
    + apply body_cont in H. destruct H as (q & Hq & H).
      destruct (progress p q); [|discriminate].
      apply IH in H. destruct H as (q' & Hq' & H).
      exists q'. split; [eapply advances_trans; eassumption | exact H].
    + exists p. split; [apply advances_refl | exact H].
Qed.

Lemma lazy_loop_cont (k : pos -> option pos) : forall n p p',
  lazy_loop body k n p = Some p' -> exists q, advances p q /\ k q = Some p'.
Proof.
  induction n as [|n IH]; intros p p' H; simpl in H.
  - exists p. split; [apply advances_refl | exact H].
  - apply orelse_Some in H. destruct H as [H | [_ H]].
    + exists p. split; [apply advances_refl | exact H].
    + apply body_cont in H. destruct H as (q & Hq & H).
      destruct (progress p q); [|discriminate].
      apply IH in H. destruct H as (q' & Hq' & H).
      exists q'. split; [eapply advances_trans; eassumption | exact H].
Qed.

End Continuation.

Lemma m_cont (r : re) : forall k p p',
  m r k p = Some p' -> exists q, advances p q /\ k q = Some p'.
Proof.
  induction r as [ | f | | | | | r1 IH1 r2 IH2 | r1 IH1 | r1 IH1 | r1 IH1 | n r1 IH1];
    intros k p p' H; simpl in H.
  - exists p; split; [apply advances_refl | exact H].
  - destruct (rest p) as [|c t] eqn:E; [discriminate|].
    destruct (f c); [|discriminate].
    eexists; split; [|exact H]. split; simpl.
    + exists [c]. now rewrite E.
    + exists []. reflexivity.
  - destruct (at_bol (prev p)); [|discriminate].
    exists p; split; [apply advances_refl | exact H].
  - destruct (at_eol (rest p)); [|discriminate].
    exists p; split; [apply advances_refl | exact H].
  - destruct (prev p); [discriminate|].
    exists p; split; [apply advances_refl | exact H].
  - destruct (at_eos (rest p)); [|discriminate].
    exists p; split; [apply advances_refl | exact H].
  - apply IH1 in H. destruct H as (q & Hq & H).
    apply IH2 in H. destruct H as (q' & Hq' & H).
    exists q'. split; [eapply advances_trans; eassumption | exact H].
  - apply orelse_Some in H. destruct H as [H | [_ H]].
    + now apply IH1.
    + exists p; split; [apply advances_refl | exact H].
  - eapply star_loop_cont; eassumption.
  - eapply lazy_loop_cont; eassumption.
  - apply IH1 in H. destruct H as (q & Hq & H).
    eexists; split; [|exact H].
    destruct Hq as [[x Hx] [l Hl]]. split; simpl.
    + now exists x.
    + exists ((n, consumed p q) :: l). now rewrite Hl.
Qed.

Lemma m_advances (r : re) (p p' : pos) : m r Some p = Some p' -> advances p p'.
Proof.
  intros H. apply m_cont in H. destruct H as (q & Hq & H).
  now injection H as <-.
Qed.

(** * Properties of [re.sub] *)

Lemma firstn_app_exact {A : Type} (x y : list A) :
  firstn (length (x ++ y) - length y) (x ++ y) = x.
Proof.
  rewrite length_app, Nat.add_sub.
  rewrite firstn_app, Nat.sub_diag, firstn_all. simpl. apply app_nil_r.
Qed.

Lemma prev_after_app (a b : str) (pv : option ascii) :
  prev_after (a ++ b) pv = prev_after b (prev_after a pv).
Proof. unfold prev_after. apply fold_left_app. Qed.

(** A successful run of the matcher, as a match object. *)
Lemma match_at_Some (r : re) (pv pv' : option ascii) (x y : str) (cs : list (nat * str)) :
  m r Some (mkPos pv (x ++ y) []) = Some (mkPos pv' y cs) ->
  match_at r pv (x ++ y) = Some (mkMobj x cs (ngroups r)).
Proof.
  intros H. unfold match_at. rewrite H. simpl. now rewrite firstn_app_exact.
Qed.

Lemma match_at_None (r : re) (pv : option ascii) (s : str) :
  m r Some (mkPos pv s []) = None -> match_at r pv s = None.
Proof. intros H. unfold match_at. now rewrite H. Qed.

Section SubLoop.

Variable r : re.
Variable repl : mobj -> option str.

Lemma sub_loop_skip : forall (a : str) n pv b,
  length a = n ->
  sub_loop r repl n pv (a ++ b) = sub_loop r repl 0 (prev_after a pv) b.
Proof.
  induction a as [|c a IH]; intros n pv b Hn; simpl in Hn; subst n.
  - reflexivity.
  - simpl. now apply IH.
Qed.

Lemma sub_loop_nil_skip (n : nat) (pv : option ascii) :
  0 < n -> sub_loop r repl n pv [] = Some [].
Proof. destruct n; [lia | reflexivity]. Qed.

(** No match begins in the prefix [a]: it is copied. *)
Lemma sub_loop_prefix : forall (a : str) pv b,
  (forall a1 a2, a = a1 ++ a2 -> a2 <> [] ->
     match_at r (prev_after a1 pv) (a2 ++ b) = None) ->
  sub_loop r repl 0 pv (a ++ b) =
  (x <- sub_loop r repl 0 (prev_after a pv) b ;; Some (a ++ x)).
Proof.
  induction a as [|c a IH]; intros pv b H.
  - simpl. destruct (sub_loop r repl 0 pv b); reflexivity.
  - change ((c :: a) ++ b) with (c :: (a ++ b)).
    cbn [sub_loop].
    pose proof (H [] (c :: a) eq_refl ltac:(discriminate)) as H0.
    change (match_at r pv (c :: a ++ b) = None) in H0.
    rewrite H0, IH.
    + change (prev_after (c :: a) pv) with (prev_after a (Some c)).
      destruct (sub_loop r repl 0 (prev_after a (Some c)) b); reflexivity.
    + intros a1 a2 E Hne. subst a.
      apply (H (c :: a1) a2 eq_refl Hne).
Qed.

(** No match anywhere: the text is unchanged. *)
Lemma sub_loop_id (s : str) (pv : option ascii) :
  (forall a b, s = a ++ b -> match_at r (prev_after a pv) b = None) ->
  sub_loop r repl 0 pv s = Some s.
Proof.
  intros H.
  rewrite <- (app_nil_r s) at 1. rewrite sub_loop_prefix.
  - cbn [sub_loop]. rewrite (H s []) by (now rewrite app_nil_r).
    simpl. now rewrite app_nil_r.
  - intros a1 a2 E _. rewrite app_nil_r. now apply H.
Qed.

(** A match of the non-empty text [x] at the start: it is replaced and the
    scan goes on after it. *)
Lemma sub_loop_match (pv : option ascii) (x y : str) (mo : mobj) (out : str) :
  match_at r pv (x ++ y) = Some mo -> m_text mo = x -> x <> [] ->
  repl mo = Some out ->
  sub_loop r repl 0 pv (x ++ y) =
  (z <- sub_loop r repl 0 (prev_after x pv) y ;; Some (out ++ z)).
Proof.
  intros Hm Ht Hx Hr.
  destruct x as [|c x]; [congruence|].
  change ((c :: x) ++ y) with (c :: (x ++ y)) in *.
  cbn [sub_loop]. rewrite Hm. rewrite Hr. cbn [bind].
  rewrite Ht. cbn [length].
  rewrite sub_loop_skip by reflexivity. reflexivity.
Qed.

(** The scan fails only where the replacement function does. *)
Lemma sub_loop_total :
  (forall pv s mo, match_at r pv s = Some mo -> exists x, repl mo = Some x) ->
  forall (s : str) n pv, exists out, sub_loop r repl n pv s = Some out.
Proof.
  intros Hrepl. induction s as [|c t IH]; intros n pv.
  - destruct n; cbn [sub_loop]; [|eauto].
    destruct (match_at r pv []) as [mo|] eqn:E; [|eauto].
    destruct (Hrepl _ _ _ E) as [x ->]. simpl. eauto.
  - destruct n; cbn [sub_loop]; [|apply IH].
    destruct (match_at r pv (c :: t)) as [mo|] eqn:E.
    + destruct (Hrepl _ _ _ E) as [x ->]. cbn [bind].
      destruct (length (m_text mo)) as [|k].
      * destruct (IH 0 (Some c)) as [y ->]. simpl. eauto.
      * destruct (IH k (Some c)) as [y ->]. simpl. eauto.
    + destruct (IH 0 (Some c)) as [y ->]. simpl. eauto.
Qed.

End SubLoop.

Lemma re_sub_valid (r : re) (t : template) (s : str) :
  forallb (titem_ok (ngroups r)) t = true ->
  re_sub r t s = sub_loop r (fun mo => Some (expand t mo)) 0 None s.
Proof. intros H. unfold re_sub, re_sub_fn. now rewrite H. Qed.

Lemma re_sub_total (r : re) (t : template) (s : str) :
  forallb (titem_ok (ngroups r)) t = true ->
  exists out, re_sub r t s = Some out.
Proof.
  intros H. rewrite re_sub_valid by assumption.
  apply sub_loop_total. intros; eauto.
Qed.

(** [re.sub] leaves a text where the pattern matches nowhere. *)
Lemma re_sub_id (r : re) (t : template) (s : str) :
  forallb (titem_ok (ngroups r)) t = true ->
  (forall a b, s = a ++ b -> match_at r (prev_after a None) b = None) ->
  re_sub r t s = Some s.
Proof.
  intros Hv H. rewrite re_sub_valid by assumption. now apply sub_loop_id.
Qed.

(** Deleting the characters of a class. *)
Lemma sub_loop_delete (f : ascii -> bool) : forall (s : str) pv,
  sub_loop (Chr f) (fun mo => Some (expand [] mo)) 0 pv s =
  Some (filter (fun c => negb (f c)) s).
Proof.
  induction s as [|c t IH]; intros pv.
  - reflexivity.
  - cbn [sub_loop]. unfold match_at. cbn [m rest caps].
    destruct (f c) eqn:E.
    + cbn [rest bind expand m_text].
      replace (length (c :: t) - length t) with 1 by (cbn [length]; lia).
      cbn [firstn length app]. rewrite IH. simpl. now rewrite E.
    + rewrite IH. simpl. now rewrite E.
Qed.

Lemma re_sub_id_strip (s : str) :
  re_sub re_id_strip [] s = Some (filter id_char s).
Proof.
  unfold re_id_strip. rewrite re_sub_valid by reflexivity.
  rewrite sub_loop_delete. f_equal.
  apply filter_ext. intros c. apply negb_involutive.
Qed.

(** No match, by an invariant of the scan on the character before the
    position and the text from it. *)
Lemma sub_loop_id_inv (r : re) (repl : mobj -> option str)
    (I : option ascii -> str -> Prop) :
  (forall pv s, I pv s -> match_at r pv s = None) ->
  (forall pv c t, I pv (c :: t) -> I (Some c) t) ->
  forall s pv, I pv s -> sub_loop r repl 0 pv s = Some s.
Proof.
  intros Hnone Hstep. induction s as [|c t IH]; intros pv HI.
  - cbn [sub_loop]. now rewrite (Hnone _ _ HI).
  - cbn [sub_loop]. rewrite (Hnone _ _ HI).
    rewrite (IH (Some c) (Hstep _ _ _ HI)). reflexivity.
Qed.

(** A match of the whole text, by a pattern that does not match the empty
    text: the text is replaced as a whole. *)
Lemma sub_loop_whole (r : re) (repl : mobj -> option str) (s : str) (mo : mobj)
    (out : str) :
  s <> [] ->
  match_at r None s = Some mo -> m_text mo = s ->
  (forall pv, match_at r pv [] = None) ->
  repl mo = Some out ->
  sub_loop r repl 0 None s = Some out.
Proof.
  intros Hne Hm Ht Hnil Hr.
  rewrite <- (app_nil_r s) at 1.
  rewrite (@sub_loop_match r repl None s [] mo out); try assumption.
  - cbn [sub_loop]. rewrite Hnil. cbn [bind]. now rewrite app_nil_r.
  - now rewrite app_nil_r.
Qed.

(** No match at the first character: it is copied. *)
Lemma sub_loop_skip_first (r : re) (repl : mobj -> option str) (pv : option ascii)
    (c : ascii) (t : str) :
  match_at r pv (c :: t) = None ->
  sub_loop r repl 0 pv (c :: t) = (y <- sub_loop r repl 0 (Some c) t ;; Some (c :: y)).
Proof. intros H. cbn [sub_loop]. now rewrite H. Qed.


(** * Every pass returns *)

Lemma assoc_app_hit (n : nat) (x : str) (l l' : list (nat * str)) :
  exists y, assoc n (l ++ (n, x) :: l') = Some y.
Proof.
  induction l as [|[i s] l IH]; simpl.
  - rewrite Nat.eqb_refl. eauto.
  - destruct (Nat.eqb i n); eauto.
Qed.

(** A group that the pattern cannot skip has a capture in every match. *)
Lemma m_Grp_captured (n : nat) (r r' : re) (q p' : pos) :
  m (Grp n r ;; r') Some q = Some p' -> exists y, assoc n (caps p') = Some y.
Proof.
  intros H. change (m r (fun p1 => m r' Some (set_cap n q p1)) q = Some p') in H.
  apply m_cont in H. destruct H as (q1 & _ & H).
  apply m_advances in H. destruct H as [_ [l Hl]].
  rewrite Hl. unfold set_cap. cbn [caps]. apply assoc_app_hit.
Qed.

Lemma h2_id_group1 (pv : option ascii) (s : str) (mo : mobj) :
  match_at re_h2_id pv s = Some mo -> exists text, group 1 mo = Some (Some text).
Proof.
  unfold match_at. destruct (m re_h2_id Some _) as [p'|] eqn:E; [|discriminate].
  intros H. injection H as <-.
  unfold re_h2_id in E.
  change (m (Lit (lit "<h2 id=" ++ [DQ]))
            (m (Grp 1 (Plus (Chr (not_char DQ))) ;;
                Lit ([DQ] ++ lit ">") ;; Grp 2 (Plus (Chr (not_char "<"))) ;;
                Lit (lit "</h2>")) Some)
            (mkPos pv s []) = Some p') in E.
  apply m_cont in E. destruct E as (q & _ & E).
  apply m_Grp_captured in E. destruct E as [y Hy].
  exists y. unfold group. cbn. now rewrite Hy.
Qed.

Lemma make_id_total (pv : option ascii) (s : str) (mo : mobj) :
  match_at re_h2_id pv s = Some mo -> exists x, make_id mo = Some x.
Proof.
  intros H. apply h2_id_group1 in H. destruct H as [text H].
  unfold make_id. rewrite H. cbn [bind]. rewrite re_sub_id_strip. cbn [bind]. eauto.
Qed.

Lemma headers_pass_total (html : str) : exists out, headers_pass html = Some out.
Proof.
  unfold headers_pass.
  destruct (re_sub_total re_h1 tmpl_h1 html eq_refl) as [h1 ->]. cbn [bind].
  destruct (re_sub_total re_h2 tmpl_h2 h1 eq_refl) as [h2 ->]. cbn [bind].
  destruct (re_sub_total re_h3 tmpl_h3 h2 eq_refl) as [h3 ->]. cbn [bind].
  destruct (re_sub_total re_h4 tmpl_h4 h3 eq_refl) as [h4 ->]. cbn [bind].
  apply sub_loop_total. exact make_id_total.
Qed.

Lemma code_block_pass_total (html : str) : exists out, code_block_pass html = Some out.
Proof. apply re_sub_total. reflexivity. Qed.

Lemma inline_pass_total (html : str) : exists out, inline_pass html = Some out.
Proof.
  unfold inline_pass.
  destruct (re_sub_total re_inline_code tmpl_inline_code html eq_refl) as [h1 ->]. cbn [bind].
  destruct (re_sub_total re_bold tmpl_bold h1 eq_refl) as [h2 ->]. cbn [bind].
  destruct (re_sub_total re_italic tmpl_italic h2 eq_refl) as [h3 ->]. cbn [bind].
  apply re_sub_total. reflexivity.
Qed.

Lemma list_step_total (st : list_st) (line : str) :
  exists st', list_step st line = Some st'.
Proof.
  unfold list_step.
  destruct (matches re_unchecked line).
  { destruct (re_sub_total re_unchecked_item tmpl_unchecked_item line eq_refl) as [x ->].
    cbn [bind]. eauto. }
  destruct (matches re_checked line).
  { destruct (re_sub_total re_checked_item tmpl_checked_item line eq_refl) as [x ->].
    cbn [bind]. eauto. }
  destruct (matches re_bullet line).
  { destruct (re_sub_total re_bullet tmpl_li line eq_refl) as [x ->].
    cbn [bind]. eauto. }
  destruct (matches re_ordered line).
  { destruct (re_sub_total re_ordered tmpl_li line eq_refl) as [x ->].
    cbn [bind]. eauto. }
  destruct st as [in_list result]. eauto.
Qed.

Lemma for_each_total {S A : Type} (f : S -> A -> option S) :
  (forall st x, exists st', f st x = Some st') ->
  forall l st, exists st', for_each f st l = Some st'.
Proof.
  intros Hf. induction l as [|x l IH]; intros st; cbn [for_each].
  - eauto.
  - destruct (Hf st x) as [st' ->]. cbn [bind]. apply IH.
Qed.

Lemma list_lines_total (lines : list str) : exists out, list_lines lines = Some out.
Proof.
  unfold list_lines.
  destruct (for_each_total list_step list_step_total lines (IL_False, [])) as [[il res] ->].
  cbn [bind]. eauto.
Qed.

Lemma lists_pass_total (html : str) : exists out, lists_pass html = Some out.
Proof.
  unfold lists_pass. destruct (list_lines_total (split NL html)) as [x ->].
  cbn [bind]. eauto.
Qed.

Lemma paragraphs_pass_total (html : str) : exists out, paragraphs_pass html = Some out.
Proof.
  unfold paragraphs_pass.
  destruct (re_sub_total re_blank_lines tmpl_par_break html eq_refl) as [x ->].
  cbn [bind]. eauto.
Qed.

Lemma cleanup_pass_total (html : str) : exists out, cleanup_pass html = Some out.
Proof.
  unfold cleanup_pass.
  destruct (re_sub_total re_empty_par [] html eq_refl) as [h1 ->]. cbn [bind].
  destruct (re_sub_total re_p_heading tmpl_g1 h1 eq_refl) as [h2 ->]. cbn [bind].
  destruct (re_sub_total re_heading_p tmpl_g1 h2 eq_refl) as [h3 ->]. cbn [bind].
  destruct (re_sub_total (re_p_open "<pre") tmpl_g1 h3 eq_refl) as [h4 ->]. cbn [bind].
  destruct (re_sub_total (re_close_p "</pre>") tmpl_g1 h4 eq_refl) as [h5 ->]. cbn [bind].
  destruct (re_sub_total (re_p_open "<ul") tmpl_g1 h5 eq_refl) as [h6 ->]. cbn [bind].
  destruct (re_sub_total (re_close_p "</ul>") tmpl_g1 h6 eq_refl) as [h7 ->]. cbn [bind].
  destruct (re_sub_total (re_p_open "<ol") tmpl_g1 h7 eq_refl) as [h8 ->]. cbn [bind].
  apply re_sub_total. reflexivity.
Qed.

Lemma badges_pass_total (html : str) : exists out, badges_pass html = Some out.
Proof.
  unfold badges_pass.
  destruct (re_sub_total (Lit glyph_success) (tmpl_badge "badge-success" glyph_success)
              html eq_refl) as [h1 ->]. cbn [bind].
  destruct (re_sub_total (Lit glyph_danger) (tmpl_badge "badge-danger" glyph_danger)
              h1 eq_refl) as [h2 ->]. cbn [bind].
  destruct (re_sub_total (Lit glyph_warning) (tmpl_badge "badge-warning" glyph_warning)
              h2 eq_refl) as [h3 ->]. cbn [bind].
  apply re_sub_total. reflexivity.
Qed.

(** [lines[0]] is read only when [len(lines) >= 2]. *)
Lemma convert_table_total (text : str) : exists out, convert_table text = Some out.
Proof.
  unfold convert_table.
  destruct (length (strip_all (split NL text)) <? 2) eqn:E; [eauto|].
  destruct (strip_all (split NL text)) as [|l0 ls]; [discriminate|].
  cbn [nth_error bind]. eauto.
Qed.

Lemma tables_pass_total (html : str) : exists out, tables_pass html = Some out.
Proof.
  apply sub_loop_total. intros pv s mo _. unfold table_repl.
  destruct (convert_table_total (m_text mo)) as [t ->]. cbn [bind]. eauto.
Qed.

Lemma convert_total (md : str) : exists html, convert_md_to_html md = Some html.
Proof.
  unfold convert_md_to_html.
  destruct (headers_pass_total md) as [h1 ->]. cbn [bind].
  destruct (code_block_pass_total h1) as [h2 ->]. cbn [bind].
  destruct (inline_pass_total h2) as [h3 ->]. cbn [bind].
  destruct (lists_pass_total h3) as [h4 ->]. cbn [bind].
  destruct (paragraphs_pass_total h4) as [h5 ->]. cbn [bind].
  destruct (cleanup_pass_total h5) as [h6 ->]. cbn [bind].
  destruct (badges_pass_total h6) as [h7 ->]. cbn [bind].
  apply tables_pass_total.
Qed.

(** * Repetitions of a character class *)

Lemma orelse_None {A : Type} (y : option A) : orelse None y = y.
Proof. reflexivity. Qed.

Lemma m_Seq (r1 r2 : re) (k : pos -> option pos) (p : pos) :
  m (r1 ;; r2) k p = m r1 (m r2 k) p.
Proof. reflexivity. Qed.

Lemma m_Grp (n : nat) (r : re) (k : pos -> option pos) (p : pos) :
  m (Grp n r) k p = m r (fun p' => k (set_cap n p p')) p.
Proof. reflexivity. Qed.

Lemma m_Chr (f : ascii -> bool) (k : pos -> option pos) pv s cs :
  m (Chr f) k (mkPos pv s cs) =
  match s with
  | c :: t => if f c then k (mkPos (Some c) t cs) else None
  | [] => None
  end.
Proof. reflexivity. Qed.

Lemma m_Plus_Chr (f : ascii -> bool) (k : pos -> option pos) pv s cs :
  m (Plus (Chr f)) k (mkPos pv s cs) =
  match s with
  | c :: t => if f c then greedy f k (Some c) t cs else None
  | [] => None
  end.
Proof.
  unfold Plus. rewrite m_Seq, m_Chr. destruct s as [|c t]; [reflexivity|].
  destruct (f c); [|reflexivity]. now rewrite m_Star_Chr.
Qed.

Lemma m_LazyPlus_Chr (f : ascii -> bool) (k : pos -> option pos) pv s cs :
  m (LazyPlus (Chr f)) k (mkPos pv s cs) =
  match s with
  | c :: t => if f c then lazy f k (Some c) t cs else None
  | [] => None
  end.
Proof.
  unfold LazyPlus. rewrite m_Seq, m_Chr. destruct s as [|c t]; [reflexivity|].
  destruct (f c); [|reflexivity]. now rewrite m_LazyStar_Chr.
Qed.

(** The longest repetition is tried first. *)
Lemma greedy_run (f : ascii -> bool) (k : pos -> option pos) (cs : list (nat * str))
    (tl : str) (p' : pos) : forall (run : str) pv,
  forallb f run = true -> stops f tl = true ->
  k (mkPos (prev_after run pv) tl cs) = Some p' ->
  greedy f k pv (run ++ tl) cs = Some p'.
Proof.
  induction run as [|c run IH]; intros pv Hrun Htl Hk.
  - cbn [app]. unfold prev_after in Hk; cbn [fold_left] in Hk.
    destruct tl as [|d tl]; cbn [greedy]; [exact Hk|].
    cbn [stops] in Htl. apply negb_true_iff in Htl. now rewrite Htl.
  - cbn [forallb] in Hrun. apply andb_true_iff in Hrun. destruct Hrun as [Hc Hrun].
    cbn [app greedy]. rewrite Hc.
    rewrite (IH (Some c) Hrun Htl Hk). reflexivity.
Qed.

(** A success of the repetition is a success of what follows it, after
    some characters of the class. *)
Lemma greedy_inv (f : ascii -> bool) (k : pos -> option pos) (cs : list (nat * str))
    (p' : pos) : forall (s : str) pv,
  greedy f k pv s cs = Some p' ->
  exists a b, s = a ++ b /\ forallb f a = true /\
              k (mkPos (prev_after a pv) b cs) = Some p'.
Proof.
  induction s as [|c t IH]; intros pv H; cbn [greedy] in H.
  - exists [], []. auto.
  - destruct (f c) eqn:Hc.
    + apply orelse_Some in H. destruct H as [H | [_ H]].
      * apply IH in H. destruct H as (a & b & -> & Ha & H).
        exists (c :: a), b. cbn [forallb]. rewrite Hc. auto.
      * exists [], (c :: t). auto.
    + exists [], (c :: t). auto.
Qed.

Lemma lazy_inv (f : ascii -> bool) (k : pos -> option pos) (cs : list (nat * str))
    (p' : pos) : forall (s : str) pv,
  lazy f k pv s cs = Some p' ->
  exists a b, s = a ++ b /\ forallb f a = true /\
              k (mkPos (prev_after a pv) b cs) = Some p'.
Proof.
  induction s as [|c t IH]; intros pv H; cbn [lazy] in H;
    apply orelse_Some in H; destruct H as [H | [_ H]].
  - exists [], []. auto.
  - discriminate.
  - exists [], (c :: t). auto.
  - destruct (f c) eqn:Hc; [|discriminate].
    apply IH in H. destruct H as (a & b & -> & Ha & H).
    exists (c :: a), b. cbn [forallb]. rewrite Hc. auto.
Qed.

(** The shortest repetition is tried first. *)
Lemma lazy_first (f : ascii -> bool) (k : pos -> option pos) (cs : list (nat * str))
    (b : str) : forall (a : str) pv,
  forallb f a = true ->
  (forall a1 a2, a = a1 ++ a2 -> a2 <> [] ->
     k (mkPos (prev_after a1 pv) (a2 ++ b) cs) = None) ->
  lazy f k pv (a ++ b) cs = lazy f k (prev_after a pv) b cs.
Proof.
  induction a as [|c a IH]; intros pv Ha H.
  - reflexivity.
  - cbn [forallb] in Ha. apply andb_true_iff in Ha. destruct Ha as [Hc Ha].
    pose proof (H [] (c :: a) eq_refl ltac:(discriminate)) as H0.
    change (k (mkPos pv (c :: a ++ b) cs) = None) in H0.
    cbn [app lazy]. rewrite H0, Hc. cbn [orelse].
    rewrite IH; [reflexivity | exact Ha |].
    intros a1 a2 -> Hne. apply (H (c :: a1) a2 eq_refl Hne).
Qed.

Lemma lazy_hit (f : ascii -> bool) (k : pos -> option pos) pv s cs p' :
  k (mkPos pv s cs) = Some p' -> lazy f k pv s cs = Some p'.
Proof. intros H. destruct s; cbn [lazy]; now rewrite H. Qed.

(** * Literals and substrings *)

Lemma strip_prefix_app (p t : str) : strip_prefix p (p ++ t) = Some t.
Proof.
  induction p as [|c p IH]; [reflexivity|].
  cbn [app strip_prefix]. now rewrite Ascii.eqb_refl.
Qed.

Lemma strip_prefix_Some (p s t : str) : strip_prefix p s = Some t -> s = p ++ t.
Proof.
  revert s. induction p as [|c p IH]; intros s H.
  - cbn in H. now injection H as ->.
  - destruct s as [|d s]; [discriminate|]. cbn [strip_prefix] in H.
    destruct (Ascii.eqb c d) eqn:E; [|discriminate].
    apply Ascii.eqb_eq in E. subst d. cbn [app]. f_equal. now apply IH.
Qed.

Lemma starts_with_app (p t : str) : starts_with p (p ++ t) = true.
Proof. unfold starts_with. now rewrite strip_prefix_app. Qed.

(** A literal whose first character the text does not begin with. *)
Lemma strip_prefix_head (c : ascii) (p s : str) :
  stops (is_char c) s = true -> strip_prefix (c :: p) s = None.
Proof.
  destruct s as [|d s]; [reflexivity|]. cbn [stops strip_prefix]. unfold is_char.
  intros H. apply negb_true_iff in H. now rewrite H.
Qed.

Lemma occurs_tail (p : str) (c : ascii) (s : str) :
  occurs p (c :: s) = false -> occurs p s = false.
Proof. cbn [occurs]. intros H. apply orb_false_iff in H. tauto. Qed.

Lemma occurs_head (p s : str) : occurs p s = false -> starts_with p s = false.
Proof.
  destruct s; cbn [occurs]; intros H; apply orb_false_iff in H; tauto.
Qed.

Lemma occurs_suffix (p : str) : forall (a b : str),
  occurs p (a ++ b) = false -> occurs p b = false.
Proof.
  induction a as [|c a IH]; intros b H; [exact H|].
  apply IH. cbn [app] in H. now apply occurs_tail in H.
Qed.

(** A text without the first character of [p] has no [p], whatever
    follows it. *)
Lemma occurs_free (c : ascii) (p : str) : forall (s t : str),
  forallb (not_char c) s = true ->
  occurs (c :: p) (s ++ t) = occurs (c :: p) t.
Proof.
  induction s as [|d s IH]; intros t H; [reflexivity|].
  cbn [forallb] in H. apply andb_true_iff in H. destruct H as [Hd Hs].
  cbn [app occurs]. rewrite (IH t Hs).
  unfold starts_with. cbn [strip_prefix].
  unfold not_char in Hd. apply negb_true_iff in Hd. now rewrite Hd.
Qed.

Lemma occurs_step (p : str) (d : ascii) (s : str) :
  starts_with p (d :: s) = false -> occurs p (d :: s) = occurs p s.
Proof. intros H. cbn [occurs]. now rewrite H. Qed.

Lemma forallb_wrap (f : ascii -> bool) (a text b : str) :
  forallb f a = true -> forallb f text = true -> forallb f b = true ->
  forallb f (a ++ text ++ b) = true.
Proof. intros Ha Ht Hb. rewrite !forallb_app. now rewrite Ha, Ht, Hb. Qed.

Lemma strip_prefix_app_Some : forall (p q s t : str),
  strip_prefix (p ++ q) s = Some t -> strip_prefix p s = Some (q ++ t).
Proof.
  induction p as [|c p IH]; intros q s t H.
  - cbn [app] in H. apply strip_prefix_Some in H. now subst s.
  - destruct s as [|d s]; [discriminate|]. cbn [app strip_prefix] in *.
    destruct (Ascii.eqb c d); [now apply IH | discriminate].
Qed.

(** A text without [p] is without every literal that begins with [p]. *)
Lemma occurs_longer (p q : str) : forall s : str,
  occurs p s = false -> occurs (p ++ q) s = false.
Proof.
  assert (Hs : forall s, starts_with p s = false -> starts_with (p ++ q) s = false).
  { intros s H. unfold starts_with in *.
    destruct (strip_prefix (p ++ q) s) as [t|] eqn:E; [|reflexivity].
    apply strip_prefix_app_Some in E. now rewrite E in H. }
  induction s as [|c s IH]; intros H; cbn [occurs] in *;
    apply orb_false_iff in H; destruct H as [H1 H2].
  - now rewrite (Hs _ H1).
  - now rewrite (Hs _ H1), (IH H2).
Qed.


(** * Lines *)

Lemma split_cons (sep c : ascii) (s : str) :
  split sep (c :: s) =
  if Ascii.eqb sep c then [] :: split sep s
  else match split sep s with
       | [] => [[c]]
       | x :: xs => (c :: x) :: xs
       end.
Proof. reflexivity. Qed.

Lemma split_not_nil (sep : ascii) (s : str) : split sep s <> [].
Proof.
  destruct s as [|c s]; [discriminate|]. rewrite split_cons.
  destruct (Ascii.eqb sep c); [discriminate|].
  destruct (split sep s); discriminate.
Qed.

Lemma join_cons (sep x : str) (y : str) (r : list str) :
  join sep (x :: y :: r) = x ++ sep ++ join sep (y :: r).
Proof. reflexivity. Qed.

(** ['\n'.join(s.split('\n'))] is [s]. *)
Lemma join_split (sep : ascii) : forall s : str, join [sep] (split sep s) = s.
Proof.
  induction s as [|c s IH]; [reflexivity|]. rewrite split_cons.
  pose proof (split_not_nil sep s) as Hne.
  destruct (split sep s) as [|x xs] eqn:Es; [congruence|].
  destruct (Ascii.eqb sep c) eqn:E.
  - apply Ascii.eqb_eq in E. subst c.
    rewrite join_cons, IH. reflexivity.
  - destruct xs as [|y ys].
    + cbn [join] in *. now rewrite IH.
    + rewrite <- IH. reflexivity.
Qed.

(** A text without the separator is one field. *)
Lemma split_free (sep : ascii) : forall s : str,
  forallb (not_char sep) s = true -> split sep s = [s].
Proof.
  induction s as [|c s IH]; intros H; [reflexivity|].
  cbn [forallb] in H. apply andb_true_iff in H. destruct H as [Hc Hs].
  rewrite split_cons. unfold not_char in Hc. apply negb_true_iff in Hc.
  rewrite Hc, (IH Hs). reflexivity.
Qed.

Lemma split_app (sep : ascii) : forall a b : str,
  forallb (not_char sep) a = true ->
  split sep (a ++ sep :: b) = a :: split sep b.
Proof.
  induction a as [|c a IH]; intros b H.
  - cbn [app]. rewrite split_cons. now rewrite Ascii.eqb_refl.
  - cbn [forallb] in H. apply andb_true_iff in H. destruct H as [Hc Ha].
    cbn [app]. rewrite split_cons. unfold not_char in Hc. apply negb_true_iff in Hc.
    rewrite Hc, (IH b Ha). reflexivity.
Qed.

(** * The loop of the list pass *)

Lemma for_each_app {S A : Type} (f : S -> A -> option S) : forall (l l' : list A) st,
  for_each f st (l ++ l') = (st' <- for_each f st l ;; for_each f st' l').
Proof.
  induction l as [|x l IH]; intros l' st; cbn [app for_each bind]; [reflexivity|].
  destruct (f st x) as [st1|]; cbn [bind]; [apply IH | reflexivity].
Qed.

Lemma open_list_erase (c : container) (v : in_list_t) (st : trace_st) :
  open_list (open_tag c) v (erase st) = erase (open_list_ev c v st).
Proof.
  destruct st as [il tr]. unfold erase, open_list, open_list_ev. cbn [fst snd].
  destruct (negb (truth il)); cbn [fst snd]; [|reflexivity].
  now rewrite map_app.
Qed.

Lemma append_erase (x : str) (st : trace_st) :
  append x (erase st) = erase (append_ev x st).
Proof.
  destruct st as [il tr]. unfold erase, append, append_ev. cbn [fst snd].
  now rewrite map_app.
Qed.

(** The closing tag of the source is the tag of the kind recorded. *)
Lemma closing_tag_kind (il : in_list_t) : closing_tag il = close_tag (closing_kind il).
Proof. destruct il; reflexivity. Qed.

Lemma list_step_erase (st : trace_st) (line : str) :
  list_step (erase st) line = option_map erase (list_step_ev st line).
Proof.
  unfold list_step, list_step_ev.
  destruct (matches re_unchecked line).
  { change ul_checklist_tag with (open_tag Checklist). rewrite open_list_erase.
    destruct (re_sub _ _ line); cbn [bind option_map];
      [now rewrite append_erase | reflexivity]. }
  destruct (matches re_checked line).
  { change ul_checklist_tag with (open_tag Checklist). rewrite open_list_erase.
    destruct (re_sub _ _ line); cbn [bind option_map];
      [now rewrite append_erase | reflexivity]. }
  destruct (matches re_bullet line).
  { change ul_tag with (open_tag Bullets). rewrite open_list_erase.
    destruct (re_sub _ _ line); cbn [bind option_map];
      [now rewrite append_erase | reflexivity]. }
  destruct (matches re_ordered line).
  { change ol_tag with (open_tag Numbered). rewrite open_list_erase.
    destruct (re_sub _ _ line); cbn [bind option_map];
      [now rewrite append_erase | reflexivity]. }
  destruct st as [il tr]. unfold erase at 1. cbn [fst snd option_map]. f_equal.
  destruct (truth il).
  - rewrite closing_tag_kind.
    change (IL_False, map render tr ++ [close_tag (closing_kind il)])
      with (IL_False, map render tr ++ map render [Close (closing_kind il)]).
    rewrite <- map_app. apply (append_erase line (IL_False, tr ++ [Close (closing_kind il)])).
  - apply (append_erase line (il, tr)).
Qed.

Lemma for_each_erase : forall (lines : list str) (st : trace_st),
  for_each list_step (erase st) lines =
  option_map erase (for_each list_step_ev st lines).
Proof.
  induction lines as [|l lines IH]; intros st; cbn [for_each]; [reflexivity|].
  rewrite list_step_erase.
  destruct (list_step_ev st l) as [st'|]; cbn [option_map bind]; [apply IH | reflexivity].
Qed.

Lemma list_lines_erase (lines : list str) :
  list_lines lines = option_map (map render) (list_trace lines).
Proof.
  unfold list_lines, list_trace.
  change (IL_False, @nil str) with (erase (IL_False, [])).
  rewrite for_each_erase.
  destruct (for_each list_step_ev (IL_False, []) lines) as [[il tr]|];
    cbn [option_map bind]; [|reflexivity].
  unfold erase. cbn [fst snd]. f_equal.
  destruct (truth il); [|reflexivity].
  rewrite map_app, closing_tag_kind. reflexivity.
Qed.

Lemma list_step_ev_total (st : trace_st) (line : str) :
  exists st', list_step_ev st line = Some st'.
Proof.
  destruct (list_step_total (erase st) line) as [st' H].
  rewrite list_step_erase in H.
  destruct (list_step_ev st line) as [st1|]; [eauto | discriminate].
Qed.

Lemma kind_eqb_refl (k : list_kind) : kind_eqb k k = true.
Proof. destruct k; reflexivity. Qed.

Lemma stands_for_truth (il : in_list_t) (cur : option container) :
  stands_for il cur -> truth il = match cur with Some _ => true | None => false end.
Proof. destruct cur; cbn; [tauto | now intros ->]. Qed.

Lemma open_list_ev_nested (c : container) (v : in_list_t) (st : trace_st) :
  truth v = true -> kind_of c = closing_kind v ->
  nested_so_far st -> nested_so_far (open_list_ev c v st).
Proof.
  destruct st as [il tr]. unfold nested_so_far, open_list_ev. cbn [fst snd].
  intros Hv Hc (cur & Hs & H). pose proof (stands_for_truth _ _ Hs) as Ht.
  destruct cur as [c0|]; rewrite Ht; cbn [negb fst snd].
  - exists (Some c0). split; [exact Hs | exact H].
  - exists (Some c). split; [split; assumption|].
    intros t. rewrite <- app_assoc. cbn [app]. rewrite H. reflexivity.
Qed.

Lemma append_ev_nested (x : str) (st : trace_st) :
  nested_so_far st -> nested_so_far (append_ev x st).
Proof.
  destruct st as [il tr]. unfold nested_so_far, append_ev. cbn [fst snd].
  intros (cur & Hs & H). exists cur. split; [exact Hs|].
  intros t. rewrite <- app_assoc. cbn [app]. now rewrite H.
Qed.

(** Closing the container that is open, if one is. *)
Lemma close_ev_nested (il : in_list_t) (tr : list event) :
  nested_so_far (il, tr) ->
  nested_so_far (if truth il then (IL_False, tr ++ [Close (closing_kind il)]) else (il, tr)).
Proof.
  intros (cur & Hs & H). cbn [fst snd] in *.
  pose proof (stands_for_truth _ _ Hs) as Ht.
  destruct cur as [c0|]; rewrite Ht.
  - exists None. split; [reflexivity|]. cbn [fst snd].
    intros t. rewrite <- app_assoc. cbn [app]. rewrite H. cbn [well_nested].
    destruct Hs as [_ ->]. now rewrite kind_eqb_refl.
  - exists None. split; [exact Hs | exact H].
Qed.

Lemma list_step_ev_nested (st st' : trace_st) (line : str) :
  list_step_ev st line = Some st' -> nested_so_far st -> nested_so_far st'.
Proof.
  unfold list_step_ev. intros H Hn.
  destruct (matches re_unchecked line).
  { destruct (re_sub _ _ line); [|discriminate]. injection H as <-.
    now apply append_ev_nested, open_list_ev_nested. }
  destruct (matches re_checked line).
  { destruct (re_sub _ _ line); [|discriminate]. injection H as <-.
    now apply append_ev_nested, open_list_ev_nested. }
  destruct (matches re_bullet line).
  { destruct (re_sub _ _ line); [|discriminate]. injection H as <-.
    now apply append_ev_nested, open_list_ev_nested. }
  destruct (matches re_ordered line).
  { destruct (re_sub _ _ line); [|discriminate]. injection H as <-.
    now apply append_ev_nested, open_list_ev_nested. }
  destruct st as [il tr]. injection H as <-. apply append_ev_nested.
  now apply close_ev_nested.
Qed.

Lemma for_each_nested : forall (lines : list str) (st st' : trace_st),
  for_each list_step_ev st lines = Some st' -> nested_so_far st -> nested_so_far st'.
Proof.
  induction lines as [|l lines IH]; intros st st' H Hn; cbn [for_each] in H.
  - now injection H as <-.
  - destruct (list_step_ev st l) as [st1|] eqn:E; [|discriminate]. cbn [bind] in H.
    apply (IH _ _ H). eapply list_step_ev_nested; eassumption.
Qed.

Lemma list_trace_nested (lines : list str) :
  exists tr, list_trace lines = Some tr /\ well_nested None tr = true.
Proof.
  unfold list_trace.
  destruct (for_each_total list_step_ev list_step_ev_total lines (IL_False, []))
    as [[il tr] E].
  rewrite E. cbn [bind].
  assert (Hn : nested_so_far (il, tr)).
  { eapply for_each_nested; [exact E|]. exists None. split; [reflexivity|].
    intros t. reflexivity. }
  apply close_ev_nested in Hn.
  eexists. split; [reflexivity|].
  destruct (truth il) eqn:T; destruct Hn as (cur & Hs & Hn); cbn [fst snd] in *.
  - destruct cur as [c0|]; [destruct Hs as [Hs _]; discriminate|].
    rewrite <- (app_nil_r (tr ++ _)), Hn. reflexivity.
  - pose proof (stands_for_truth _ _ Hs) as Ht. rewrite T in Ht.
    destruct cur as [c0|]; [discriminate|].
    rewrite <- (app_nil_r tr), Hn. reflexivity.
Qed.

(** * Matches of the patterns of the source *)

Lemma prev_after_cons (c : ascii) (s : str) (pv : option ascii) :
  prev_after (c :: s) pv = prev_after s (Some c).
Proof. reflexivity. Qed.

Lemma prev_after_Some (s : str) (pv : option ascii) :
  s <> [] -> exists c, prev_after s pv = Some c /\ In c s.
Proof.
  revert pv. induction s as [|c s IH]; intros pv H; [congruence|].
  rewrite prev_after_cons. destruct s as [|d s].
  - exists c. split; [reflexivity | now left].
  - destruct (IH (Some c) ltac:(discriminate)) as (x & Hx & Hin).
    exists x. split; [exact Hx | now right].
Qed.

(** [f+] on a run of [f] that something outside [f] ends: the whole run. *)
Lemma m_Plus_run (f : ascii -> bool) (k : pos -> option pos) pv (run tl : str) cs p' :
  run <> [] -> forallb f run = true -> stops f tl = true ->
  k (mkPos (prev_after run pv) tl cs) = Some p' ->
  m (Plus (Chr f)) k (mkPos pv (run ++ tl) cs) = Some p'.
Proof.
  intros Hne Hrun Htl Hk. destruct run as [|c run]; [congruence|].
  cbn [forallb] in Hrun. apply andb_true_iff in Hrun. destruct Hrun as [Hc Hrun].
  rewrite m_Plus_Chr. cbn [app]. rewrite Hc.
  now apply greedy_run.
Qed.

(** [(f+)] as group [n]: the group captures the run. *)
Lemma m_Grp_Plus_run (n : nat) (f : ascii -> bool) (k : pos -> option pos)
    pv (run tl : str) cs p' :
  run <> [] -> forallb f run = true -> stops f tl = true ->
  k (mkPos (prev_after run pv) tl ((n, run) :: cs)) = Some p' ->
  m (Grp n (Plus (Chr f))) k (mkPos pv (run ++ tl) cs) = Some p'.
Proof.
  intros Hne Hrun Htl Hk. rewrite m_Grp.
  apply m_Plus_run; try assumption.
  unfold set_cap, consumed. cbn [prev rest caps].
  now rewrite firstn_app_exact.
Qed.

Lemma m_Sos (k : pos -> option pos) (s : str) cs :
  m Sos k (mkPos None s cs) = k (mkPos None s cs).
Proof. reflexivity. Qed.

Lemma m_Eos_nil (k : pos -> option pos) pv cs :
  m Eos k (mkPos pv [] cs) = k (mkPos pv [] cs).
Proof. reflexivity. Qed.

Lemma m_Eol_nil (k : pos -> option pos) pv cs :
  m Eol k (mkPos pv [] cs) = k (mkPos pv [] cs).
Proof. reflexivity. Qed.

Lemma m_Lit_app (p t : str) (k : pos -> option pos) pv cs :
  m (Lit p) k (mkPos pv (p ++ t) cs) = k (mkPos (prev_after p pv) t cs).
Proof. rewrite m_Lit. cbn [rest prev caps]. now rewrite strip_prefix_app. Qed.

Lemma m_Lit_fail (p : str) (k : pos -> option pos) (q : pos) :
  starts_with p (rest q) = false -> m (Lit p) k q = None.
Proof.
  intros H. rewrite m_Lit. unfold starts_with in H.
  destruct (strip_prefix p (rest q)); [discriminate | reflexivity].
Qed.

(** A pattern anchored at the start of the string matches nowhere else. *)
Lemma match_at_Sos_later (r : re) (c : ascii) (s : str) :
  match_at (Sos ;; r) (Some c) s = None.
Proof. reflexivity. Qed.

(** The patterns of the list items take the whole line or nothing, so
    [re.sub] with them rewrites the line as a whole. *)
Lemma re_sub_whole (r : re) (t : template) (s : str) (mo : mobj) :
  forallb (titem_ok (ngroups (Sos ;; r))) t = true ->
  s <> [] ->
  match_at (Sos ;; r) None s = Some mo -> m_text mo = s ->
  re_sub (Sos ;; r) t s = Some (expand t mo).
Proof.
  intros Hv Hne Hm Ht. rewrite re_sub_valid by exact Hv.
  rewrite <- (app_nil_r s) at 1.
  rewrite (@sub_loop_match (Sos ;; r) (fun mo => Some (expand t mo)) None s []
             mo (expand t mo)); try assumption.
  - destruct (prev_after_Some None Hne) as (c & -> & _).
    cbn [sub_loop]. rewrite match_at_Sos_later. cbn [bind]. now rewrite app_nil_r.
  - now rewrite app_nil_r.
  - reflexivity.
Qed.


Lemma ngroups_Lit (s : str) : ngroups (Lit s) = 0.
Proof. induction s as [|c s IH]; [reflexivity|]. cbn [Lit ngroups]. now rewrite IH. Qed.

(** [^marker(.+)$] on [marker ++ text]. *)
Lemma match_item (marker text : str) :
  text <> [] -> forallb dot text = true ->
  match_at (Sos ;; Lit marker ;; Grp 1 (Plus (Chr dot)) ;; Eos) None (marker ++ text) =
  Some (mkMobj (marker ++ text) [(1, text)] 1).
Proof.
  intros Hne Hdot.
  pose (p' := mkPos (prev_after text (prev_after marker None)) [] [(1, text)]).
  assert (H : m (Sos ;; Lit marker ;; Grp 1 (Plus (Chr dot)) ;; Eos) Some
                (mkPos None ((marker ++ text) ++ []) []) = Some p').
  { rewrite app_nil_r. rewrite m_Seq, m_Sos, m_Seq, m_Lit_app, m_Seq.
    rewrite <- (app_nil_r text) at 1.
    apply m_Grp_Plus_run; try assumption; reflexivity. }
  apply match_at_Some in H. rewrite app_nil_r in H. rewrite H.
  cbn [ngroups]. now rewrite ngroups_Lit.
Qed.

(** [^\d+\. (.+)$] on [digits ++ ". " ++ text]. *)
Lemma match_ordered (digits text : str) :
  digits <> [] -> forallb is_digit digits = true ->
  text <> [] -> forallb dot text = true ->
  match_at re_ordered None (digits ++ lit ". " ++ text) =
  Some (mkMobj (digits ++ lit ". " ++ text) [(1, text)] 1).
Proof.
  intros Hd Hdig Hne Hdot.
  pose (p' := mkPos (prev_after text (prev_after (lit ". ") (prev_after digits None)))
                    [] [(1, text)]).
  assert (H : m re_ordered Some
                (mkPos None ((digits ++ lit ". " ++ text) ++ []) []) = Some p').
  { rewrite app_nil_r. unfold re_ordered. rewrite m_Seq, m_Sos, m_Seq.
    apply m_Plus_run; try assumption; [reflexivity|].
    rewrite m_Seq, m_Lit_app.
    rewrite <- (app_nil_r text) at 1.
    apply m_Grp_Plus_run; try assumption; reflexivity. }
  apply match_at_Some in H. rewrite app_nil_r in H. rewrite H. reflexivity.
Qed.

(** * The branches of the list loop *)

Lemma matches_Sos_Lit_false (p : str) (r : re) (s : str) :
  starts_with p s = false -> matches (Sos ;; Lit p ;; r) s = false.
Proof.
  intros H. unfold matches, re_match, match_at.
  rewrite m_Seq, m_Sos, m_Seq, m_Lit_fail; [reflexivity | exact H].
Qed.

Lemma matches_Sos_Lit_only_false (p : str) (s : str) :
  starts_with p s = false -> matches (Sos ;; Lit p) s = false.
Proof.
  intros H. unfold matches, re_match, match_at.
  rewrite m_Seq, m_Sos, m_Lit_fail; [reflexivity | exact H].
Qed.

Lemma digit_not_dash (d : ascii) : is_digit d = true -> Ascii.eqb "-" d = false.
Proof.
  intros H. destruct (Ascii.eqb "-" d) eqn:E; [|reflexivity].
  apply Ascii.eqb_eq in E. subst d. discriminate.
Qed.

Lemma digits_not_item (p : str) (digits s : str) :
  digits <> [] -> forallb is_digit digits = true ->
  starts_with ("-"%char :: p) (digits ++ s) = false.
Proof.
  intros Hne H. destruct digits as [|d ds]; [congruence|].
  cbn [forallb] in H. apply andb_true_iff in H. destruct H as [Hd _].
  unfold starts_with. cbn [app strip_prefix]. now rewrite (digit_not_dash _ Hd).
Qed.

Lemma expand_li (s text : str) (n : nat) :
  expand tmpl_li (mkMobj s [(1, text)] n) = li text.
Proof. unfold tmpl_li, li, tl. cbn [expand m_caps assoc Nat.eqb]. now rewrite app_nil_r. Qed.

(** Lines 111-116: an ordered item opens [<ol>] when no list is open and
    appends the item, which has the text and not the numeral. *)
Lemma list_step_ordered (st : list_st) (digits text : str) :
  digits <> [] -> forallb is_digit digits = true ->
  text <> [] -> forallb dot text = true ->
  list_step st (ordered_line digits text) =
  Some (append (li text) (open_list ol_tag IL_ol st)).
Proof.
  intros Hd Hdig Hne Hdot. unfold list_step, ordered_line.
  unfold re_unchecked at 1.
  rewrite matches_Sos_Lit_only_false by (now apply digits_not_item).
  unfold re_checked at 1.
  rewrite matches_Sos_Lit_only_false by (now apply digits_not_item).
  unfold re_bullet at 1.
  rewrite matches_Sos_Lit_false by (now apply digits_not_item).
  pose proof (match_ordered Hd Hdig Hne Hdot) as Hm.
  unfold matches, re_match. rewrite Hm.
  unfold re_ordered in *.
  pose proof (fun Hv Hn => @re_sub_whole _ tmpl_li _ _ Hv Hn Hm eq_refl) as Hs.
  rewrite Hs.
  - rewrite expand_li. reflexivity.
  - reflexivity.
  - destruct digits; [congruence | discriminate].
Qed.

(** Lines 104-109: a regular item. *)
Lemma list_step_bullet (st : list_st) (text : str) :
  text <> [] -> forallb dot text = true ->
  is_checklist_line (lit "- " ++ text) = false ->
  list_step st (lit "- " ++ text) =
  Some (append (li text) (open_list ul_tag IL_True st)).
Proof.
  intros Hne Hdot Hc. unfold is_checklist_line in Hc.
  apply orb_false_iff in Hc. destruct Hc as [H1 H2].
  unfold list_step. rewrite H1, H2.
  pose proof (match_item (lit "- ") Hne Hdot) as Hm.
  unfold matches, re_match, re_bullet. rewrite Hm.
  pose proof (fun Hv Hn => @re_sub_whole _ tmpl_li _ _ Hv Hn Hm eq_refl) as Hs.
  rewrite Hs.
  - rewrite expand_li. reflexivity.
  - reflexivity.
  - discriminate.
Qed.

(** The lines of a text put together from lines. *)
Lemma split_join : forall lines : list str,
  lines <> [] -> forallb (forallb (not_char NL)) lines = true ->
  split NL (join [NL] lines) = lines.
Proof.
  induction lines as [|l lines IH]; intros Hne H; [congruence|].
  cbn [forallb] in H. apply andb_true_iff in H. destruct H as [Hl Hls].
  destruct lines as [|l' lines'].
  - cbn [join]. now apply split_free.
  - rewrite join_cons. cbn [app]. rewrite split_app by exact Hl.
    f_equal. apply IH; [discriminate | exact Hls].
Qed.
(** * A run of checklist lines and the regular item after it *)





(** * Headings *)

Lemma m_Bol_start (k : pos -> option pos) (s : str) cs :
  m Bol k (mkPos None s cs) = k (mkPos None s cs).
Proof. reflexivity. Qed.

Lemma m_Bol_inside (k : pos -> option pos) (c : ascii) (s : str) cs :
  not_char NL c = true -> m Bol k (mkPos (Some c) s cs) = None.
Proof.
  intros H. cbn [m prev at_bol].
  destruct (Ascii.eqb c NL) eqn:E; [|reflexivity].
  apply Ascii.eqb_eq in E. subst c. discriminate.
Qed.

Lemma m_Bol (k : pos -> option pos) (p : pos) :
  m Bol k p = if at_bol (prev p) then k p else None.
Proof. reflexivity. Qed.

(** In a text of one line a heading pattern can match at the start only. *)
Lemma heading_none (marker : string) (t : template) (s : str) :
  forallb (titem_ok (ngroups (re_heading marker))) t = true ->
  forallb dot s = true -> starts_with (lit marker) s = false ->
  re_sub (re_heading marker) t s = Some s.
Proof.
  intros Hv Hdot Hs. rewrite re_sub_valid by exact Hv.
  apply (@sub_loop_id_inv _ _
           (fun pv w => forallb dot w = true /\
                        match pv with
                        | None => starts_with (lit marker) w = false
                        | Some c => not_char NL c = true
                        end)).
  - intros pv w [_ Hp]. apply match_at_None. unfold re_heading. rewrite m_Seq.
    destruct pv as [c|].
    + now apply m_Bol_inside.
    + rewrite m_Bol_start, m_Seq. now apply m_Lit_fail.
  - intros pv c w [Hd _]. cbn [forallb] in Hd. apply andb_true_iff in Hd.
    destruct Hd as [Hc Hw]. split; [exact Hw | exact Hc].
  - split; assumption.
Qed.

Lemma heading_match (marker : string) (t : template) (text : str) :
  forallb (titem_ok (ngroups (re_heading marker))) t = true ->
  lit marker <> [] -> text <> [] -> forallb dot text = true ->
  re_sub (re_heading marker) t (lit marker ++ text) =
  Some (expand t (mkMobj (lit marker ++ text) [(1, text)] 1)).
Proof.
  intros Hv Hmk Hne Hdot. rewrite re_sub_valid by exact Hv.
  apply sub_loop_whole with (mo := mkMobj (lit marker ++ text) [(1, text)] 1).
  - destruct (lit marker); [congruence | discriminate].
  - pose (p' := mkPos (prev_after text (prev_after (lit marker) None)) [] [(1, text)]).
    assert (H : m (re_heading marker) Some
                  (mkPos None ((lit marker ++ text) ++ []) []) = Some p').
    { rewrite app_nil_r. unfold re_heading.
      rewrite m_Seq, m_Bol_start, m_Seq, m_Lit_app, m_Seq.
      rewrite <- (app_nil_r text) at 1.
      apply m_Grp_Plus_run; try assumption; reflexivity. }
    apply match_at_Some in H. rewrite app_nil_r in H. rewrite H.
    unfold re_heading. cbn [ngroups]. now rewrite ngroups_Lit.
  - reflexivity.
  - intros pv. apply match_at_None. unfold re_heading. rewrite m_Seq.
    rewrite m_Bol. cbn [prev]. destruct (at_bol pv); [|reflexivity].
    rewrite m_Seq. apply m_Lit_fail. cbn [rest].
    destruct (lit marker); [congruence | reflexivity].
  - reflexivity.
Qed.

(** The pattern of [make_id] on the heading that line 58 writes. *)
Lemma match_h2_id (text : str) :
  text <> [] -> forallb (not_char DQ) text = true ->
  forallb (not_char "<") text = true ->
  match_at re_h2_id None
    ((lit "<h2 id=" ++ [DQ]) ++ text ++ ([DQ] ++ lit ">") ++ text ++ lit "</h2>") =
  Some (mkMobj ((lit "<h2 id=" ++ [DQ]) ++ text ++ ([DQ] ++ lit ">") ++ text ++ lit "</h2>")
               [(2, text); (1, text)] 2).
Proof.
  intros Hne Hdq Hlt.
  set (s := (lit "<h2 id=" ++ [DQ]) ++ text ++ ([DQ] ++ lit ">") ++ text ++ lit "</h2>").
  assert (H : exists pv', m re_h2_id Some (mkPos None (s ++ []) []) =
                          Some (mkPos pv' [] [(2, text); (1, text)])).
  { eexists. rewrite app_nil_r. unfold re_h2_id, s.
    rewrite m_Seq, m_Lit_app, m_Seq.
    apply m_Grp_Plus_run; try assumption; [reflexivity|].
    rewrite m_Seq, m_Lit_app, m_Seq.
    apply m_Grp_Plus_run; try assumption; [reflexivity|].
    rewrite <- (app_nil_r (lit "</h2>")) at 2. rewrite m_Lit_app. reflexivity. }
  destruct H as [pv' H].
  apply match_at_Some in H. rewrite app_nil_r in H. exact H.
Qed.

(** A pattern that begins with a literal matches nowhere in a text that
    does not have the literal. *)
Lemma sub_loop_no_occ (p : str) (r : re) (repl : mobj -> option str) (s : str)
    (pv : option ascii) :
  occurs p s = false -> sub_loop (Lit p ;; r) repl 0 pv s = Some s.
Proof.
  intros H.
  apply (@sub_loop_id_inv _ _ (fun _ w => occurs p w = false)).
  - intros pv' w Hw. apply match_at_None. rewrite m_Seq.
    apply m_Lit_fail. cbn [rest]. now apply occurs_head.
  - intros pv' c w Hw. now apply occurs_tail in Hw.
  - exact H.
Qed.

Lemma sub_loop_no_occ_Lit (p : str) (repl : mobj -> option str) (s : str)
    (pv : option ascii) :
  occurs p s = false -> sub_loop (Lit p) repl 0 pv s = Some s.
Proof.
  intros H.
  apply (@sub_loop_id_inv _ _ (fun _ w => occurs p w = false)).
  - intros pv' w Hw. apply match_at_None.
    apply m_Lit_fail. cbn [rest]. now apply occurs_head.
  - intros pv' c w Hw. now apply occurs_tail in Hw.
  - exact H.
Qed.

Lemma make_id_text (s text : str) (cs : list (nat * str)) :
  make_id (mkMobj s ((2, text) :: (1, text) :: cs) 2) =
  Some (lit "<h2 id=" ++ [DQ] ++ id_text_of text ++ [DQ] ++ lit ">" ++ text ++ lit "</h2>").
Proof.
  unfold make_id, group. cbn [m_ngroups m_caps assoc Nat.eqb Nat.leb andb bind].
  rewrite re_sub_id_strip. reflexivity.
Qed.

(** * Fenced blocks *)

Lemma starts_with_long : forall (p x y : str),
  length p <= length x -> starts_with p (x ++ y) = starts_with p x.
Proof.
  unfold starts_with.
  induction p as [|c p IH]; intros x y Hlen; [reflexivity|].
  destruct x as [|d x]; [cbn [length] in Hlen; lia|].
  cbn [app strip_prefix]. destruct (Ascii.eqb c d); [|reflexivity].
  apply IH. cbn [length] in Hlen. lia.
Qed.

Lemma occurs_intro (p : str) : forall (u v : str),
  starts_with p v = true -> occurs p (u ++ v) = true.
Proof.
  induction u as [|c u IH]; intros v H.
  - destruct v; cbn [app occurs]; now rewrite H.
  - cbn [app occurs]. rewrite (IH v H). apply orb_true_r.
Qed.







(** A pattern that begins with a literal does not look at the character
    before the position. *)
Lemma match_at_Lit_prev (c : ascii) (p : str) (r : re) (pv pv' : option ascii) (s : str) :
  match_at (Lit (c :: p) ;; r) pv s = match_at (Lit (c :: p) ;; r) pv' s.
Proof.
  unfold match_at. rewrite !m_Seq, !m_Lit. cbn [prev rest caps].
  rewrite !prev_after_cons. reflexivity.
Qed.

Lemma sub_loop_prev (r : re) (repl : mobj -> option str) :
  (forall pv pv' s, match_at r pv s = match_at r pv' s) ->
  forall (s : str) n pv pv', sub_loop r repl n pv s = sub_loop r repl n pv' s.
Proof.
  intros Hr. induction s as [|c t IH]; intros n pv pv'.
  - destruct n; cbn [sub_loop]; [|reflexivity]. now rewrite (Hr pv pv').
  - destruct n; cbn [sub_loop]; [|reflexivity]. now rewrite (Hr pv pv').
Qed.

Lemma not_char_head (c : ascii) (p a b : str) :
  forallb (not_char c) a = true -> a <> [] ->
  starts_with (c :: p) (a ++ b) = false.
Proof.
  intros H Hne. destruct a as [|d a]; [congruence|].
  cbn [forallb] in H. apply andb_true_iff in H. destruct H as [Hd _].
  unfold starts_with. cbn [app strip_prefix].
  unfold not_char in Hd. apply negb_true_iff in Hd. now rewrite Hd.
Qed.



(** Where two texts with the same character after a prefix free of it
    are equal, the second prefix is the longer one. *)
Lemma free_prefix_shorter (c : ascii) : forall (pre a x y : str),
  forallb (not_char c) pre = true ->
  pre ++ c :: x = a ++ c :: y -> exists z, c :: x = z ++ c :: y.
Proof.
  induction pre as [|d pre IH]; intros a x y Hpre E.
  - exists a. exact E.
  - cbn [forallb] in Hpre. apply andb_true_iff in Hpre. destruct Hpre as [Hd Hpre].
    destruct a as [|e a].
    + cbn [app] in E. injection E as E1 _. subst d.
      unfold not_char in Hd. now rewrite Ascii.eqb_refl in Hd.
    + cbn [app] in E. injection E as _ E. now apply (IH a x y Hpre).
Qed.



(** * Text without markup *)

Lemma needs_Lit (p : str) : needs p (Lit p).
Proof. intros k q H. now apply m_Lit_fail. Qed.

Lemma needs_Seq (p : str) (r1 r2 : re) : needs p r1 -> needs p (r1 ;; r2).
Proof. intros H k q Hq. rewrite m_Seq. now apply H. Qed.

Lemma needs_Grp (p : str) (n : nat) (r : re) : needs p r -> needs p (Grp n r).
Proof. intros H k q Hq. rewrite m_Grp. now apply H. Qed.

Lemma sub_loop_needs (p : str) (r : re) (repl : mobj -> option str) (s : str)
    (pv : option ascii) :
  needs p r -> occurs p s = false -> sub_loop r repl 0 pv s = Some s.
Proof.
  intros Hr H.
  apply (@sub_loop_id_inv _ _ (fun _ w => occurs p w = false)).
  - intros pv' w Hw. apply match_at_None. apply Hr. cbn [rest]. now apply occurs_head.
  - intros pv' c w Hw. now apply occurs_tail in Hw.
  - exact H.
Qed.

Lemma re_sub_needs (p : str) (r : re) (t : template) (s : str) :
  forallb (titem_ok (ngroups r)) t = true ->
  needs p r -> occurs p s = false -> re_sub r t s = Some s.
Proof.
  intros Hv Hr H. rewrite re_sub_valid by exact Hv. now apply sub_loop_needs with (p := p).
Qed.

(** A text without the character [c] has no literal that begins with it. *)
Lemma occurs_absent (c : ascii) (p s : str) :
  forallb (not_char c) s = true -> occurs (c :: p) s = false.
Proof.
  intros H. rewrite <- (app_nil_r s). rewrite occurs_free by exact H. reflexivity.
Qed.

Lemma forallb_impl {A : Type} (f g : A -> bool) (l : list A) :
  (forall x, f x = true -> g x = true) -> forallb f l = true -> forallb g l = true.
Proof.
  intros Hfg H. apply forallb_forall. intros x Hx.
  apply Hfg. now apply (proj1 (forallb_forall f l) H).
Qed.

Lemma plain_char_not (c d : ascii) :
  plain_char d = false -> plain_char c = true -> not_char d c = true.
Proof.
  intros Hd Hc. unfold not_char. destruct (Ascii.eqb d c) eqn:E; [|reflexivity].
  apply Ascii.eqb_eq in E. subst d. congruence.
Qed.

Lemma plain_not (d : ascii) (s : str) :
  plain_char d = false -> forallb plain_char s = true -> forallb (not_char d) s = true.
Proof. intros Hd. apply forallb_impl. intros c. now apply plain_char_not. Qed.

Lemma plain_char_ascii (s : str) :
  forallb plain_char s = true -> forallb is_ascii s = true.
Proof.
  apply forallb_impl. intros c H. unfold plain_char in H.
  apply andb_true_iff in H. tauto.
Qed.

(** ** Lines that begin no block *)

Lemma eqb_NL_sym (c : ascii) : Ascii.eqb NL c = Ascii.eqb c NL.
Proof.
  destruct (Ascii.eqb c NL) eqn:E.
  - apply Ascii.eqb_eq in E. subst c. reflexivity.
  - destruct (Ascii.eqb NL c) eqn:E'; [|reflexivity].
    apply Ascii.eqb_eq in E'. subst c. discriminate.
Qed.

Lemma line_starts_split : forall (s : str) (b : bool),
  line_starts_ok b s = true ->
  exists l ls, split NL s = l :: ls /\
               (b = true -> line_ok l = true) /\ forallb line_ok ls = true.
Proof.
  induction s as [|c t IH]; intros b H.
  - exists [], []. repeat split; reflexivity.
  - cbn [line_starts_ok] in H. apply andb_true_iff in H. destruct H as [Hc Ht].
    destruct (IH _ Ht) as (l & ls & Hs & Hl & Hls).
    rewrite split_cons, eqb_NL_sym, Hs.
    destruct (Ascii.eqb c NL) eqn:E.
    + exists [], (l :: ls). split; [reflexivity|]. split; [reflexivity|].
      cbn [forallb]. now rewrite (Hl eq_refl), Hls.
    + exists (c :: l), ls. split; [reflexivity|]. split; [|exact Hls].
      intros ->. cbn [line_ok]. cbn [andb] in Hc. exact Hc.
Qed.

Lemma lines_ok (s : str) :
  line_starts_ok true s = true -> forallb line_ok (split NL s) = true.
Proof.
  intros H. destruct (@line_starts_split s true H) as (l & ls & -> & Hl & Hls).
  cbn [forallb]. now rewrite (Hl eq_refl), Hls.
Qed.

Lemma not_block_start (c : ascii) :
  block_start c = false ->
  Ascii.eqb "#" c = false /\ Ascii.eqb "-" c = false /\ is_digit c = false.
Proof.
  unfold block_start, is_char. intros H.
  apply orb_false_iff in H. destruct H as [H H3].
  apply orb_false_iff in H. tauto.
Qed.

Lemma line_ok_head (c : ascii) (p : str) (line : str) :
  block_start c = true -> line_ok line = true -> starts_with (c :: p) line = false.
Proof.
  intros Hc Hl. destruct line as [|d line]; [reflexivity|].
  cbn [line_ok] in Hl. apply negb_true_iff in Hl.
  unfold starts_with. cbn [strip_prefix].
  destruct (Ascii.eqb c d) eqn:E; [|reflexivity].
  apply Ascii.eqb_eq in E. subst d. congruence.
Qed.

(** Lines 117-121 with no list open: the line is passed through. *)
Lemma list_step_other (result : list str) (line : str) :
  line_ok line = true ->
  list_step (IL_False, result) line = Some (IL_False, result ++ [line]).
Proof.
  intros Hl. unfold list_step.
  unfold re_unchecked at 1.
  rewrite matches_Sos_Lit_only_false by (now apply line_ok_head).
  unfold re_checked at 1.
  rewrite matches_Sos_Lit_only_false by (now apply line_ok_head).
  unfold re_bullet at 1.
  rewrite matches_Sos_Lit_false by (now apply line_ok_head).
  assert (Ho : matches re_ordered line = false).
  { unfold matches, re_match, match_at, re_ordered.
    rewrite m_Seq, m_Sos, m_Seq, m_Plus_Chr.
    destruct line as [|d line]; [reflexivity|].
    cbn [line_ok] in Hl. apply negb_true_iff, not_block_start in Hl.
    destruct Hl as (_ & _ & ->). reflexivity. }
  rewrite Ho. reflexivity.
Qed.

Lemma for_each_other : forall (lines result : list str),
  forallb line_ok lines = true ->
  for_each list_step (IL_False, result) lines = Some (IL_False, result ++ lines).
Proof.
  induction lines as [|l lines IH]; intros result H.
  - cbn [for_each]. now rewrite app_nil_r.
  - cbn [forallb] in H. apply andb_true_iff in H. destruct H as [Hl Hls].
    cbn [for_each]. rewrite (@list_step_other result l Hl). cbn [bind].
    rewrite (IH _ Hls), <- app_assoc. reflexivity.
Qed.

Lemma lists_pass_plain (s : str) :
  line_starts_ok true s = true -> lists_pass s = Some s.
Proof.
  intros H. unfold lists_pass, list_lines.
  rewrite for_each_other by (now apply lines_ok).
  cbn [bind truth app]. now rewrite join_split.
Qed.

(** ** The passes on a text without markup *)

Lemma heading_plain_text (marker : string) (p : str) (t : template) (s : str) :
  forallb (titem_ok (ngroups (re_heading marker))) t = true ->
  lit marker = "#"%char :: p ->
  line_starts_ok true s = true ->
  re_sub (re_heading marker) t s = Some s.
Proof.
  intros Hv Hmk Hs. rewrite re_sub_valid by exact Hv.
  apply (@sub_loop_id_inv _ _ (fun pv w => line_starts_ok (at_bol pv) w = true)).
  - intros pv w Hw. apply match_at_None. unfold re_heading.
    rewrite m_Seq, m_Bol. cbn [prev]. destruct (at_bol pv); [|reflexivity].
    rewrite m_Seq. apply m_Lit_fail. cbn [rest]. rewrite Hmk.
    destruct w as [|c w]; [reflexivity|].
    cbn [line_starts_ok andb] in Hw. apply andb_true_iff in Hw. destruct Hw as [Hc _].
    apply negb_true_iff, not_block_start in Hc. destruct Hc as (Hc & _).
    unfold starts_with. cbn [strip_prefix]. now rewrite Hc.
  - intros pv c w Hw. cbn [line_starts_ok] in Hw.
    apply andb_true_iff in Hw. destruct Hw as [_ Hw]. exact Hw.
  - exact Hs.
Qed.

Lemma headers_pass_plain (s : str) :
  forallb plain_char s = true -> line_starts_ok true s = true ->
  headers_pass s = Some s.
Proof.
  intros Hp Hl. unfold headers_pass, re_h1, re_h2, re_h3, re_h4.
  rewrite (@heading_plain_text "# " (lit " ") tmpl_h1 s eq_refl eq_refl Hl). cbn [bind].
  rewrite (@heading_plain_text "## " (lit "# ") tmpl_h2 s eq_refl eq_refl Hl). cbn [bind].
  rewrite (@heading_plain_text "### " (lit "## ") tmpl_h3 s eq_refl eq_refl Hl). cbn [bind].
  rewrite (@heading_plain_text "#### " (lit "### ") tmpl_h4 s eq_refl eq_refl Hl). cbn [bind].
  unfold re_sub_fn, re_h2_id. apply sub_loop_no_occ.
  apply (@occurs_absent "<" (lit "h2 id=" ++ [DQ])).
  now apply plain_not.
Qed.

Lemma re_sub_absent (c : ascii) (p : str) (r : re) (t : template) (s : str) :
  forallb (titem_ok (ngroups (Lit (c :: p) ;; r))) t = true ->
  forallb plain_char s = true -> plain_char c = false ->
  re_sub (Lit (c :: p) ;; r) t s = Some s.
Proof.
  intros Hv Hs Hc. rewrite re_sub_valid by exact Hv.
  apply sub_loop_no_occ. apply occurs_absent. now apply plain_not.
Qed.

Lemma code_block_pass_plain (s : str) :
  forallb plain_char s = true -> code_block_pass s = Some s.
Proof.
  intros Hp. unfold code_block_pass, re_code_block.
  apply (@re_sub_absent "`" (lit "``")); try exact Hp; reflexivity.
Qed.

Lemma inline_pass_plain (s : str) :
  forallb plain_char s = true -> inline_pass s = Some s.
Proof.
  intros Hp. unfold inline_pass.
  unfold re_inline_code.
  rewrite (@re_sub_absent "`" [] _ tmpl_inline_code s) by (try exact Hp; reflexivity).
  cbn [bind].
  unfold re_bold.
  rewrite (@re_sub_absent "*" (lit "*") _ tmpl_bold s) by (try exact Hp; reflexivity).
  cbn [bind].
  unfold re_italic.
  rewrite (@re_sub_absent "*" [] _ tmpl_italic s) by (try exact Hp; reflexivity).
  cbn [bind].
  unfold re_link.
  apply (@re_sub_absent "[" []); try exact Hp; reflexivity.
Qed.

(** Line 129 on a text without a blank line. *)
Lemma paragraphs_pass_plain (s : str) :
  occurs [NL; NL] s = false ->
  paragraphs_pass s = Some (lit "<p>" ++ s ++ lit "</p>").
Proof.
  intros H. unfold paragraphs_pass.
  rewrite re_sub_valid by reflexivity.
  rewrite (@sub_loop_id_inv _ _ (fun _ w => occurs [NL; NL] w = false)).
  - reflexivity.
  - intros pv w Hw. apply match_at_None. unfold re_blank_lines.
    rewrite m_Seq, m_Chr. destruct w as [|c w]; [reflexivity|].
    destruct (is_char NL c) eqn:Ec; [|reflexivity].
    rewrite m_Plus_Chr. destruct w as [|d w]; [reflexivity|].
    destruct (is_char NL d) eqn:Ed; [|reflexivity].
    apply occurs_head in Hw. unfold starts_with in Hw. cbn [strip_prefix] in Hw.
    unfold is_char in Ec, Ed. rewrite Ec, Ed in Hw. discriminate.
  - intros pv c w Hw. now apply occurs_tail in Hw.
  - exact H.
Qed.

(** Lines 182-183 on a text without [|]. *)
Lemma tables_pass_plain (s : str) :
  forallb (not_char "|") s = true -> tables_pass s = Some s.
Proof.
  intros H. unfold tables_pass, re_sub_fn.
  apply (@sub_loop_id_inv _ _ (fun _ w => forallb (not_char "|") w = true)).
  - intros pv w Hw. apply match_at_None. unfold table_pattern.
    rewrite m_Seq, m_Chr. destruct w as [|c w]; [reflexivity|].
    destruct (is_char NL c); [|reflexivity].
    unfold Plus. rewrite m_Seq, m_Grp. unfold re_table_row. rewrite m_Seq, m_Chr.
    destruct w as [|d w]; [reflexivity|].
    cbn [forallb] in Hw. apply andb_true_iff in Hw. destruct Hw as [_ Hw].
    apply andb_true_iff in Hw. destruct Hw as [Hd _].
    unfold not_char in Hd. apply negb_true_iff in Hd.
    unfold is_char. now rewrite Hd.
  - intros pv c w Hw. cbn [forallb] in Hw. apply andb_true_iff in Hw. tauto.
  - exact H.
Qed.

(** Lines 144-147 on ASCII text: the glyphs begin with a byte that is not
    ASCII. *)
Lemma ascii_not (g : ascii) (s : str) :
  is_ascii g = false -> forallb is_ascii s = true -> forallb (not_char g) s = true.
Proof.
  intros Hg. apply forallb_impl. intros c Hc. unfold not_char.
  destruct (Ascii.eqb g c) eqn:E; [|reflexivity].
  apply Ascii.eqb_eq in E. subst g. congruence.
Qed.

Lemma badge_none (glyph : str) (g : ascii) (gs : str) (t : template) (s : str) :
  glyph = g :: gs ->
  forallb (titem_ok (ngroups (Lit glyph))) t = true ->
  is_ascii g = false -> forallb is_ascii s = true ->
  re_sub (Lit glyph) t s = Some s.
Proof.
  intros -> Hv Hg Hs. rewrite re_sub_valid by exact Hv.
  apply sub_loop_no_occ_Lit. apply occurs_absent. now apply ascii_not.
Qed.

Lemma badges_pass_ascii (s : str) :
  forallb is_ascii s = true -> badges_pass s = Some s.
Proof.
  intros H. unfold badges_pass.
  rewrite (@badge_none glyph_success (ascii_of_nat 226) (bytes [156; 133])
             (tmpl_badge "badge-success" glyph_success) s eq_refl eq_refl eq_refl H).
  cbn [bind].
  rewrite (@badge_none glyph_danger (ascii_of_nat 226) (bytes [157; 140])
             (tmpl_badge "badge-danger" glyph_danger) s eq_refl eq_refl eq_refl H).
  cbn [bind].
  rewrite (@badge_none glyph_warning (ascii_of_nat 226) (bytes [154; 160; 239; 184; 143])
             (tmpl_badge "badge-warning" glyph_warning) s eq_refl eq_refl eq_refl H).
  cbn [bind].
  apply (@badge_none glyph_info (ascii_of_nat 240) (bytes [159; 148; 132])
           (tmpl_badge "badge-info" glyph_info) s eq_refl eq_refl eq_refl H).
Qed.

(** ** The cleanup of lines 133-141 on a paragraph of plain text *)

Lemma after_spaces_Lit (p : str) : after_spaces p (spaces ;; Lit p).
Proof.
  intros k q p' H. unfold spaces in H. rewrite m_Seq, m_Star_Chr in H.
  apply greedy_inv in H. destruct H as (a & b & E & Ha & H).
  exists a, b. repeat split; try assumption.
  rewrite m_Lit in H. cbn [rest] in H. unfold starts_with.
  destruct (strip_prefix p b); [reflexivity | discriminate].
Qed.

Lemma after_spaces_Lit_more (p : str) (r : re) : after_spaces p (spaces ;; Lit p ;; r).
Proof.
  intros k q p' H. unfold spaces in H. rewrite m_Seq, m_Star_Chr in H.
  apply greedy_inv in H. destruct H as (a & b & E & Ha & H).
  exists a, b. repeat split; try assumption.
  rewrite m_Seq, m_Lit in H. cbn [rest] in H. unfold starts_with.
  destruct (strip_prefix p b); [reflexivity | discriminate].
Qed.

Lemma after_spaces_Grp (p : str) (n : nat) (r : re) :
  after_spaces p r -> after_spaces p (Grp n r).
Proof. intros Hr k q p' H. rewrite m_Grp in H. now apply Hr in H. Qed.

(** After whitespace at the start of a text that is not all whitespace
    comes a character of the text. *)
Lemma space_prefix : forall (s t a b : str),
  existsb (fun c => negb (is_space c)) s = true ->
  forallb is_space a = true -> s ++ t = a ++ b ->
  exists c b', b = c :: b' /\ In c s.
Proof.
  induction s as [|c s IH]; intros t a b Hs Ha E; [discriminate|].
  destruct a as [|d a].
  - exists c, (s ++ t). split; [symmetry; exact E | now left].
  - cbn [app] in E. injection E as <- E.
    cbn [forallb] in Ha. apply andb_true_iff in Ha. destruct Ha as [Hd Ha].
    cbn [existsb] in Hs. rewrite Hd in Hs. cbn [negb orb] in Hs.
    destruct (IH t a b Hs Ha E) as (x & b' & Hb & Hin).
    exists x, b'. split; [exact Hb | now right].
Qed.

Lemma no_par_inside (s : str) :
  forallb (not_char "<") s = true ->
  occurs (lit "<p>") (lit "p>" ++ s ++ lit "</p>") = false.
Proof.
  intros Hs. cbn [lit list_ascii_of_string app].
  rewrite !occurs_step by reflexivity.
  rewrite occurs_free by exact Hs.
  rewrite !occurs_step by reflexivity. reflexivity.
Qed.

(** [<p>\s*<...] does not match the paragraph of a text that has
    something besides whitespace and no [<]. *)
Lemma re_sub_p_open (x p : str) (r : re) (t : template) (s : str) :
  forallb (titem_ok (ngroups (Lit (lit "<p>") ;; r))) t = true ->
  after_spaces x r -> x = "<"%char :: p ->
  forallb (not_char "<") s = true ->
  existsb (fun c => negb (is_space c)) s = true ->
  re_sub (Lit (lit "<p>") ;; r) t (par s) = Some (par s).
Proof.
  intros Hv Hr -> Hlt Hns. rewrite re_sub_valid by exact Hv.
  assert (Hm : match_at (Lit (lit "<p>") ;; r) None (par s) = None).
  { apply match_at_None. unfold par. rewrite m_Seq, m_Lit_app.
    destruct (m r Some _) as [p'|] eqn:H; [|reflexivity]. exfalso.
    apply Hr in H. cbn [rest] in H. destruct H as (a & b & E & Ha & Hb).
    destruct (@space_prefix s (lit "</p>") a b Hns Ha E) as (c & b' & -> & Hin).
    unfold starts_with in Hb. cbn [strip_prefix] in Hb.
    pose proof (proj1 (forallb_forall _ _) Hlt c Hin) as Hc.
    unfold not_char in Hc. apply negb_true_iff in Hc. rewrite Hc in Hb. discriminate. }
  unfold par in *.
  change (lit "<p>" ++ s ++ lit "</p>") with ("<"%char :: lit "p>" ++ s ++ lit "</p>") in *.
  cbn [sub_loop]. rewrite Hm.
  rewrite sub_loop_no_occ by (now apply no_par_inside). reflexivity.
Qed.

Lemma no_close_in_par (p : str) (s : str) :
  forallb (not_char "<") s = true ->
  starts_with ("<"%char :: "/"%char :: p) (lit "</p>") = false ->
  occurs ("<"%char :: "/"%char :: p) (par s) = false.
Proof.
  intros Hs Hp. unfold par. cbn [lit list_ascii_of_string app].
  rewrite !occurs_step by reflexivity.
  rewrite occurs_free by exact Hs.
  cbn [lit list_ascii_of_string] in Hp.
  rewrite occurs_step by exact Hp.
  rewrite !occurs_step by reflexivity. reflexivity.
Qed.

Lemma cleanup_pass_plain (s : str) :
  forallb (not_char "<") s = true ->
  existsb (fun c => negb (is_space c)) s = true ->
  cleanup_pass (par s) = Some (par s).
Proof.
  intros Hlt Hns. unfold cleanup_pass.
  unfold re_empty_par, re_p_heading, re_heading_p, re_p_open, re_close_p.
  rewrite re_sub_p_open with (x := lit "</p>") (p := lit "/p>");
    [ | reflexivity | apply after_spaces_Lit | reflexivity | exact Hlt | exact Hns ].
  cbn [bind].
  rewrite re_sub_p_open with (x := lit "<h") (p := lit "h");
    [ | reflexivity | apply after_spaces_Grp, after_spaces_Lit_more
      | reflexivity | exact Hlt | exact Hns ].
  cbn [bind].
  rewrite re_sub_needs with (p := lit "</h");
    [ | reflexivity | apply needs_Seq, needs_Grp, needs_Seq, needs_Lit
      | now apply (@no_close_in_par (lit "h")) ].
  cbn [bind].
  rewrite re_sub_p_open with (x := lit "<pre") (p := lit "pre");
    [ | reflexivity | apply after_spaces_Grp, after_spaces_Lit
      | reflexivity | exact Hlt | exact Hns ].
  cbn [bind].
  rewrite re_sub_needs with (p := lit "</pre>");
    [ | reflexivity | apply needs_Seq, needs_Grp, needs_Lit
      | now apply (@no_close_in_par (lit "pre>")) ].
  cbn [bind].
  rewrite re_sub_p_open with (x := lit "<ul") (p := lit "ul");
    [ | reflexivity | apply after_spaces_Grp, after_spaces_Lit
      | reflexivity | exact Hlt | exact Hns ].
  cbn [bind].
  rewrite re_sub_needs with (p := lit "</ul>");
    [ | reflexivity | apply needs_Seq, needs_Grp, needs_Lit
      | now apply (@no_close_in_par (lit "ul>")) ].
  cbn [bind].
  rewrite re_sub_p_open with (x := lit "<ol") (p := lit "ol");
    [ | reflexivity | apply after_spaces_Grp, after_spaces_Lit
      | reflexivity | exact Hlt | exact Hns ].
  cbn [bind].
  rewrite re_sub_needs with (p := lit "</ol>");
    [ | reflexivity | apply needs_Seq, needs_Grp, needs_Lit
      | now apply (@no_close_in_par (lit "ol>")) ].
  reflexivity.
Qed.
(** * Helper lemmas on items and headings *)


Lemma digit_not_NL (d : ascii) : is_digit d = true -> not_char NL d = true.
Proof.
  intros H. unfold not_char. destruct (Ascii.eqb NL d) eqn:E; [|reflexivity].
  apply Ascii.eqb_eq in E. subst d. discriminate.
Qed.

Lemma ordered_line_no_NL (digits text : str) :
  forallb is_digit digits = true -> forallb dot text = true ->
  forallb (not_char NL) (ordered_line digits text) = true.
Proof.
  intros Hd Ht. unfold ordered_line. rewrite !forallb_app.
  change (forallb (not_char NL) text = true) in Ht.
  rewrite Ht. change (forallb (not_char NL) (lit ". ")) with true.
  cbn [andb]. rewrite andb_true_r.
  apply forallb_forall. intros d Hin.
  apply digit_not_NL. now apply (proj1 (forallb_forall _ _) Hd).
Qed.

Lemma list_lines_ordered_numeral (n1 n2 text : str) (before after : list str) :
  n1 <> [] -> forallb is_digit n1 = true ->
  n2 <> [] -> forallb is_digit n2 = true ->
  text <> [] -> forallb dot text = true ->
  list_lines (before ++ ordered_line n1 text :: after) =
  list_lines (before ++ ordered_line n2 text :: after).
Proof.
  intros H1 D1 H2 D2 Ht Hdot. unfold list_lines.
  rewrite !for_each_app.
  destruct (for_each list_step (IL_False, []) before) as [st|]; [|reflexivity].
  cbn [bind for_each].
  now rewrite (list_step_ordered st H1 D1 Ht Hdot), (list_step_ordered st H2 D2 Ht Hdot).
Qed.


(** The heading of level 1, 3 or 4 that lines 57, 59 and 60 write has no
    [<h2 id=] for [make_id] to rewrite. *)
Lemma no_h2_in_heading (n : ascii) (text : str) :
  In n ["1"; "3"; "4"]%char -> forallb (not_char "<") text = true ->
  occurs (lit "<h2 id=" ++ [DQ])
         (["<"; "h"; n; ">"]%char ++ text ++ ["<"; "/"; "h"; n; ">"]%char) = false.
Proof.
  intros Hn Ht.
  change (lit "<h2 id=" ++ [DQ]) with ("<"%char :: lit "h2 id=" ++ [DQ]).
  cbn [app].
  destruct Hn as [<- | [<- | [<- | []]]];
    rewrite !occurs_step by reflexivity;
    rewrite occurs_free by exact Ht;
    rewrite !occurs_step by reflexivity; reflexivity.
Qed.

Lemma heading_plain (marker : string) (n : ascii) (t : template) (text : str) :
  forallb (titem_ok (ngroups (re_heading marker))) t = true ->
  lit marker <> [] ->
  (forall s, expand t (mkMobj s [(1, text)] 1) =
             ["<"; "h"; n; ">"]%char ++ text ++ ["<"; "/"; "h"; n; ">"]%char) ->
  text <> [] -> forallb dot text = true ->
  re_sub (re_heading marker) t (lit marker ++ text) =
  Some (["<"; "h"; n; ">"]%char ++ text ++ ["<"; "/"; "h"; n; ">"]%char).
Proof.
  intros Hv Hmk He Hne Hdot. rewrite heading_match by assumption. now rewrite He.
Qed.


(** * Runs of list items *)

Lemma truthy_ne (s : str) : truthy s = true -> s <> [].
Proof. destruct s; discriminate. Qed.

Lemma item_text_ok (text : str) :
  item_text text = true -> text <> [] /\ forallb dot text = true.
Proof.
  unfold item_text. intros H. apply andb_true_iff in H. destruct H as [H1 H2].
  split; [now apply truthy_ne | exact H2].
Qed.

(** The loop only appends to [result]. *)
Lemma open_list_prepend (r0 : list str) (tag : str) (v : in_list_t) (st : list_st) :
  open_list tag v (prepend r0 st) = prepend r0 (open_list tag v st).
Proof.
  destruct st as [il res]. unfold prepend, open_list. cbn [fst snd].
  destruct (negb (truth il)); cbn [fst snd]; [now rewrite app_assoc | reflexivity].
Qed.

Lemma append_prepend (r0 : list str) (x : str) (st : list_st) :
  append x (prepend r0 st) = prepend r0 (append x st).
Proof.
  destruct st as [il res]. unfold prepend, append. cbn [fst snd]. now rewrite app_assoc.
Qed.

Lemma list_step_prepend (r0 : list str) (st : list_st) (line : str) :
  list_step (prepend r0 st) line = option_map (prepend r0) (list_step st line).
Proof.
  unfold list_step.
  destruct (matches re_unchecked line).
  { rewrite open_list_prepend. destruct (re_sub _ _ line); cbn [bind option_map];
      [now rewrite append_prepend | reflexivity]. }
  destruct (matches re_checked line).
  { rewrite open_list_prepend. destruct (re_sub _ _ line); cbn [bind option_map];
      [now rewrite append_prepend | reflexivity]. }
  destruct (matches re_bullet line).
  { rewrite open_list_prepend. destruct (re_sub _ _ line); cbn [bind option_map];
      [now rewrite append_prepend | reflexivity]. }
  destruct (matches re_ordered line).
  { rewrite open_list_prepend. destruct (re_sub _ _ line); cbn [bind option_map];
      [now rewrite append_prepend | reflexivity]. }
  destruct st as [il res]. unfold prepend at 1. cbn [fst snd option_map]. f_equal.
  destruct (truth il); unfold append, prepend; cbn [fst snd]; now rewrite <- !app_assoc.
Qed.

Lemma for_each_prepend (r0 : list str) : forall (lines : list str) (st : list_st),
  for_each list_step (prepend r0 st) lines =
  option_map (prepend r0) (for_each list_step st lines).
Proof.
  induction lines as [|l lines IH]; intros st; cbn [for_each]; [reflexivity|].
  rewrite list_step_prepend.
  destruct (list_step st l) as [st'|]; cbn [option_map bind]; [apply IH | reflexivity].
Qed.

(** Where the loop has no list open after the lines [done], the lines
    after them are handled as a text of their own. *)
Lemma list_lines_restart (done more : list str) (r0 : list str) :
  for_each list_step (IL_False, []) done = Some (IL_False, r0) ->
  list_lines (done ++ more) = (r <- list_lines more ;; Some (r0 ++ r)).
Proof.
  intros H. unfold list_lines. rewrite for_each_app, H. cbn [bind].
  replace (IL_False, r0) with (prepend r0 (IL_False, []))
    by (unfold prepend; cbn [fst snd]; now rewrite app_nil_r).
  rewrite for_each_prepend.
  destruct (for_each list_step (IL_False, []) more) as [[il res]|];
    cbn [option_map bind prepend fst snd]; [|reflexivity].
  destruct (truth il); [now rewrite app_assoc | reflexivity].
Qed.

(** Lines 117-121. *)
Lemma list_step_is_other (il : in_list_t) (result : list str) (line : str) :
  is_other line = true ->
  list_step (il, result) line =
  Some (IL_False, (if truth il then result ++ [closing_tag il] else result) ++ [line]).
Proof.
  unfold is_other. intros H.
  apply andb_true_iff in H. destruct H as [H H4].
  apply andb_true_iff in H. destruct H as [H H3].
  apply andb_true_iff in H. destruct H as [H1 H2].
  apply negb_true_iff in H1, H2, H3, H4.
  unfold list_step. rewrite H1, H2, H3, H4.
  destruct il; reflexivity.
Qed.

Lemma bullet_text_ok (text : str) :
  bullet_text text = true ->
  text <> [] /\ forallb dot text = true /\ is_checklist_line (lit "- " ++ text) = false.
Proof.
  unfold bullet_text, bullet_line. intros H. apply andb_true_iff in H.
  destruct H as [H1 H2]. apply item_text_ok in H1. apply negb_true_iff in H2. tauto.
Qed.

Lemma bullets_open : forall (texts : list str) (result : list str),
  forallb bullet_text texts = true ->
  for_each list_step (IL_True, result) (map bullet_line texts) =
  Some (IL_True, result ++ map li texts).
Proof.
  induction texts as [|t texts IH]; intros result H.
  - cbn. now rewrite app_nil_r.
  - cbn [forallb] in H. apply andb_true_iff in H. destruct H as [Ht Hts].
    apply bullet_text_ok in Ht. destruct Ht as (Hne & Hdot & Hc).
    cbn [map for_each]. unfold bullet_line at 1.
    rewrite (list_step_bullet (IL_True, result) Hne Hdot Hc).
    cbn [bind open_list append truth negb].
    rewrite (IH _ Hts), <- app_assoc. reflexivity.
Qed.

Lemma bullets_run (texts : list str) :
  texts <> [] -> forallb bullet_text texts = true ->
  for_each list_step (IL_False, []) (map bullet_line texts) =
  Some (IL_True, ul_tag :: map li texts).
Proof.
  intros Hne H. destruct texts as [|t texts]; [congruence|].
  cbn [forallb] in H. apply andb_true_iff in H. destruct H as [Ht Hts].
  apply bullet_text_ok in Ht. destruct Ht as (Hn & Hdot & Hc).
  cbn [map for_each]. unfold bullet_line at 1.
  rewrite (list_step_bullet (IL_False, []) Hn Hdot Hc).
  cbn [bind open_list append truth negb app].
  now rewrite (bullets_open texts _ Hts).
Qed.

Lemma ordered_item_ok (it : str * str) :
  ordered_item it = true ->
  fst it <> [] /\ forallb is_digit (fst it) = true /\
  snd it <> [] /\ forallb dot (snd it) = true.
Proof.
  unfold ordered_item, numeral. intros H. apply andb_true_iff in H.
  destruct H as [H1 H2]. apply item_text_ok in H2.
  apply andb_true_iff in H1. destruct H1 as [H1 H1'].
  apply truthy_ne in H1. tauto.
Qed.

Lemma ordered_open : forall (items : list (str * str)) (il : in_list_t) (result : list str),
  truth il = true ->
  forallb ordered_item items = true ->
  for_each list_step (il, result)
    (map (fun it => ordered_line (fst it) (snd it)) items) =
  Some (il, result ++ map (fun it => li (snd it)) items).
Proof.
  induction items as [|it items IH]; intros il result Hil H.
  - cbn. now rewrite app_nil_r.
  - cbn [forallb] in H. apply andb_true_iff in H. destruct H as [Hi His].
    apply ordered_item_ok in Hi. destruct Hi as (Hn & Hd & Ht & Hdot).
    cbn [map for_each].
    rewrite (list_step_ordered (il, result) Hn Hd Ht Hdot).
    destruct il; [discriminate | |];
      cbn [bind open_list append truth negb];
      rewrite (IH _ _ Hil His), <- app_assoc; reflexivity.
Qed.

Lemma ordered_run (items : list (str * str)) :
  items <> [] -> forallb ordered_item items = true ->
  for_each list_step (IL_False, [])
    (map (fun it => ordered_line (fst it) (snd it)) items) =
  Some (IL_ol, ol_tag :: map (fun it => li (snd it)) items).
Proof.
  intros Hne H. destruct items as [|it items]; [congruence|].
  cbn [forallb] in H. apply andb_true_iff in H. destruct H as [Hi His].
  apply ordered_item_ok in Hi. destruct Hi as (Hn & Hd & Ht & Hdot).
  cbn [map for_each].
  rewrite (list_step_ordered (IL_False, []) Hn Hd Ht Hdot).
  cbn [bind open_list append truth negb app].
  now rewrite (ordered_open items IL_ol _ eq_refl His).
Qed.

Lemma bullets_open_any : forall (texts : list str) (il : in_list_t) (result : list str),
  truth il = true -> forallb bullet_text texts = true ->
  for_each list_step (il, result) (map bullet_line texts) =
  Some (il, result ++ map li texts).
Proof.
  induction texts as [|t texts IH]; intros il result Hil H.
  - cbn. now rewrite app_nil_r.
  - cbn [forallb] in H. apply andb_true_iff in H. destruct H as [Ht Hts].
    apply bullet_text_ok in Ht. destruct Ht as (Hne & Hdot & Hc).
    cbn [map for_each]. unfold bullet_line at 1.
    rewrite (list_step_bullet (il, result) Hne Hdot Hc).
    destruct il; [discriminate | |];
      cbn [bind open_list append truth negb];
      rewrite (IH _ _ Hil Hts), <- app_assoc; reflexivity.
Qed.

Lemma for_each_is_other : forall (lines result : list str),
  forallb is_other lines = true ->
  for_each list_step (IL_False, result) lines = Some (IL_False, result ++ lines).
Proof.
  induction lines as [|l lines IH]; intros result H.
  - cbn [for_each]. now rewrite app_nil_r.
  - cbn [forallb] in H. apply andb_true_iff in H. destruct H as [Hl Hls].
    cbn [for_each]. rewrite (list_step_is_other IL_False result l Hl).
    cbn [bind truth]. rewrite (IH _ Hls), <- app_assoc. reflexivity.
Qed.

(** * Substitutions that work line by line *)

Lemma stops_dot_eol (tail : str) : stops dot tail = true -> at_eol tail = true.
Proof.
  destruct tail as [|c tail]; [reflexivity|]. cbn [stops at_eol].
  unfold dot, not_char. rewrite negb_involutive, eqb_NL_sym. tauto.
Qed.

(** A literal without newline does not reach over the end of a line. *)
Lemma strip_prefix_line : forall (p l tail : str),
  forallb dot p = true -> stops dot tail = true ->
  strip_prefix p l = None -> strip_prefix p (l ++ tail) = None.
Proof.
  induction p as [|a p IH]; intros l tail Hp Ht H; [discriminate|].
  cbn [forallb] in Hp. apply andb_true_iff in Hp. destruct Hp as [Ha Hp].
  destruct l as [|c l].
  - cbn [app]. destruct tail as [|d tail]; [reflexivity|].
    cbn [strip_prefix]. destruct (Ascii.eqb a d) eqn:E; [|reflexivity].
    apply Ascii.eqb_eq in E. subst d. cbn [stops] in Ht. rewrite Ha in Ht. discriminate.
  - cbn [app strip_prefix] in *. destruct (Ascii.eqb a c); [|reflexivity].
    now apply IH.
Qed.

Lemma prev_after_dot (l : str) (pv : option ascii) (c : ascii) :
  forallb dot l = true -> l <> [] -> prev_after l pv = Some c -> not_char NL c = true.
Proof.
  intros Hd Hne H. destruct (@prev_after_Some l pv Hne) as (x & Hx & Hin).
  rewrite Hx in H. injection H as <-.
  exact (proj1 (forallb_forall _ _) Hd x Hin).
Qed.

Section HeadingLines.

Variable marker : string.
Variable p : str.
Variable t : template.
Hypothesis marker_hash : lit marker = "#"%char :: p.
Hypothesis marker_dot : forallb dot (lit marker) = true.

Let repl : mobj -> option str := fun mo => Some (expand t mo).

(** No heading begins inside a line, and none where the line is not the
    marker and something. *)
Lemma heading_not_at (pv : option ascii) (l tail : str) :
  forallb dot l = true -> stops dot tail = true ->
  has_more (lit marker) l = false ->
  forall a1 a2, l = a1 ++ a2 -> a2 <> [] ->
    match_at (re_heading marker) (prev_after a1 pv) (a2 ++ tail) = None.
Proof.
  intros Hl Ht Hm a1 a2 E Hne. apply match_at_None. unfold re_heading.
  rewrite m_Seq, m_Bol. cbn [prev].
  destruct a1 as [|c a1].
  - cbn [app] in E. subst a2. unfold prev_after. cbn [fold_left].
    destruct (at_bol pv); [|reflexivity].
    rewrite m_Seq, m_Lit. cbn [prev rest caps].
    unfold has_more in Hm.
    destruct (strip_prefix (lit marker) l) as [r|] eqn:Es.
    + destruct r as [|d r]; [|discriminate].
      apply strip_prefix_Some in Es. rewrite app_nil_r in Es. subst l.
      rewrite strip_prefix_app. rewrite m_Seq, m_Grp, m_Plus_Chr.
      destruct tail as [|d tail]; [reflexivity|].
      cbn [stops] in Ht. apply negb_true_iff in Ht. now rewrite Ht.
    + now rewrite (@strip_prefix_line _ _ _ marker_dot Ht Es).
  - assert (Hd : forallb dot (c :: a1) = true).
    { rewrite E, forallb_app in Hl. apply andb_true_iff in Hl. tauto. }
    destruct (prev_after (c :: a1) pv) as [x|] eqn:Ex.
    + pose proof (@prev_after_dot _ _ _ Hd ltac:(discriminate) Ex) as Hx.
      unfold not_char in Hx. rewrite eqb_NL_sym in Hx. apply negb_true_iff in Hx.
      cbn [at_bol]. now rewrite Hx.
    + destruct (@prev_after_Some (c :: a1) pv ltac:(discriminate)) as (x & Hx & _).
      congruence.
Qed.

Lemma heading_at (pv : option ascii) (c : ascii) (text tail : str) :
  at_bol pv = true -> forallb dot (c :: text) = true -> stops dot tail = true ->
  match_at (re_heading marker) pv ((lit marker ++ c :: text) ++ tail) =
  Some (mkMobj (lit marker ++ c :: text) [(1, c :: text)] 1).
Proof.
  intros Hb Hd Ht.
  assert (H : m (re_heading marker) Some
                (mkPos pv ((lit marker ++ c :: text) ++ tail) []) =
              Some (mkPos (prev_after (c :: text) (prev_after (lit marker) pv)) tail
                          [(1, c :: text)])).
  { unfold re_heading. rewrite m_Seq, m_Bol. cbn [prev]. rewrite Hb.
    rewrite <- app_assoc, m_Seq, m_Lit_app, m_Seq.
    apply m_Grp_Plus_run; try assumption; [discriminate|].
    cbn [m rest]. now rewrite (stops_dot_eol _ Ht). }
  apply match_at_Some in H. rewrite H.
  unfold re_heading. cbn [ngroups]. now rewrite ngroups_Lit.
Qed.

(** One line and what follows it. *)
Lemma heading_line_step (pv : option ascii) (l tail : str) :
  at_bol pv = true -> forallb dot l = true -> stops dot tail = true ->
  sub_loop (re_heading marker) repl 0 pv (l ++ tail) =
  (z <- sub_loop (re_heading marker) repl 0 (prev_after l pv) tail ;;
   Some (sub_line (lit marker) t l ++ z)).
Proof.
  intros Hb Hl Ht. unfold sub_line.
  destruct (has_more (lit marker) l) eqn:Hm.
  - unfold has_more in Hm.
    destruct (strip_prefix (lit marker) l) as [[|c text]|] eqn:Es; try discriminate.
    apply strip_prefix_Some in Es. subst l.
    assert (Hd : forallb dot (c :: text) = true).
    { rewrite forallb_app in Hl. apply andb_true_iff in Hl. tauto. }
    rewrite (@sub_loop_match _ repl pv (lit marker ++ c :: text) tail _
               (expand t (mkMobj (lit marker ++ c :: text) [(1, c :: text)] 1))
               (@heading_at pv c text tail Hb Hd Ht) eq_refl).
    + reflexivity.
    + rewrite marker_hash. discriminate.
    + reflexivity.
  - rewrite sub_loop_prefix by (now apply heading_not_at).
    unfold has_more in Hm.
    destruct (strip_prefix (lit marker) l) as [[|c text]|]; try discriminate; reflexivity.
Qed.

Lemma heading_sub_lines : forall (lines : list str) (pv : option ascii),
  at_bol pv = true -> forallb (forallb dot) lines = true -> lines <> [] ->
  sub_loop (re_heading marker) repl 0 pv (join [NL] lines) =
  Some (join [NL] (map (sub_line (lit marker) t) lines)).
Proof.
  induction lines as [|l lines IH]; intros pv Hb Hl Hne; [congruence|].
  cbn [forallb] in Hl. apply andb_true_iff in Hl. destruct Hl as [Hl Hls].
  destruct lines as [|l2 lines].
  - cbn [join map]. rewrite <- (app_nil_r l) at 1.
    rewrite (@heading_line_step pv l [] Hb Hl eq_refl).
    cbn [sub_loop]. rewrite match_at_None; [cbn [bind]; now rewrite app_nil_r|].
    unfold re_heading. rewrite m_Seq, m_Bol. cbn [prev].
    destruct (at_bol (prev_after l pv)); [|reflexivity].
    rewrite m_Seq. apply m_Lit_fail. cbn [rest]. now rewrite marker_hash.
  - rewrite join_cons. cbn [map]. rewrite join_cons. cbn [app].
    rewrite (@heading_line_step pv l (NL :: join [NL] (l2 :: lines)) Hb Hl eq_refl).
    rewrite sub_loop_skip_first.
    + rewrite (IH (Some NL) eq_refl Hls ltac:(discriminate)). reflexivity.
    + apply match_at_None. unfold re_heading. rewrite m_Seq, m_Bol. cbn [prev].
      destruct (at_bol (prev_after l pv)); [|reflexivity].
      rewrite m_Seq. apply m_Lit_fail. cbn [rest]. now rewrite marker_hash.
Qed.

End HeadingLines.

(** The fields of a split have no separator. *)
Lemma split_fields (sep : ascii) : forall s : str,
  forallb (forallb (not_char sep)) (split sep s) = true.
Proof.
  induction s as [|c s IH]; [reflexivity|]. rewrite split_cons.
  pose proof (split_not_nil sep s) as Hne.
  destruct (split sep s) as [|x xs]; [congruence|].
  destruct (Ascii.eqb sep c) eqn:E.
  - cbn [forallb] in *. exact IH.
  - cbn [forallb] in *. unfold not_char at 1. rewrite E. exact IH.
Qed.

(** A substitution of one of the patterns of lines 57-60 rewrites the
    lines that are the marker and something, and no other. *)
Lemma heading_sub (marker : string) (p : str) (t : template) (s : str) :
  forallb (titem_ok (ngroups (re_heading marker))) t = true ->
  lit marker = "#"%char :: p -> forallb dot (lit marker) = true ->
  re_sub (re_heading marker) t s =
  Some (join [NL] (map (sub_line (lit marker) t) (split NL s))).
Proof.
  intros Hv Hm Hd. rewrite re_sub_valid by exact Hv.
  rewrite <- (join_split NL s) at 1.
  apply (@heading_sub_lines marker p t Hm Hd); [reflexivity | | apply split_not_nil].
  apply (split_fields NL).
Qed.
(** * Texts in which a literal begins nowhere *)

Lemma compat_start : forall (p a tail : str),
  starts_with p (a ++ tail) = true -> compat p a = true.
Proof.
  unfold starts_with.
  induction p as [|c p IH]; intros a tail H; [reflexivity|].
  destruct a as [|d a]; [reflexivity|].
  cbn [app strip_prefix compat] in *.
  destruct (Ascii.eqb c d); [|discriminate]. cbn [andb]. now apply (IH a tail).
Qed.

Lemma compat_prefix : forall (p a y : str),
  compat p (a ++ y) = true -> a <> [] -> compat p a = true.
Proof.
  induction p as [|c p IH]; intros a y H Hne; [reflexivity|].
  destruct a as [|d a]; [congruence|].
  cbn [app compat] in *. apply andb_true_iff in H. destruct H as [H1 H2].
  rewrite H1. cbn [andb]. destruct a as [|e a]; [destruct p; reflexivity|].
  apply (IH _ y H2). discriminate.
Qed.

Lemma clear_spec (p : str) : forall (a1 a2 tail : str),
  clear p (a1 ++ a2) = true -> a2 <> [] -> starts_with p (a2 ++ tail) = false.
Proof.
  induction a1 as [|c a1 IH]; intros a2 tail H Hne.
  - cbn [app] in H. destruct a2 as [|d a2]; [congruence|].
    cbn [clear] in H. apply andb_true_iff in H. destruct H as [H _].
    apply negb_true_iff in H.
    destruct (starts_with p ((d :: a2) ++ tail)) eqn:E; [|reflexivity].
    apply compat_start in E. congruence.
  - cbn [app clear] in H. apply andb_true_iff in H. destruct H as [_ H].
    now apply IH.
Qed.

Lemma clear_app (p : str) : forall (x y : str),
  clear p x = true -> clear p y = true -> clear p (x ++ y) = true.
Proof.
  induction x as [|c x IH]; intros y Hx Hy; [exact Hy|].
  cbn [clear] in Hx. apply andb_true_iff in Hx. destruct Hx as [Hc Hx].
  change ((c :: x) ++ y) with (c :: (x ++ y)). cbn [clear].
  rewrite (IH y Hx Hy), andb_true_r.
  apply negb_true_iff in Hc. apply negb_true_iff.
  destruct (compat p (c :: x ++ y)) eqn:E; [|reflexivity].
  change (c :: x ++ y) with ((c :: x) ++ y) in E.
  apply compat_prefix in E; [congruence | discriminate].
Qed.

Lemma clear_free (c : ascii) (p : str) : forall x : str,
  forallb (not_char c) x = true -> clear (c :: p) x = true.
Proof.
  induction x as [|d x IH]; intros H; [reflexivity|].
  cbn [forallb] in H. apply andb_true_iff in H. destruct H as [Hd Hx].
  cbn [clear compat]. unfold not_char in Hd. apply negb_true_iff in Hd.
  rewrite Hd. cbn [andb negb]. now apply IH.
Qed.

Lemma clear_occurs (c : ascii) (p : str) : forall s : str,
  clear (c :: p) s = true -> occurs (c :: p) s = false.
Proof.
  induction s as [|d s IH]; intros H; [reflexivity|].
  pose proof (@clear_spec (c :: p) [] (d :: s) [] H ltac:(discriminate)) as Hs.
  rewrite app_nil_r in Hs.
  cbn [clear] in H. apply andb_true_iff in H. destruct H as [_ H].
  cbn [occurs]. now rewrite Hs, (IH H).
Qed.

(** The scan of [re.sub] copies a text in which the literal that every
    match begins with begins nowhere. *)
Lemma sub_loop_clear (p : str) (r : re) (repl : mobj -> option str) (A B : str)
    (pv : option ascii) :
  needs p r -> clear p A = true ->
  sub_loop r repl 0 pv (A ++ B) =
  (z <- sub_loop r repl 0 (prev_after A pv) B ;; Some (A ++ z)).
Proof.
  intros Hr HA. apply sub_loop_prefix.
  intros a1 a2 E Hne. apply match_at_None, Hr. cbn [rest].
  rewrite E in HA. now apply (@clear_spec p a1).
Qed.

(** One place where the literal begins and none after it: what the scan
    does is decided by the match at that place. *)
Lemma sub_loop_site_none (c : ascii) (p : str) (r : re) (repl : mobj -> option str)
    (A B : str) (pv : option ascii) :
  needs (c :: p) r -> clear (c :: p) A = true -> clear (c :: p) (p ++ B) = true ->
  match_at r (prev_after A pv) ((c :: p) ++ B) = None ->
  sub_loop r repl 0 pv (A ++ (c :: p) ++ B) = Some (A ++ (c :: p) ++ B).
Proof.
  intros Hr HA HB Hm. rewrite (@sub_loop_clear (c :: p)) by assumption.
  cbn [app] in *. rewrite sub_loop_skip_first by exact Hm.
  rewrite sub_loop_needs with (p := c :: p); [reflexivity | exact Hr |].
  now apply clear_occurs.
Qed.

Lemma occurs_clear_suffix (c : ascii) (p : str) : forall (x y : str),
  clear (c :: p) (x ++ y) = true -> occurs (c :: p) y = false.
Proof.
  induction x as [|d x IH]; intros y H.
  - now apply clear_occurs.
  - cbn [app clear] in H. apply andb_true_iff in H. destruct H as [_ H]. now apply IH.
Qed.

Lemma sub_loop_site_hit (c : ascii) (p : str) (r : re) (repl : mobj -> option str)
    (A B x y out : str) (mo : mobj) (pv : option ascii) :
  needs (c :: p) r -> clear (c :: p) A = true -> clear (c :: p) (p ++ B) = true ->
  (c :: p) ++ B = x ++ y -> x <> [] ->
  match_at r (prev_after A pv) (x ++ y) = Some mo -> m_text mo = x ->
  repl mo = Some out ->
  sub_loop r repl 0 pv (A ++ (c :: p) ++ B) = Some (A ++ out ++ y).
Proof.
  intros Hr HA HB E Hx Hm Ht Hrepl. rewrite (@sub_loop_clear (c :: p)) by assumption.
  rewrite E. rewrite (@sub_loop_match r repl _ x y mo out Hm Ht Hx Hrepl).
  rewrite sub_loop_needs with (p := c :: p); [reflexivity | exact Hr |].
  destruct x as [|d x]; [congruence|].
  cbn [app] in E. injection E as _ E. rewrite E in HB.
  now apply (@occurs_clear_suffix c p x y).
Qed.
(** * The passes on lines that are no headings and no list items *)

Lemma has_more_starts (p q l : str) :
  q <> [] -> starts_with (p ++ q) l = true -> has_more p l = true.
Proof.
  intros Hq H. unfold starts_with in H.
  destruct (strip_prefix (p ++ q) l) as [t|] eqn:E; [|discriminate].
  apply strip_prefix_app_Some in E. unfold has_more. rewrite E.
  destruct q; [congruence | reflexivity].
Qed.

Lemma sub_line_id (marker : str) (t : template) (l : str) :
  has_more marker l = false -> sub_line marker t l = l.
Proof.
  unfold has_more, sub_line.
  destruct (strip_prefix marker l) as [[|c r]|]; [reflexivity | discriminate | reflexivity].
Qed.

Lemma map_id_on {A : Type} (f : A -> A) (g : A -> bool) : forall l : list A,
  (forall x, g x = true -> f x = x) -> forallb g l = true -> map f l = l.
Proof.
  induction l as [|x l IH]; intros Hf H; [reflexivity|].
  cbn [forallb] in H. apply andb_true_iff in H. destruct H as [Hx Hl].
  cbn [map]. now rewrite (Hf x Hx), (IH Hf Hl).
Qed.

(** A pattern of lines 57-60 on a text none of whose lines is the marker
    and something. *)
Lemma heading_sub_id (marker : string) (p : str) (t : template) (s : str) :
  forallb (titem_ok (ngroups (re_heading marker))) t = true ->
  lit marker = "#"%char :: p -> forallb dot (lit marker) = true ->
  forallb (fun l => negb (has_more (lit marker) l)) (split NL s) = true ->
  re_sub (re_heading marker) t s = Some s.
Proof.
  intros Hv Hm Hd H. rewrite (@heading_sub marker p t s Hv Hm Hd).
  rewrite (@map_id_on _ _ (fun l => negb (has_more (lit marker) l))).
  - now rewrite join_split.
  - intros l Hl. apply sub_line_id. now apply negb_true_iff.
  - exact H.
Qed.

Lemma no_heading_lines (lines : list str) :
  forallb (fun l => negb (heading_line l)) lines = true ->
  forallb (fun l => negb (has_more (lit "# ") l)) lines = true /\
  forallb (fun l => negb (has_more (lit "## ") l)) lines = true /\
  forallb (fun l => negb (has_more (lit "### ") l)) lines = true /\
  forallb (fun l => negb (has_more (lit "#### ") l)) lines = true.
Proof.
  intros H. repeat split;
    (eapply forallb_impl; [|exact H]); intros l Hl; cbv beta in *;
    apply negb_true_iff in Hl; unfold heading_line in Hl;
    apply orb_false_iff in Hl; destruct Hl as [Hl H4];
    apply orb_false_iff in Hl; destruct Hl as [Hl H3];
    apply orb_false_iff in Hl; destruct Hl as [H1 H2];
    apply negb_true_iff; assumption.
Qed.

(** Lines 57-67 on a text without [<] none of whose lines is a heading. *)
Lemma headers_pass_text (s : str) :
  forallb (not_char "<") s = true ->
  forallb (fun l => negb (heading_line l)) (split NL s) = true ->
  headers_pass s = Some s.
Proof.
  intros Hlt H. apply no_heading_lines in H. destruct H as (H1 & H2 & H3 & H4).
  unfold headers_pass, re_h1, re_h2, re_h3, re_h4.
  rewrite (@heading_sub_id "# " (lit " ") tmpl_h1 s eq_refl eq_refl eq_refl H1). cbn [bind].
  rewrite (@heading_sub_id "## " (lit "# ") tmpl_h2 s eq_refl eq_refl eq_refl H2). cbn [bind].
  rewrite (@heading_sub_id "### " (lit "## ") tmpl_h3 s eq_refl eq_refl eq_refl H3). cbn [bind].
  rewrite (@heading_sub_id "#### " (lit "### ") tmpl_h4 s eq_refl eq_refl eq_refl H4). cbn [bind].
  unfold re_sub_fn, re_h2_id. apply sub_loop_no_occ.
  now apply (@occurs_absent "<" (lit "h2 id=" ++ [DQ])).
Qed.

(** ** Lines that are no list items *)

Lemma drop_digits_stops : forall l : str, stops is_digit (drop_digits l) = true.
Proof.
  induction l as [|c l IH]; [reflexivity|]. cbn [drop_digits].
  destruct (is_digit c) eqn:E; [exact IH|]. cbn [stops]. now rewrite E.
Qed.

(** What is left after some digits of a text ends with what is left
    after all its leading digits. *)
Lemma digits_suffix : forall (a b : str),
  forallb is_digit a = true ->
  exists ds, b = ds ++ drop_digits (a ++ b) /\ forallb is_digit ds = true.
Proof.
  induction a as [|c a IH]; intros b H.
  - cbn [app]. induction b as [|d b IHb].
    + exists []. split; reflexivity.
    + cbn [drop_digits]. destruct (is_digit d) eqn:E.
      * destruct IHb as (ds & Hb & Hds). exists (d :: ds). cbn [app forallb].
        rewrite E, Hds. split; [now rewrite <- Hb | reflexivity].
      * exists []. split; reflexivity.
  - cbn [forallb] in H. apply andb_true_iff in H. destruct H as [Hc Ha].
    cbn [app drop_digits]. rewrite Hc. now apply IH.
Qed.

Lemma ordered_none (l : str) : ordered_form l = false -> matches re_ordered l = false.
Proof.
  intros H. unfold matches, re_match, match_at, re_ordered.
  rewrite m_Seq, m_Sos, m_Seq, m_Plus_Chr.
  destruct l as [|c t]; [reflexivity|].
  cbn [ordered_form] in H. destruct (is_digit c) eqn:Hc; [|reflexivity].
  cbn [andb] in H.
  destruct (greedy is_digit _ (Some c) t []) as [p'|] eqn:G; [|reflexivity].
  exfalso. apply greedy_inv in G. destruct G as (a & b & E & Ha & G).
  destruct (@digits_suffix (c :: a) b) as (ds & Hb & Hds).
  { cbn [forallb]. now rewrite Hc, Ha. }
  cbn [app] in Hb. rewrite <- E in Hb.
  rewrite m_Seq, m_Lit in G. cbn [prev rest caps] in G.
  destruct ds as [|d ds].
  - cbn [app] in Hb. rewrite <- Hb in H. unfold has_more in H.
    destruct (strip_prefix (lit ". ") b) as [[|x r]|]; discriminate.
  - rewrite Hb in G. cbn [app strip_prefix lit list_ascii_of_string] in G.
    cbn [forallb] in Hds. apply andb_true_iff in Hds. destruct Hds as [Hd _].
    destruct (Ascii.eqb "." d) eqn:Ed; [|discriminate].
    apply Ascii.eqb_eq in Ed. subst d. discriminate.
Qed.

Lemma bullet_none (l : str) : has_more (lit "- ") l = false -> matches re_bullet l = false.
Proof.
  intros H. unfold has_more in H.
  destruct (strip_prefix (lit "- ") l) as [[|c r]|] eqn:E; try discriminate.
  - apply strip_prefix_Some in E. rewrite app_nil_r in E. subst l. reflexivity.
  - unfold re_bullet. apply matches_Sos_Lit_false. unfold starts_with. now rewrite E.
Qed.

Lemma checklist_none (l : str) :
  has_more (lit "- ") l = false -> is_checklist_line l = false.
Proof.
  intros H. unfold is_checklist_line, re_unchecked, re_checked.
  rewrite !matches_Sos_Lit_only_false; [reflexivity | |].
  - destruct (starts_with (lit "- [x]") l) eqn:E; [|reflexivity].
    apply (@has_more_starts (lit "- ") (lit "[x]")) in E; [congruence | discriminate].
  - destruct (starts_with (lit "- [ ]") l) eqn:E; [|reflexivity].
    apply (@has_more_starts (lit "- ") (lit "[ ]")) in E; [congruence | discriminate].
Qed.

(** A line that is no list item is taken by the last branch of the
    loop. *)
Lemma list_line_other (l : str) : list_line l = false -> is_other l = true.
Proof.
  unfold list_line. intros H. apply orb_false_iff in H. destruct H as [Hb Ho].
  pose proof (checklist_none l Hb) as Hc. unfold is_checklist_line in Hc.
  apply orb_false_iff in Hc. destruct Hc as [H1 H2].
  unfold is_other. now rewrite H1, H2, (bullet_none l Hb), (ordered_none l Ho).
Qed.

Lemma lists_pass_text (s : str) :
  forallb (fun l => negb (list_line l)) (split NL s) = true -> lists_pass s = Some s.
Proof.
  intros H. unfold lists_pass, list_lines.
  rewrite (@for_each_is_other (split NL s) []).
  - cbn [bind truth app]. now rewrite join_split.
  - eapply forallb_impl; [|exact H]. intros l Hl. cbv beta in Hl.
    apply list_line_other. now apply negb_true_iff.
Qed.
(** * Inline markup: matches of the patterns *)

Lemma re_sub_free (c : ascii) (p : str) (r : re) (t : template) (s : str) :
  forallb (titem_ok (ngroups (Lit (c :: p) ;; r))) t = true ->
  forallb (not_char c) s = true ->
  re_sub (Lit (c :: p) ;; r) t s = Some s.
Proof.
  intros Hv Hs. rewrite re_sub_valid by exact Hv.
  apply sub_loop_no_occ. now apply occurs_absent.
Qed.

(** The first match of a pattern that begins with a literal, in a text
    that does not have the first character of the literal before it. *)
Lemma sub_loop_first (c : ascii) (p : str) (r : re) (repl : mobj -> option str)
    (pre x post out : str) :
  forallb (not_char c) pre = true -> x <> [] ->
  (forall pv, exists mo,
      match_at (Lit (c :: p) ;; r) pv (x ++ post) = Some mo /\
      m_text mo = x /\ repl mo = Some out) ->
  sub_loop (Lit (c :: p) ;; r) repl 0 None (pre ++ x ++ post) =
  (z <- sub_loop (Lit (c :: p) ;; r) repl 0 None post ;; Some (pre ++ out ++ z)).
Proof.
  intros Hpre Hx Hm.
  rewrite sub_loop_prefix.
  - destruct (Hm (prev_after pre None)) as (mo & Hmo & Ht & Hr).
    rewrite (@sub_loop_match _ _ _ x post mo out Hmo Ht Hx Hr).
    rewrite (@sub_loop_prev (Lit (c :: p) ;; r) repl (@match_at_Lit_prev c p r) post 0 _ None).
    destruct (sub_loop _ repl 0 None post) as [z|]; cbn [bind]; reflexivity.
  - intros a1 a2 E Hne. apply match_at_None. rewrite m_Seq.
    apply m_Lit_fail. cbn [rest].
    apply not_char_head; [|exact Hne].
    rewrite E, forallb_app in Hpre. apply andb_true_iff in Hpre. tauto.
Qed.

Lemma re_sub_first (c : ascii) (p : str) (r : re) (t : template)
    (pre x post : str) (mo : mobj) :
  forallb (titem_ok (ngroups (Lit (c :: p) ;; r))) t = true ->
  forallb (not_char c) pre = true -> forallb (not_char c) post = true ->
  x <> [] -> m_text mo = x ->
  (forall pv, match_at (Lit (c :: p) ;; r) pv (x ++ post) = Some mo) ->
  re_sub (Lit (c :: p) ;; r) t (pre ++ x ++ post) = Some (pre ++ expand t mo ++ post).
Proof.
  intros Hv Hpre Hpost Hx Ht Hm. rewrite re_sub_valid by exact Hv.
  rewrite (@sub_loop_first c p r _ pre x post (expand t mo) Hpre Hx).
  - rewrite sub_loop_no_occ by (now apply occurs_absent). reflexivity.
  - intros pv. exists mo. auto.
Qed.

Lemma inline_free_not (c : ascii) (s : str) :
  inline_char c = true -> inline_free s = true -> forallb (not_char c) s = true.
Proof.
  intros Hc. unfold inline_free. apply forallb_impl. intros d Hd.
  unfold not_char. destruct (Ascii.eqb c d) eqn:E; [|reflexivity].
  apply Ascii.eqb_eq in E. subst d. rewrite Hc in Hd. discriminate.
Qed.

(** [`([^`]+)`] on a span. *)
Lemma match_inline_code (pv : option ascii) (code post : str) :
  code <> [] -> forallb (not_char "`") code = true ->
  match_at re_inline_code pv ((lit "`" ++ code ++ lit "`") ++ post) =
  Some (mkMobj (lit "`" ++ code ++ lit "`") [(1, code)] 1).
Proof.
  intros Hne Hc.
  assert (H : m re_inline_code Some (mkPos pv ((lit "`" ++ code ++ lit "`") ++ post) []) =
              Some (mkPos (Some "`"%char) post [(1, code)])).
  { rewrite <- !app_assoc. unfold re_inline_code.
    rewrite m_Seq, m_Lit_app, m_Seq.
    apply m_Grp_Plus_run; try assumption; [reflexivity|].
    now rewrite m_Lit_app. }
  apply match_at_Some in H. exact H.
Qed.

(** [d(.+?)d] for the delimiter [d] of bold or of italic, on a span
    without the character of the delimiter. *)
Lemma match_emph (c0 : ascii) (d' : str) (pv : option ascii) (x post : str) :
  x <> [] -> forallb dot x = true -> forallb (not_char c0) x = true ->
  match_at (Lit (c0 :: d') ;; Grp 1 (LazyPlus (Chr dot)) ;; Lit (c0 :: d')) pv
           (((c0 :: d') ++ x ++ (c0 :: d')) ++ post) =
  Some (mkMobj ((c0 :: d') ++ x ++ (c0 :: d')) [(1, x)] 1).
Proof.
  intros Hne Hdot Hx.
  assert (H : m (Lit (c0 :: d') ;; Grp 1 (LazyPlus (Chr dot)) ;; Lit (c0 :: d')) Some
                (mkPos pv (((c0 :: d') ++ x ++ (c0 :: d')) ++ post) []) =
              Some (mkPos (prev_after (c0 :: d') (prev_after x (prev_after (c0 :: d') pv)))
                          post [(1, x)])).
  { remember (c0 :: d') as d eqn:Ed.
    rewrite <- !app_assoc.
    rewrite m_Seq, m_Lit_app, m_Seq, m_Grp, m_LazyPlus_Chr.
    destruct x as [|c x]; [congruence|].
    cbn [forallb] in Hdot, Hx.
    apply andb_true_iff in Hdot. destruct Hdot as [Hc Hdot].
    apply andb_true_iff in Hx. destruct Hx as [_ Hx].
    rewrite <- app_comm_cons. rewrite Hc.
    rewrite lazy_first.
    - apply lazy_hit. rewrite m_Lit. unfold set_cap, consumed. cbn [prev rest caps].
      rewrite strip_prefix_app.
      rewrite app_comm_cons, firstn_app_exact. reflexivity.
    - exact Hdot.
    - intros a1 a2 E Hn2. apply m_Lit_fail. unfold set_cap. cbn [rest].
      rewrite Ed. apply not_char_head; [|exact Hn2].
      rewrite E, forallb_app in Hx. apply andb_true_iff in Hx. tauto. }
  apply match_at_Some in H. rewrite H. cbn [ngroups]. rewrite !ngroups_Lit. reflexivity.
Qed.

(** The pattern of the links on a link. *)
Lemma match_link (pv : option ascii) (text url post : str) :
  text <> [] -> forallb (not_char "]") text = true ->
  url <> [] -> forallb (not_char ")") url = true ->
  match_at re_link pv ((lit "[" ++ text ++ lit "](" ++ url ++ lit ")") ++ post) =
  Some (mkMobj (lit "[" ++ text ++ lit "](" ++ url ++ lit ")") [(2, url); (1, text)] 2).
Proof.
  intros Ht Htc Hu Huc.
  assert (H : m re_link Some
                (mkPos pv ((lit "[" ++ text ++ lit "](" ++ url ++ lit ")") ++ post) []) =
              Some (mkPos (Some ")"%char) post [(2, url); (1, text)])).
  { rewrite <- !app_assoc. unfold re_link.
    rewrite m_Seq, m_Lit_app, m_Seq.
    apply m_Grp_Plus_run; try assumption; [reflexivity|].
    rewrite m_Seq, m_Lit_app, m_Seq.
    apply m_Grp_Plus_run; try assumption; [reflexivity|].
    now rewrite m_Lit_app. }
  apply match_at_Some in H. exact H.
Qed.


(** Lines 76-82 on a text without asterisk and opening bracket. *)
Lemma emph_link_id (s : str) :
  forallb (not_char "*") s = true -> forallb (not_char "[") s = true ->
  re_sub re_bold tmpl_bold s = Some s /\
  re_sub re_italic tmpl_italic s = Some s /\
  re_sub re_link tmpl_link s = Some s.
Proof.
  intros Hs Hb. repeat split.
  - apply (@re_sub_free "*" (lit "*")); [reflexivity | exact Hs].
  - apply (@re_sub_free "*" []); [reflexivity | exact Hs].
  - apply (@re_sub_free "[" []); [reflexivity | exact Hb].
Qed.


(** A match of [open ... close] has the closing literal after the
    opening one. *)
Lemma needs_close (o c : str) (r : re) (pv : option ascii) (w : str) (mo : mobj) :
  match_at (Lit o ;; r ;; Lit c) pv w = Some mo ->
  exists t, w = o ++ t /\ occurs c t = true.
Proof.
  unfold match_at.
  destruct (m (Lit o ;; r ;; Lit c) Some (mkPos pv w [])) as [p'|] eqn:H; [|discriminate].
  intros _. rewrite m_Seq, m_Lit in H. cbn [prev rest caps] in H.
  destruct (strip_prefix o w) as [t|] eqn:E; [|discriminate].
  apply strip_prefix_Some in E. exists t. split; [exact E|].
  rewrite m_Seq in H. apply m_cont in H. destruct H as (q1 & [[x1 Hx1] _] & H).
  rewrite m_Lit in H.
  destruct (strip_prefix c (rest q1)) as [t1|] eqn:E1; [|discriminate].
  cbn [rest] in Hx1. rewrite Hx1.
  apply occurs_intro. unfold starts_with. now rewrite E1.
Qed.

(** * A fence that nothing closes, in the inline passes *)





(** * Tables *)

Lemma orelse_None_r {A : Type} (x : option A) : orelse x None = x.
Proof. destruct x; reflexivity. Qed.

(** Where what follows the repetition can succeed after one repetition
    only, the repetition is that one. *)
Lemma greedy_unique (f : ascii -> bool) (k : pos -> option pos) (cs : list (nat * str)) :
  forall (s a0 b0 : str) pv,
  s = a0 ++ b0 -> forallb f a0 = true ->
  (forall a b, s = a ++ b -> forallb f a = true -> a <> a0 ->
     k (mkPos (prev_after a pv) b cs) = None) ->
  greedy f k pv s cs = k (mkPos (prev_after a0 pv) b0 cs).
Proof.
  induction s as [|c t IH]; intros a0 b0 pv E Ha0 H.
  - destruct a0; [|discriminate]. cbn [app] in E. subst b0. reflexivity.
  - cbn [greedy]. destruct (f c) eqn:Hc.
    + destruct a0 as [|c' a0].
      * cbn [app] in E. subst b0.
        destruct (greedy f k (Some c) t cs) as [p'|] eqn:G; [|reflexivity].
        apply greedy_inv in G. destruct G as (a & b & -> & Ha & G).
        assert (Hca : forallb f (c :: a) = true) by (cbn [forallb]; now rewrite Hc, Ha).
        pose proof (H (c :: a) b eq_refl Hca ltac:(discriminate)) as H'.
        rewrite prev_after_cons in H'. congruence.
      * cbn [app] in E. injection E as <- ->.
        cbn [forallb] in Ha0. apply andb_true_iff in Ha0. destruct Ha0 as [_ Ha0].
        rewrite (IH a0 b0 (Some c) eq_refl Ha0).
        -- pose proof (H [] (c :: a0 ++ b0) eq_refl eq_refl ltac:(discriminate)) as H0.
           change (k (mkPos pv (c :: a0 ++ b0) cs) = None) in H0.
           rewrite H0. apply orelse_None_r.
        -- intros a b E' Ha Hne.
           assert (Hca : forallb f (c :: a) = true) by (cbn [forallb]; now rewrite Hc, Ha).
           assert (Ec : c :: a0 ++ b0 = (c :: a) ++ b) by (cbn [app]; now rewrite E').
           pose proof (H (c :: a) b Ec Hca ltac:(congruence)) as H'.
           rewrite prev_after_cons in H'. exact H'.
    + destruct a0 as [|c' a0]; [cbn [app] in E; now subst b0|].
      cbn [app] in E. injection E as <- _. cbn [forallb] in Ha0. now rewrite Hc in Ha0.
Qed.

(** The part of a text before its first newline. *)
Lemma first_line_unique : forall (u u' b b' : str),
  forallb dot u = true -> forallb dot u' = true ->
  u ++ NL :: b = u' ++ NL :: b' -> u = u'.
Proof.
  induction u as [|c u IH]; intros u' b b' Hu Hu' E.
  - destruct u' as [|c' u']; [reflexivity|].
    cbn [app] in E. injection E as <- _. cbn [forallb] in Hu'. discriminate.
  - cbn [forallb] in Hu. apply andb_true_iff in Hu. destruct Hu as [Hc Hu].
    destruct u' as [|c' u'].
    + cbn [app] in E. injection E as -> _. discriminate.
    + cbn [app] in E. injection E as -> E.
      cbn [forallb] in Hu'. apply andb_true_iff in Hu'. destruct Hu' as [_ Hu'].
      f_equal. now apply (IH u' b b').
Qed.

(** [(\|.+\|\n)] on a row: the whole row and nothing else. *)
Lemma match_row (k : pos -> option pos) (pv : option ascii) (x tl : str)
    (cs : list (nat * str)) :
  item_text x = true ->
  m (Grp 1 re_table_row) k (mkPos pv ((pipe_row x ++ [NL]) ++ tl) cs) =
  k (mkPos (Some NL) tl ((1, pipe_row x ++ [NL]) :: cs)).
Proof.
  intros Hx. apply item_text_ok in Hx. destruct Hx as [Hne Hdot].
  destruct x as [|c x]; [congruence|].
  cbn [forallb] in Hdot. apply andb_true_iff in Hdot. destruct Hdot as [Hc Hdot].
  rewrite m_Grp. unfold re_table_row, pipe_row.
  rewrite <- !app_assoc. cbn [lit list_ascii_of_string app].
  rewrite m_Seq, m_Chr. change (is_char "|" "|") with true. cbv iota.
  rewrite m_Seq, m_Plus_Chr, Hc.
  rewrite (@greedy_unique dot _ cs (x ++ "|"%char :: NL :: tl) x ("|"%char :: NL :: tl)
             (Some c) eq_refl Hdot).
  - rewrite m_Seq, m_Chr. change (is_char "|" "|") with true. cbv iota.
    rewrite m_Chr. change (is_char NL NL) with true. cbv iota.
    unfold set_cap, consumed. cbn [prev rest caps].
    change ("|"%char :: c :: x ++ "|"%char :: NL :: tl)
      with (("|"%char :: c :: x) ++ "|"%char :: NL :: tl).
    replace (("|"%char :: c :: x) ++ "|"%char :: NL :: tl)
      with (("|"%char :: c :: x ++ ["|"%char; NL]) ++ tl)
      by (cbn [app]; now rewrite <- app_assoc).
    now rewrite firstn_app_exact.
  - intros a b E Ha Hne'.
    rewrite m_Seq, m_Chr. destruct b as [|d b]; [reflexivity|].
    destruct (is_char "|" d) eqn:Ed; [|reflexivity].
    rewrite m_Chr. destruct b as [|e b]; [reflexivity|].
    destruct (is_char NL e) eqn:Ee; [|reflexivity].
    exfalso. apply Hne'.
    unfold is_char in Ed, Ee. apply Ascii.eqb_eq in Ed, Ee. subst d e.
    assert (E' : (x ++ ["|"%char]) ++ NL :: tl = (a ++ ["|"%char]) ++ NL :: b)
      by (rewrite <- !app_assoc; exact E).
    apply first_line_unique in E'.
    + apply app_inj_tail in E'. symmetry. tauto.
    + rewrite forallb_app. now rewrite Hdot.
    + rewrite forallb_app. now rewrite Ha.
Qed.

Lemma m_Star (r : re) (k : pos -> option pos) (p : pos) :
  m (Star r) k p = star_loop (m r) k (length (rest p)) p.
Proof. reflexivity. Qed.

(** A row begins with [|]. *)
Lemma row_needs_bar (k : pos -> option pos) (pv : option ascii) (w : str)
    (cs : list (nat * str)) :
  stops (is_char "|") w = true ->
  m (Grp 1 re_table_row) k (mkPos pv w cs) = None.
Proof.
  intros Hw. rewrite m_Grp. unfold re_table_row. rewrite m_Seq, m_Chr.
  destruct w as [|d w]; [reflexivity|].
  cbn [stops] in Hw. apply negb_true_iff in Hw. now rewrite Hw.
Qed.

Lemma block_cons (x : str) (xs : list str) (tl : str) :
  block (x :: xs) ++ tl = (pipe_row x ++ [NL]) ++ block xs ++ tl.
Proof. unfold block. cbn [map concat]. now rewrite <- app_assoc. Qed.

(** The rows of a block, one after the other, up to a line that is not a
    row. *)
Lemma star_rows : forall (xs : list str) (n : nat) pv cs (tl : str),
  forallb item_text xs = true -> stops (is_char "|") tl = true ->
  length (block xs ++ tl) <= n ->
  exists pv' cs',
    star_loop (m (Grp 1 re_table_row)) Some n (mkPos pv (block xs ++ tl) cs) =
    Some (mkPos pv' tl cs').
Proof.
  induction xs as [|x xs IH]; intros n pv cs tl Hxs Htl Hn.
  - exists pv, cs. cbn [block map concat app].
    destruct n as [|n]; [reflexivity|]. cbn [star_loop].
    now rewrite row_needs_bar.
  - cbn [forallb] in Hxs. apply andb_true_iff in Hxs. destruct Hxs as [Hx Hxs].
    rewrite block_cons in *.
    destruct n as [|n].
    { rewrite length_app in Hn. unfold pipe_row in Hn. cbn in Hn. lia. }
    destruct (IH n (Some NL) ((1, pipe_row x ++ [NL]) :: cs) tl Hxs Htl) as (pv' & cs' & Hs).
    { rewrite length_app in Hn. unfold pipe_row in Hn. cbn [lit list_ascii_of_string app length] in Hn.
      lia. }
    exists pv', cs'. cbn [star_loop]. rewrite (@match_row _ pv x (block xs ++ tl) cs Hx).
    unfold progress. cbn [rest].
    replace (length (block xs ++ tl) <? length ((pipe_row x ++ [NL]) ++ block xs ++ tl))
      with true.
    + rewrite Hs. reflexivity.
    + symmetry. apply Nat.ltb_lt. rewrite (length_app (pipe_row x ++ [NL])).
      rewrite length_app. cbn. lia.
Qed.

(** The pattern of line 182 on a block of rows. *)
Lemma match_table (pv : option ascii) (x : str) (xs : list str) (tl : str) :
  forallb item_text (x :: xs) = true -> stops (is_char "|") tl = true ->
  exists cs,
    match_at table_pattern pv ((NL :: block (x :: xs)) ++ tl) =
    Some (mkMobj (NL :: block (x :: xs)) cs 1).
Proof.
  intros Hxs Htl.
  cbn [forallb] in Hxs. apply andb_true_iff in Hxs. destruct Hxs as [Hx Hxs].
  destruct (@star_rows xs (length (block xs ++ tl)) (Some NL)
              [(1, pipe_row x ++ [NL])] tl Hxs Htl (le_n _)) as (pv' & cs' & Hs).
  exists cs'. apply match_at_Some with (pv' := pv').
  cbn [app]. rewrite block_cons. unfold table_pattern, Plus.
  rewrite m_Seq, m_Chr. change (is_char NL NL) with true. cbv iota.
  rewrite m_Seq, (@match_row _ _ x _ _ Hx), m_Star. cbn [rest]. exact Hs.
Qed.

Lemma rev_pipe (x : str) : rev (pipe_row x) = pipe_row (rev x).
Proof.
  unfold pipe_row. cbn [lit list_ascii_of_string app rev].
  rewrite rev_app_distr. reflexivity.
Qed.

Lemma lstrip_pipe (x : str) : lstrip (pipe_row x) = pipe_row x.
Proof. reflexivity. Qed.

(** A row has nothing to strip. *)
Lemma strip_pipe_row (x : str) : strip (pipe_row x) = pipe_row x.
Proof.
  unfold strip. rewrite lstrip_pipe, rev_pipe, lstrip_pipe, rev_pipe.
  now rewrite rev_involutive.
Qed.

Lemma pipe_row_no_NL (x : str) :
  item_text x = true -> forallb (not_char NL) (pipe_row x) = true.
Proof.
  intros Hx. apply item_text_ok in Hx. destruct Hx as [_ Hdot].
  unfold pipe_row. rewrite !forallb_app.
  change (forallb (not_char NL) x) with (forallb dot x). now rewrite Hdot.
Qed.

Lemma split_block : forall xs : list str,
  forallb item_text xs = true -> split NL (block xs) = map pipe_row xs ++ [[]].
Proof.
  induction xs as [|x xs IH]; intros H; [reflexivity|].
  cbn [forallb] in H. apply andb_true_iff in H. destruct H as [Hx Hxs].
  unfold block. cbn [map concat]. rewrite <- app_assoc. cbn [app].
  rewrite split_app by (now apply pipe_row_no_NL).
  fold (block xs). now rewrite (IH Hxs).
Qed.

Lemma strip_all_app (l1 l2 : list str) :
  strip_all (l1 ++ l2) = strip_all l1 ++ strip_all l2.
Proof. unfold strip_all. now rewrite filter_app, map_app. Qed.

Lemma strip_all_rows : forall xs : list str,
  strip_all (map pipe_row xs) = map pipe_row xs.
Proof.
  induction xs as [|x xs IH]; [reflexivity|].
  cbn [map]. change (pipe_row x :: map pipe_row xs)
    with ([pipe_row x] ++ map pipe_row xs).
  rewrite strip_all_app, IH. unfold strip_all. cbn [filter].
  rewrite strip_pipe_row. change (truthy (pipe_row x)) with true.
  cbn [map]. rewrite strip_pipe_row. reflexivity.
Qed.

(** The lines of a block of rows as [convert_table] sees them (line
    151). *)
Lemma lines_of_block (xs : list str) :
  forallb item_text xs = true ->
  strip_all (split NL (NL :: block xs)) = map pipe_row xs.
Proof.
  intros H. rewrite split_cons, Ascii.eqb_refl, (split_block xs H).
  change ([] :: map pipe_row xs ++ [[]]) with ([[]] ++ map pipe_row xs ++ [[]]).
  rewrite !strip_all_app, strip_all_rows. cbn. now rewrite app_nil_r.
Qed.

(** Lines 160-164 as a filter. *)
Lemma parse_fold : forall (l : list str) (acc : list (list str)),
  fold_left (fun rows line =>
               let cells := cells_of line in
               match cells with [] => rows | _ => rows ++ [cells] end) l acc =
  acc ++ with_cells (map cells_of l).
Proof.
  induction l as [|x l IH]; intros acc.
  - cbn. now rewrite app_nil_r.
  - cbn [fold_left map with_cells filter]. rewrite IH.
    destruct (cells_of x) as [|c cs].
    + reflexivity.
    + fold (with_cells (map cells_of l)). now rewrite <- app_assoc.
Qed.

Lemma convert_table_block (h sep : str) (rows : list str) :
  forallb item_text (h :: sep :: rows) = true ->
  convert_table (NL :: block (h :: sep :: rows)) =
  Some (build_table (cells_of (pipe_row h))
                    (with_cells (map (fun x => cells_of (pipe_row x)) rows))).
Proof.
  intros H. unfold convert_table. rewrite (lines_of_block _ H).
  cbn [map length Nat.ltb Nat.leb nth_error bind].
  unfold parse_rows. cbn [skipn]. rewrite parse_fold, map_map. reflexivity.
Qed.

Lemma convert_table_one (h : str) :
  item_text h = true ->
  convert_table (NL :: block [h]) = Some (NL :: block [h]).
Proof.
  intros H. unfold convert_table. rewrite lines_of_block.
  - reflexivity.
  - cbn [forallb]. now rewrite H.
Qed.

Lemma table_needs_bar (pv : option ascii) (c : ascii) (w : str) :
  stops (is_char "|") w = true -> match_at table_pattern pv (c :: w) = None.
Proof.
  intros Hw. apply match_at_None. unfold table_pattern, Plus.
  rewrite m_Seq, m_Chr. destruct (is_char NL c); [|reflexivity].
  rewrite m_Seq. now apply row_needs_bar.
Qed.

Lemma match_at_table_prev (pv pv' : option ascii) (s : str) :
  match_at table_pattern pv s = match_at table_pattern pv' s.
Proof.
  unfold match_at, table_pattern. rewrite !m_Seq, !m_Chr. reflexivity.
Qed.

(** The first block of rows of a text. *)
Lemma tables_pass_first (pre : str) (x : str) (xs : list str) (post out : str) :
  forallb (not_char "|") pre = true ->
  forallb item_text (x :: xs) = true -> stops (is_char "|") post = true ->
  convert_table (NL :: block (x :: xs)) = Some out ->
  tables_pass (pre ++ (NL :: block (x :: xs)) ++ post) =
  (z <- tables_pass post ;; Some (pre ++ [NL] ++ out ++ [NL] ++ z)).
Proof.
  intros Hpre Hxs Hpost Hout. unfold tables_pass, re_sub_fn.
  rewrite sub_loop_prefix.
  - destruct (@match_table (prev_after pre None) x xs post Hxs Hpost) as [cs Hm].
    rewrite (@sub_loop_match _ _ _ (NL :: block (x :: xs)) post _
               ([NL] ++ out ++ [NL]) Hm eq_refl).
    + rewrite (@sub_loop_prev table_pattern table_repl match_at_table_prev post 0 _ None).
      destruct (sub_loop table_pattern table_repl 0 None post) as [z|]; cbn [bind];
        [|reflexivity].
      now rewrite <- !app_assoc.
    + discriminate.
    + unfold table_repl. cbn [m_text]. now rewrite Hout.
  - intros a1 a2 E Hne. destruct a2 as [|c a2]; [congruence|].
    cbn [app]. apply table_needs_bar.
    destruct a2 as [|d a2]; [reflexivity|].
    rewrite E, forallb_app in Hpre. apply andb_true_iff in Hpre. destruct Hpre as [_ Hpre].
    cbn [forallb] in Hpre. apply andb_true_iff in Hpre. destruct Hpre as [_ Hpre].
    apply andb_true_iff in Hpre. destruct Hpre as [Hd _].
    cbn [app stops]. exact Hd.
Qed.

Lemma split_join_more (sep : ascii) : forall (cells : list str) (t : str),
  cells <> [] -> forallb (forallb (not_char sep)) cells = true ->
  split sep (join [sep] cells ++ sep :: t) = cells ++ split sep t.
Proof.
  induction cells as [|x cells IH]; intros t Hne H; [congruence|].
  cbn [forallb] in H. apply andb_true_iff in H. destruct H as [Hx Hc].
  destruct cells as [|y cells].
  - cbn [join app]. now rewrite split_app.
  - rewrite join_cons. rewrite <- app_assoc. cbn [app].
    rewrite split_app by exact Hx. cbn [app]. f_equal.
    apply IH; [discriminate | exact Hc].
Qed.


(** ** The table as it is written *)

Lemma fold_left_concat {A : Type} (f : A -> str) : forall (l : list A) (init : str),
  fold_left (fun t x => t ++ f x) l init = init ++ concat (map f l).
Proof.
  induction l as [|x l IH]; intros init; cbn [fold_left map concat].
  - now rewrite app_nil_r.
  - now rewrite IH, <- app_assoc.
Qed.

Lemma fold_cells (row : list str) (init : str) :
  fold_left (fun t cell => t ++ lit "<td>" ++ cell ++ lit "</td>" ++ [NL]) row init =
  init ++ concat (map td row).
Proof. apply (fold_left_concat td). Qed.

Lemma fold_rows : forall (rows : list (list str)) (init : str),
  fold_left (fun t row =>
               let t := t ++ lit "<tr>" ++ [NL] in
               let t := fold_left (fun t cell => t ++ lit "<td>" ++ cell ++ lit "</td>" ++ [NL])
                                  row t in
               t ++ lit "</tr>" ++ [NL])
            rows init =
  init ++ concat (map tr rows).
Proof.
  induction rows as [|row rows IH]; intros init; cbn [fold_left map concat].
  - now rewrite app_nil_r.
  - rewrite IH, fold_cells. unfold tr. now rewrite <- !app_assoc.
Qed.

(** [convert_table] builds the table that [table_html] writes. *)
Lemma build_table_html (headers : list str) (rows : list (list str)) :
  build_table headers rows = table_html headers rows.
Proof.
  unfold build_table, table_html. cbv zeta.
  rewrite fold_rows, (fold_left_concat th). now rewrite <- !app_assoc.
Qed.

Lemma item_text_row (cells : list str) : item_text (row_of cells) = true -> cells <> [].
Proof. destruct cells; [discriminate | discriminate]. Qed.

(** The cells that [convert_table] reads from a row. *)
Lemma cells_of_cells (cells : list str) :
  cells <> [] -> forallb (forallb (not_char "|")) cells = true ->
  cells_of (pipe_row (row_of cells)) = trimmed cells.
Proof.
  intros Hne Hc. unfold cells_of, pipe_row, row_of, trimmed.
  cbn [lit list_ascii_of_string app]. rewrite split_cons, Ascii.eqb_refl.
  rewrite (@split_join_more "|" cells [] Hne Hc).
  change ([] :: cells ++ split "|" []) with ([[]] ++ cells ++ [[]]).
  rewrite !strip_all_app. cbn. now rewrite app_nil_r.
Qed.

Lemma row_ok_parts (cells : list str) :
  row_ok cells = true ->
  item_text (row_of cells) = true /\ cells <> [] /\
  forallb (forallb (not_char "|")) cells = true.
Proof.
  unfold row_ok. intros H. apply andb_true_iff in H. destruct H as [H _].
  apply andb_true_iff in H. destruct H as [H1 H2].
  repeat split; try assumption. now apply item_text_row.
Qed.

Lemma rows_cells : forall rows : list (list str),
  forallb row_ok rows = true ->
  map (fun x => cells_of (pipe_row x)) (map row_of rows) = map trimmed rows /\
  forallb item_text (map row_of rows) = true.
Proof.
  induction rows as [|cs rows IH]; intros H; [split; reflexivity|].
  cbn [forallb] in H. apply andb_true_iff in H. destruct H as [Hc Hr].
  apply row_ok_parts in Hc. destruct Hc as (Hi & Hne & Hb).
  destruct (IH Hr) as [IH1 IH2].
  cbn [map forallb]. rewrite (cells_of_cells Hne Hb), IH1, Hi, IH2. split; reflexivity.
Qed.

(** A block of rows given by their cells. *)
Lemma tables_pass_block (pre : str) (hs : list str) (sep : str) (rows : list (list str))
    (post : str) :
  forallb (not_char "|") pre = true ->
  row_ok hs = true -> item_text sep = true -> forallb row_ok rows = true ->
  stops (is_char "|") post = true ->
  tables_pass (pre ++ (NL :: block (row_of hs :: sep :: map row_of rows)) ++ post) =
  (z <- tables_pass post ;;
   Some (pre ++ [NL] ++ table_html (trimmed hs) (with_cells (map trimmed rows)) ++
         [NL] ++ z)).
Proof.
  intros Hpre Hh Hsep Hrows Hpost.
  apply row_ok_parts in Hh. destruct Hh as (Hi & Hne & Hb).
  destruct (rows_cells rows Hrows) as [Hc Hit].
  assert (Hall : forallb item_text (row_of hs :: sep :: map row_of rows) = true).
  { cbn [forallb]. now rewrite Hi, Hsep, Hit. }
  apply tables_pass_first; try assumption.
  rewrite (convert_table_block _ _ _ Hall), (cells_of_cells Hne Hb), Hc.
  now rewrite build_table_html.
Qed.
(** * The cleanup of lines 133-141, pattern by pattern *)

Lemma lstrip_spaces : forall (a b : str),
  forallb is_space a = true -> lstrip (a ++ b) = lstrip b.
Proof.
  induction a as [|c a IH]; intros b H; [reflexivity|].
  cbn [forallb] in H. apply andb_true_iff in H. destruct H as [Hc Ha].
  cbn [app lstrip]. rewrite Hc. now apply IH.
Qed.

Lemma lstrip_stop (b : str) : stops is_space b = true -> lstrip b = b.
Proof.
  destruct b as [|c b]; [reflexivity|]. cbn [stops lstrip].
  intros H. apply negb_true_iff in H. now rewrite H.
Qed.

Lemma lstrip_split : forall s : str,
  exists sp, s = sp ++ lstrip s /\ forallb is_space sp = true /\
             stops is_space (lstrip s) = true.
Proof.
  induction s as [|c s IH].
  - exists []. repeat split; reflexivity.
  - cbn [lstrip]. destruct (is_space c) eqn:E.
    + destruct IH as (sp & Hs & Hsp & Hst). exists (c :: sp).
      cbn [app forallb]. rewrite E, Hsp. repeat split; [now rewrite <- Hs | exact Hst].
    + exists []. repeat split; try reflexivity. cbn [stops]. now rewrite E.
Qed.

(** After whitespace comes the literal: the text, without its leading
    whitespace, begins with the literal. *)
Lemma after_spaces_lstrip (c : ascii) (p a b : str) :
  is_space c = false -> forallb is_space a = true ->
  starts_with (c :: p) b = true -> starts_with (c :: p) (lstrip (a ++ b)) = true.
Proof.
  intros Hc Ha Hb. rewrite lstrip_spaces by exact Ha.
  rewrite lstrip_stop; [exact Hb|].
  destruct b as [|d b]; [reflexivity|].
  unfold starts_with in Hb. cbn [strip_prefix] in Hb.
  destruct (Ascii.eqb c d) eqn:E; [|discriminate].
  apply Ascii.eqb_eq in E. subst d. cbn [stops]. now rewrite Hc.
Qed.

(** [<p>] and then a pattern all of whose matches are whitespace and a
    literal. *)
Lemma p_kind_not_at (x p' : str) (r : re) (pv : option ascii) (Y : str) :
  after_spaces ("<"%char :: p') r ->
  starts_with ("<"%char :: p') (lstrip Y) = false ->
  match_at (Lit (lit "<p>") ;; r) pv (lit "<p>" ++ Y) = None.
Proof.
  intros Hr Hs. apply match_at_None. rewrite m_Seq, m_Lit_app.
  destruct (m r Some _) as [q|] eqn:H; [|reflexivity]. exfalso.
  apply Hr in H. cbn [rest] in H. destruct H as (a & b & E & Ha & Hb).
  rewrite E in Hs. rewrite after_spaces_lstrip in Hs; [discriminate | reflexivity | | ];
    assumption.
Qed.

Lemma greedy_spaces (k : pos -> option pos) (pv : option ascii) (sp tl : str)
    (cs : list (nat * str)) (q : pos) :
  forallb is_space sp = true -> stops is_space tl = true ->
  k (mkPos (prev_after sp pv) tl cs) = Some q ->
  m spaces k (mkPos pv (sp ++ tl) cs) = Some q.
Proof.
  intros Hsp Htl Hk. unfold spaces. rewrite m_Star_Chr. cbn [prev rest caps].
  now apply greedy_run.
Qed.

(** [<p>(\s*tag)] where whitespace and the tag follow [<p>]. *)
Lemma p_open_at (tag : string) (p' : str) (pv : option ascii) (sp Z : str) :
  lit tag = "<"%char :: p' -> forallb is_space sp = true ->
  match_at (re_p_open tag) pv ((lit "<p>" ++ sp ++ lit tag) ++ Z) =
  Some (mkMobj (lit "<p>" ++ sp ++ lit tag) [(1, sp ++ lit tag)] 1).
Proof.
  intros Ht Hsp.
  assert (H : m (re_p_open tag) Some (mkPos pv ((lit "<p>" ++ sp ++ lit tag) ++ Z) []) =
              Some (mkPos (prev_after (lit tag) (prev_after sp (prev_after (lit "<p>") pv)))
                          Z [(1, sp ++ lit tag)])).
  { unfold re_p_open. rewrite <- !app_assoc. rewrite m_Seq, m_Lit_app, m_Grp, m_Seq.
    apply greedy_spaces; [exact Hsp | rewrite Ht; reflexivity |].
    rewrite m_Lit_app. unfold set_cap, consumed. cbn [prev rest caps].
    rewrite app_assoc, firstn_app_exact. reflexivity. }
  apply match_at_Some in H. rewrite H. unfold re_p_open. cbn [ngroups].
  now rewrite !ngroups_Lit.
Qed.

(** [(tag)\s*</p>] where whitespace and [</p>] follow the tag. *)
Lemma close_p_at (tag : string) (pv : option ascii) (sp Z : str) :
  forallb is_space sp = true ->
  match_at (re_close_p tag) pv ((lit tag ++ sp ++ lit "</p>") ++ Z) =
  Some (mkMobj (lit tag ++ sp ++ lit "</p>") [(1, lit tag)] 1).
Proof.
  intros Hsp.
  assert (H : m (re_close_p tag) Some (mkPos pv ((lit tag ++ sp ++ lit "</p>") ++ Z) []) =
              Some (mkPos (prev_after (lit "</p>") (prev_after sp (prev_after (lit tag) pv)))
                          Z [(1, lit tag)])).
  { unfold re_close_p. rewrite <- !app_assoc. rewrite m_Seq, m_Grp, m_Lit_app, m_Seq.
    unfold set_cap, consumed. cbn [prev rest caps].
    apply greedy_spaces; [exact Hsp | reflexivity |].
    rewrite m_Lit_app. cbn [prev rest caps].
    rewrite firstn_app_exact. reflexivity. }
  apply match_at_Some in H. rewrite H. unfold re_close_p. cbn [ngroups].
  now rewrite !ngroups_Lit.
Qed.

Lemma close_p_not_at (tag : string) (pv : option ascii) (W : str) :
  starts_with (lit "</p>") (lstrip W) = false ->
  match_at (re_close_p tag) pv (lit tag ++ W) = None.
Proof.
  intros Hs. apply match_at_None. unfold re_close_p.
  rewrite m_Seq, m_Grp, m_Lit_app.
  destruct (m (spaces ;; Lit (lit "</p>")) _ _) as [q|] eqn:H; [|reflexivity]. exfalso.
  apply after_spaces_Lit in H. unfold set_cap in H. cbn [rest] in H.
  destruct H as (a & b & E & Ha & Hb).
  rewrite E in Hs.
  rewrite (@after_spaces_lstrip "<" (lit "/p>")) in Hs; [discriminate | reflexivity | | ];
    assumption.
Qed.

Lemma needs_p (r : re) : needs (lit "<p>") (Lit (lit "<p>") ;; r).
Proof. apply needs_Seq, needs_Lit. Qed.

Lemma needs_close_p (tag : string) : needs (lit tag) (re_close_p tag).
Proof. unfold re_close_p. apply needs_Seq, needs_Grp, needs_Lit. Qed.

(** A pattern [<p>...] that does not match at the opening [<p>]. *)
Lemma p_kind_none (p' : str) (r : re) (t : template) (o : bool) (Y : str) :
  forallb (titem_ok (ngroups (Lit (lit "<p>") ;; r))) t = true ->
  after_spaces ("<"%char :: p') r ->
  clear (lit "<p>") Y = true ->
  starts_with ("<"%char :: p') (lstrip Y) = false ->
  re_sub (Lit (lit "<p>") ;; r) t (p_if o ++ Y) = Some (p_if o ++ Y).
Proof.
  intros Hv Hr Hc Hs. destruct o; cbn [p_if app].
  - rewrite re_sub_valid by exact Hv.
    apply (@sub_loop_site_none "<" (lit "p>") _ _ [] Y None (needs_p r) eq_refl).
    + apply clear_app; [reflexivity | exact Hc].
    + now apply p_kind_not_at with (p' := p').
  - apply re_sub_needs with (p := lit "<p>"); [exact Hv | apply needs_p |].
    now apply clear_occurs.
Qed.

(** [<p>(\s*tag)]: the opening [<p>] goes where whitespace and the tag
    follow it. *)
Lemma p_open_step (tag : string) (p' : str) (o : bool) (Y : str) :
  lit tag = "<"%char :: p' ->
  clear (lit "<p>") Y = true ->
  re_sub (re_p_open tag) tmpl_g1 (p_if o ++ Y) =
  Some (p_if (o && negb (starts_with (lit tag) (lstrip Y))) ++ Y).
Proof.
  intros Ht Hc.
  assert (Hv : forallb (titem_ok (ngroups (re_p_open tag))) tmpl_g1 = true).
  { unfold re_p_open. cbn [ngroups]. now rewrite !ngroups_Lit. }
  destruct (starts_with (lit tag) (lstrip Y)) eqn:Hs.
  - destruct o; cbn [andb negb p_if app].
    + destruct (lstrip_split Y) as (sp & HY & Hsp & _).
      unfold starts_with in Hs.
      destruct (strip_prefix (lit tag) (lstrip Y)) as [Z|] eqn:Ez; [|discriminate].
      apply strip_prefix_Some in Ez. rewrite Ez in HY.
      rewrite re_sub_valid by exact Hv.
      rewrite (@sub_loop_site_hit "<" (lit "p>") (re_p_open tag) _ [] Y
                 (lit "<p>" ++ sp ++ lit tag) Z (sp ++ lit tag)
                 (mkMobj (lit "<p>" ++ sp ++ lit tag) [(1, sp ++ lit tag)] 1) None).
      * cbn [app]. now rewrite <- app_assoc, <- HY.
      * apply needs_p.
      * reflexivity.
      * apply clear_app; [reflexivity | exact Hc].
      * rewrite HY at 1. rewrite <- !app_assoc. reflexivity.
      * discriminate.
      * now apply (@p_open_at tag p').
      * reflexivity.
      * cbn [tmpl_g1 expand m_caps assoc Nat.eqb]. now rewrite app_nil_r.
    + apply re_sub_needs with (p := lit "<p>"); [exact Hv | apply needs_p |].
      now apply clear_occurs.
  - rewrite andb_true_r. unfold re_p_open in *.
    apply (@p_kind_none p'); [exact Hv | | exact Hc | now rewrite <- Ht].
    rewrite <- Ht. apply after_spaces_Grp, after_spaces_Lit.
Qed.

(** A pattern [(tag)\s*</p>] on a text without the tag. *)
Lemma close_absent (tag : string) (c : ascii) (p' : str) (X : str) :
  lit tag = c :: p' -> clear (lit tag) X = true ->
  re_sub (re_close_p tag) tmpl_g1 X = Some X.
Proof.
  intros Ht Hc. apply re_sub_needs with (p := lit tag);
    [unfold re_close_p; cbn [ngroups]; now rewrite !ngroups_Lit | apply needs_close_p |].
  rewrite Ht in *. now apply clear_occurs.
Qed.

Lemma lstrip_not_blank : forall (W Z : str),
  blank W = false -> forallb (not_char "<") W = true ->
  starts_with (lit "</p>") (lstrip (W ++ Z)) = false.
Proof.
  induction W as [|c W IH]; intros Z Hb Hlt; [discriminate|].
  cbn [forallb] in Hlt. apply andb_true_iff in Hlt. destruct Hlt as [Hc Hlt].
  unfold blank in *. cbn [forallb] in Hb. cbn [app lstrip].
  destruct (is_space c); cbn [andb] in Hb.
  - now apply IH.
  - unfold starts_with. cbn [lit list_ascii_of_string strip_prefix].
    unfold not_char in Hc. apply negb_true_iff in Hc. now rewrite Hc.
Qed.

(** [(tag)\s*</p>] on a text that has the tag once, right before what
    the closing [</p>] follows: whitespace and the [</p>] go when there
    is only whitespace between them and the tag. *)
Lemma close_step (tag : string) (p' : str) (A W : str) (c : bool) :
  lit tag = "<"%char :: p' ->
  clear (lit tag) A = true -> clear (lit tag) (p' ++ p_end c W) = true ->
  forallb (not_char "<") W = true ->
  re_sub (re_close_p tag) tmpl_g1 (A ++ lit tag ++ p_end c W) =
  Some (A ++ lit tag ++ p_end (c && negb (blank W)) W).
Proof.
  intros Ht HA HB HW.
  assert (Hv : forallb (titem_ok (ngroups (re_close_p tag))) tmpl_g1 = true).
  { unfold re_close_p. cbn [ngroups]. now rewrite !ngroups_Lit. }
  rewrite re_sub_valid by exact Hv.
  pose proof (needs_close_p tag) as Hn.
  rewrite Ht in HA, HB, Hn. 
  destruct c; [destruct (blank W) eqn:Hb|]; cbn [andb negb p_end] in *.
  - rewrite Ht.
    rewrite (@sub_loop_site_hit "<" p' (re_close_p tag) _ A (W ++ lit "</p>")
               (("<"%char :: p') ++ W ++ lit "</p>") [] (lit tag)
               (mkMobj (lit tag ++ W ++ lit "</p>") [(1, lit tag)] 1) None Hn HA HB).
    + now rewrite Ht.
    + now rewrite app_nil_r.
    + discriminate.
    + rewrite <- Ht. now apply close_p_at.
    + now rewrite Ht.
    + cbn [tmpl_g1 expand m_caps assoc Nat.eqb]. now rewrite app_nil_r.
  - rewrite Ht.
    apply (@sub_loop_site_none "<" p' (re_close_p tag) _ A (W ++ lit "</p>") None Hn HA HB).
    rewrite <- Ht. apply close_p_not_at. now apply lstrip_not_blank.
  - rewrite Ht.
    apply (@sub_loop_site_none "<" p' (re_close_p tag) _ A [] None Hn HA HB).
    rewrite <- Ht. now apply close_p_not_at.
Qed.

Lemma starts_lstrip (p' : str) : forall (pre Z : str),
  forallb (not_char "<") pre = true -> stops is_space Z = true ->
  starts_with ("<"%char :: p') (lstrip (pre ++ Z)) =
  blank pre && starts_with ("<"%char :: p') Z.
Proof.
  induction pre as [|c pre IH]; intros Z Hlt Hz.
  - cbn [app blank forallb andb]. now rewrite lstrip_stop.
  - cbn [forallb] in Hlt. apply andb_true_iff in Hlt. destruct Hlt as [Hc Hlt].
    unfold blank in *. cbn [app lstrip forallb].
    destruct (is_space c); cbn [andb]; [now apply IH|].
    unfold starts_with. cbn [strip_prefix].
    unfold not_char in Hc. apply negb_true_iff in Hc. now rewrite Hc.
Qed.

(** The opening [<p>] before a block: a pattern [<p>...] for another
    tag leaves it, the pattern [<p>(\s*tag)] for the tag of the block
    takes it when only whitespace stands between them. *)
Lemma p_kind_other (p' : str) (r : re) (t : template) (o : bool) (pre Z : str) :
  forallb (titem_ok (ngroups (Lit (lit "<p>") ;; r))) t = true ->
  after_spaces ("<"%char :: p') r ->
  forallb (not_char "<") pre = true -> stops is_space Z = true ->
  clear (lit "<p>") Z = true ->
  starts_with ("<"%char :: p') Z = false ->
  re_sub (Lit (lit "<p>") ;; r) t (p_if o ++ pre ++ Z) = Some (p_if o ++ pre ++ Z).
Proof.
  intros Hv Hr Hlt Hz Hc Hs. apply (@p_kind_none p'); try assumption.
  - apply clear_app; [now apply (@clear_free "<" (lit "p>")) | exact Hc].
  - rewrite starts_lstrip by assumption. rewrite Hs. apply andb_false_r.
Qed.

Lemma p_open_own (tag : string) (p' : str) (o : bool) (pre Z : str) :
  lit tag = "<"%char :: p' ->
  forallb (not_char "<") pre = true -> stops is_space Z = true ->
  clear (lit "<p>") Z = true ->
  starts_with (lit tag) Z = true ->
  re_sub (re_p_open tag) tmpl_g1 (p_if o ++ pre ++ Z) =
  Some (p_if (o && negb (blank pre)) ++ pre ++ Z).
Proof.
  intros Ht Hlt Hz Hc Hs. rewrite (@p_open_step tag p' o (pre ++ Z) Ht)
    by (apply clear_app; [now apply (@clear_free "<" (lit "p>")) | exact Hc]).
  rewrite Ht in *. rewrite starts_lstrip by assumption. rewrite Hs.
  now rewrite andb_true_r.
Qed.

Lemma p_open_other (tag : string) (p' : str) (o : bool) (pre Z : str) :
  lit tag = "<"%char :: p' ->
  forallb (not_char "<") pre = true -> stops is_space Z = true ->
  clear (lit "<p>") Z = true ->
  starts_with (lit tag) Z = false ->
  re_sub (re_p_open tag) tmpl_g1 (p_if o ++ pre ++ Z) = Some (p_if o ++ pre ++ Z).
Proof.
  intros Ht Hlt Hz Hc Hs. rewrite (@p_open_step tag p' o (pre ++ Z) Ht)
    by (apply clear_app; [now apply (@clear_free "<" (lit "p>")) | exact Hc]).
  rewrite Ht in *. rewrite starts_lstrip by assumption. rewrite Hs.
  now rewrite andb_false_r, andb_true_r.
Qed.

Lemma clear_p_if (p : str) (o : bool) : clear p (lit "<p>") = true -> clear p (p_if o) = true.
Proof. intros H. now destruct o. Qed.

Lemma clear_p_end (c : ascii) (p : str) (b : bool) (W : str) :
  clear (c :: p) (lit "</p>") = true -> forallb (not_char c) W = true ->
  clear (c :: p) (p_end b W) = true.
Proof.
  intros H Hw. destruct b; [|reflexivity]. cbn [p_end].
  apply clear_app; [now apply clear_free | exact H].
Qed.

Lemma tame_parts (x : str) :
  tame x = true ->
  clear (lit "<p>") x = true /\ clear (lit "</h") x = true /\
  clear (lit "</pre>") x = true /\ clear (lit "</ul>") x = true /\
  clear (lit "</ol>") x = true.
Proof.
  unfold tame. intros H. repeat (apply andb_true_iff in H; destruct H as [H ?]).
  repeat split; assumption.
Qed.

Lemma tame_intro (x : str) :
  clear (lit "<p>") x = true -> clear (lit "</h") x = true ->
  clear (lit "</pre>") x = true -> clear (lit "</ul>") x = true ->
  clear (lit "</ol>") x = true -> tame x = true.
Proof. unfold tame. intros -> -> -> -> ->. reflexivity. Qed.

(** The closing [</p>] after a block: [(tag)\s*</p>] for the closing tag
    of the block takes it, and the whitespace, when only whitespace
    stands between them; for another tag it leaves the text. *)
Lemma close_own (tag : string) (p' : str) (o c : bool) (pre M post : str) :
  lit tag = "<"%char :: p' ->
  clear (lit tag) (lit "<p>") = true -> clear (lit tag) (lit "</p>") = true ->
  clear (lit tag) p' = true ->
  forallb (not_char "<") pre = true -> forallb (not_char "<") post = true ->
  clear (lit tag) M = true ->
  re_sub (re_close_p tag) tmpl_g1 (p_if o ++ pre ++ M ++ lit tag ++ p_end c post) =
  Some (p_if o ++ pre ++ M ++ lit tag ++ p_end (c && negb (blank post)) post).
Proof.
  intros Ht Hp Hq Hp' Hpre Hpost HM.
  pose proof (@close_step tag p' (p_if o ++ pre ++ M) post c Ht) as H.
  rewrite <- !app_assoc in H. apply H.
  - repeat apply clear_app; [now apply clear_p_if | | exact HM].
    rewrite Ht. now apply clear_free.
  - apply clear_app; [exact Hp'|]. rewrite Ht in *. now apply clear_p_end.
  - exact Hpost.
Qed.

Lemma close_other (tag : string) (p' : str) (o c : bool) (pre M post : str) :
  lit tag = "<"%char :: p' ->
  clear (lit tag) (lit "<p>") = true -> clear (lit tag) (lit "</p>") = true ->
  forallb (not_char "<") pre = true -> forallb (not_char "<") post = true ->
  clear (lit tag) M = true ->
  re_sub (re_close_p tag) tmpl_g1 (p_if o ++ pre ++ M ++ p_end c post) =
  Some (p_if o ++ pre ++ M ++ p_end c post).
Proof.
  intros Ht Hp Hq Hpre Hpost HM. apply (@close_absent tag "<" p' _ Ht).
  repeat apply clear_app; [now apply clear_p_if | | exact HM | ].
  - rewrite Ht. now apply clear_free.
  - rewrite Ht in *. now apply clear_p_end.
Qed.

Lemma heading_close_none (o c : bool) (pre M post : str) :
  forallb (not_char "<") pre = true -> forallb (not_char "<") post = true ->
  clear (lit "</h") M = true ->
  re_sub re_heading_p tmpl_g1 (p_if o ++ pre ++ M ++ p_end c post) =
  Some (p_if o ++ pre ++ M ++ p_end c post).
Proof.
  intros Hpre Hpost HM. apply re_sub_needs with (p := lit "</h");
    [reflexivity | apply needs_Seq, needs_Grp, needs_Seq, needs_Lit |].
  apply (@clear_occurs "<" (lit "/h")).
  repeat apply clear_app; [now apply clear_p_if | | exact HM | ].
  - now apply (@clear_free "<" (lit "/h")).
  - now apply (@clear_p_end "<" (lit "/h")).
Qed.

(** Lines 133-141 on a paragraph that holds one block. *)
Lemma cleanup_block (k : block_kind) (pre mid post : str) :
  forallb (not_char "<") pre = true -> forallb (not_char "<") post = true ->
  tame mid = true ->
  cleanup_pass (lit "<p>" ++ pre ++ lit (open_lit k) ++ mid ++ lit (close_lit k) ++
                post ++ lit "</p>") =
  Some (above pre ++ lit (open_lit k) ++ mid ++ lit (close_lit k) ++ below post).
Proof.
  intros Hpre Hpost Hm. apply tame_parts in Hm. destruct Hm as (M1 & M2 & M3 & M4 & M5).
  change (lit "<p>" ++ pre ++ lit (open_lit k) ++ mid ++ lit (close_lit k) ++
          post ++ lit "</p>")
    with (p_if true ++ pre ++ lit (open_lit k) ++ mid ++ lit (close_lit k) ++
          p_end true post).
  assert (Hs : forall c, stops is_space
                 (lit (open_lit k) ++ mid ++ lit (close_lit k) ++ p_end c post) = true)
    by (intros c; destruct k; reflexivity).
  assert (Hc : forall c, clear (lit "<p>")
                 (lit (open_lit k) ++ mid ++ lit (close_lit k) ++ p_end c post) = true).
  { intros c. repeat apply clear_app; try assumption; try (destruct k; reflexivity).
    now apply (@clear_p_end "<" (lit "p>")). }
  assert (Hall : forall (tag : string) (p' : str) (o c : bool),
            lit tag = "<"%char :: p' ->
            clear (lit tag) (lit "<p>") = true -> clear (lit tag) (lit "</p>") = true ->
            clear (lit tag) (lit (open_lit k)) = true -> clear (lit tag) mid = true ->
            clear (lit tag) (lit (close_lit k)) = true ->
            re_sub (re_close_p tag) tmpl_g1
              (p_if o ++ pre ++ lit (open_lit k) ++ mid ++ lit (close_lit k) ++ p_end c post) =
            Some (p_if o ++ pre ++ lit (open_lit k) ++ mid ++ lit (close_lit k) ++
                  p_end c post)).
  { intros tag p' o c Ht H1 H2 H3 H4 H5.
    pose proof (@close_other tag p' o c pre
                  (lit (open_lit k) ++ mid ++ lit (close_lit k)) post Ht H1 H2 Hpre Hpost) as H.
    rewrite <- !app_assoc in H. apply H. now repeat apply clear_app. }
  assert (Hown : forall (p' : str) (o c : bool),
            lit (close_lit k) = "<"%char :: p' ->
            clear (lit (close_lit k)) (lit "<p>") = true ->
            clear (lit (close_lit k)) (lit "</p>") = true ->
            clear (lit (close_lit k)) p' = true ->
            clear (lit (close_lit k)) (lit (open_lit k)) = true ->
            clear (lit (close_lit k)) mid = true ->
            re_sub (re_close_p (close_lit k)) tmpl_g1
              (p_if o ++ pre ++ lit (open_lit k) ++ mid ++ lit (close_lit k) ++ p_end c post) =
            Some (p_if o ++ pre ++ lit (open_lit k) ++ mid ++ lit (close_lit k) ++
                  p_end (c && negb (blank post)) post)).
  { intros p' o c Ht H1 H2 H3 H4 H5.
    pose proof (@close_own (close_lit k) p' o c pre (lit (open_lit k) ++ mid) post
                  Ht H1 H2 H3 Hpre Hpost) as H.
    rewrite <- !app_assoc in H. apply H. now apply clear_app. }
  unfold cleanup_pass, re_empty_par, re_p_heading.
  rewrite (@p_kind_other (lit "/p>") (spaces ;; Lit (lit "</p>")) [] true pre _
             eq_refl (after_spaces_Lit _) Hpre (Hs true) (Hc true))
    by (destruct k; reflexivity).
  cbn [bind].
  rewrite (@p_kind_other (lit "h")
             (Grp 1 (spaces ;; Lit (lit "<h") ;; Chr (in_range 49 54))) tmpl_g1 true pre _
             eq_refl (after_spaces_Grp 1 (after_spaces_Lit_more _ _)) Hpre (Hs true) (Hc true))
    by (destruct k; reflexivity).
  cbn [bind].
  pose proof (@heading_close_none true true pre
                (lit (open_lit k) ++ mid ++ lit (close_lit k)) post Hpre Hpost) as Hh.
  rewrite <- !app_assoc in Hh. rewrite Hh
    by (repeat apply clear_app; try assumption; destruct k; reflexivity).
  clear Hh. cbn [bind].
  destruct k; cbn [open_lit close_lit] in *.
  - rewrite (@p_open_own "<pre" (lit "pre") true pre _ eq_refl Hpre (Hs true) (Hc true) eq_refl).
    cbn [bind].
    rewrite (Hown (lit "/pre>") _ true eq_refl eq_refl eq_refl eq_refl eq_refl M3).
    cbn [bind].
    rewrite (@p_open_other "<ul" (lit "ul") _ pre _ eq_refl Hpre (Hs _) (Hc _) eq_refl).
    cbn [bind].
    rewrite (Hall "</ul>"%string (lit "/ul>") _ _ eq_refl eq_refl eq_refl eq_refl M4 eq_refl).
    cbn [bind].
    rewrite (@p_open_other "<ol" (lit "ol") _ pre _ eq_refl Hpre (Hs _) (Hc _) eq_refl).
    cbn [bind].
    rewrite (Hall "</ol>"%string (lit "/ol>") _ _ eq_refl eq_refl eq_refl eq_refl M5 eq_refl).
    unfold above, below. now destruct (blank pre), (blank post).
  - rewrite (@p_open_other "<pre" (lit "pre") _ pre _ eq_refl Hpre (Hs _) (Hc _) eq_refl).
    cbn [bind].
    rewrite (Hall "</pre>"%string (lit "/pre>") _ _ eq_refl eq_refl eq_refl eq_refl M3 eq_refl).
    cbn [bind].
    rewrite (@p_open_own "<ul" (lit "ul") true pre _ eq_refl Hpre (Hs true) (Hc true) eq_refl).
    cbn [bind].
    rewrite (Hown (lit "/ul>") _ true eq_refl eq_refl eq_refl eq_refl eq_refl M4).
    cbn [bind].
    rewrite (@p_open_other "<ol" (lit "ol") _ pre _ eq_refl Hpre (Hs _) (Hc _) eq_refl).
    cbn [bind].
    rewrite (Hall "</ol>"%string (lit "/ol>") _ _ eq_refl eq_refl eq_refl eq_refl M5 eq_refl).
    unfold above, below. now destruct (blank pre), (blank post).
  - rewrite (@p_open_other "<pre" (lit "pre") _ pre _ eq_refl Hpre (Hs _) (Hc _) eq_refl).
    cbn [bind].
    rewrite (Hall "</pre>"%string (lit "/pre>") _ _ eq_refl eq_refl eq_refl eq_refl M3 eq_refl).
    cbn [bind].
    rewrite (@p_open_other "<ul" (lit "ul") _ pre _ eq_refl Hpre (Hs _) (Hc _) eq_refl).
    cbn [bind].
    rewrite (Hall "</ul>"%string (lit "/ul>") _ _ eq_refl eq_refl eq_refl eq_refl M4 eq_refl).
    cbn [bind].
    rewrite (@p_open_own "<ol" (lit "ol") true pre _ eq_refl Hpre (Hs true) (Hc true) eq_refl).
    cbn [bind].
    rewrite (Hown (lit "/ol>") _ true eq_refl eq_refl eq_refl eq_refl eq_refl M5).
    unfold above, below. now destruct (blank pre), (blank post).
Qed.
(** * A block between two texts *)

Lemma split_app_sep (sep : ascii) (u v : str) :
  split sep (u ++ sep :: v) = split sep u ++ split sep v.
Proof.
  rewrite <- (join_split sep u) at 1.
  apply split_join_more; [apply split_not_nil | apply split_fields].
Qed.


Lemma ends_line_inv (s : str) :
  ends_line s = true -> s = [] \/ exists s', s = s' ++ [NL].
Proof.
  unfold ends_line. intros H. destruct (rev s) as [|c r] eqn:E.
  - left. apply (f_equal (@rev ascii)) in E. now rewrite rev_involutive in E.
  - right. exists (rev r). apply Ascii.eqb_eq in H. subst c.
    apply (f_equal (@rev ascii)) in E. now rewrite rev_involutive in E.
Qed.

Section Lines.
Variable Q : str -> bool.



End Lines.

Lemma starts_two (d c : ascii) (a x b : str) :
  not_char NL c = true ->
  starts_with [NL; NL] ((d :: a) ++ (c :: x) ++ b) = starts_with [NL; NL] (d :: a).
Proof.
  intros Hc. unfold not_char in Hc. apply negb_true_iff in Hc.
  unfold starts_with. destruct a as [|e a]; cbn [app strip_prefix].
  - rewrite Hc. now destruct (Ascii.eqb NL d).
  - destruct (Ascii.eqb NL d); [|reflexivity]. now destruct (Ascii.eqb NL e).
Qed.

(** A blank line on either side of a piece of a line. *)
Lemma no_blank_mid (x : str) : forall (a b : str),
  x <> [] -> forallb (not_char NL) x = true ->
  occurs [NL; NL] (a ++ x ++ b) = occurs [NL; NL] a || occurs [NL; NL] b.
Proof.
  intros a b Hne Hx. induction a as [|d a IH].
  - cbn [app]. now rewrite occurs_free by exact Hx.
  - destruct x as [|c x]; [congruence|].
    cbn [forallb] in Hx. apply andb_true_iff in Hx. destruct Hx as [Hc Hx].
    change (occurs [NL; NL] ((d :: a) ++ (c :: x) ++ b))
      with (starts_with [NL; NL] ((d :: a) ++ (c :: x) ++ b) ||
            occurs [NL; NL] (a ++ (c :: x) ++ b)).
    rewrite starts_two by exact Hc. rewrite IH.
    cbn [occurs]. now rewrite orb_assoc.
Qed.



(** Lines 73-82 on a text without backtick, asterisk and opening
    bracket. *)
Lemma inline_pass_free (s : str) : inline_free s = true -> inline_pass s = Some s.
Proof.
  intros H. unfold inline_pass.
  destruct (@emph_link_id s (@inline_free_not "*" s eq_refl H)
              (@inline_free_not "[" s eq_refl H)) as (Hb & Hi & Hl).
  unfold re_inline_code.
  rewrite (@re_sub_free "`" []) by (try reflexivity; now apply (@inline_free_not "`")).
  cbn [bind]. rewrite Hb. cbn [bind]. rewrite Hi. cbn [bind]. exact Hl.
Qed.

Lemma plain_inline_free (s : str) : forallb plain_char s = true -> inline_free s = true.
Proof.
  unfold inline_free. apply forallb_impl. intros c H. unfold plain_char in H.
  apply andb_true_iff in H. destruct H as [_ H]. apply negb_true_iff in H.
  unfold inline_char. apply negb_true_iff.
  repeat (apply orb_false_iff in H; destruct H as [H ?]).
  now repeat (apply orb_false_iff; split).
Qed.

Lemma forallb_framed (f : ascii -> bool) (pre B post : str) :
  forallb f (lit "<p>") = true -> forallb f (lit "</p>") = true ->
  forallb f pre = true -> forallb f B = true -> forallb f post = true ->
  forallb f (above pre ++ B ++ below post) = true.
Proof.
  intros Hp Hq H1 H2 H3. unfold above, below.
  destruct (blank pre), (blank post);
    rewrite ?forallb_app, ?Hp, ?Hq, ?H1, ?H2, ?H3; reflexivity.
Qed.

(** Lines 129-183 on a block between two texts. *)
Lemma finish_block (k : block_kind) (pre mid post : str) :
  forallb plain_char pre = true -> forallb plain_char post = true ->
  tame mid = true -> forallb is_ascii mid = true -> forallb (not_char "|") mid = true ->
  occurs [NL; NL] (pre ++ lit (open_lit k) ++ mid ++ lit (close_lit k) ++ post) = false ->
  (html <- paragraphs_pass (pre ++ lit (open_lit k) ++ mid ++ lit (close_lit k) ++ post) ;;
   html <- cleanup_pass html ;;
   html <- badges_pass html ;;
   tables_pass html) =
  Some (above pre ++ lit (open_lit k) ++ mid ++ lit (close_lit k) ++ below post).
Proof.
  intros Hpre Hpost Ht Ha Hb Hn.
  rewrite (paragraphs_pass_plain _ Hn). cbn [bind].
  rewrite <- !app_assoc.
  rewrite (@cleanup_block k pre mid post) by (try exact Ht; now apply plain_not).
  cbn [bind].
  assert (E : above pre ++ lit (open_lit k) ++ mid ++ lit (close_lit k) ++ below post =
              above pre ++ (lit (open_lit k) ++ mid ++ lit (close_lit k)) ++ below post)
    by now rewrite <- !app_assoc.
  rewrite E.
  rewrite badges_pass_ascii.
  - cbn [bind]. rewrite tables_pass_plain; [reflexivity|].
    apply forallb_framed; try reflexivity; try (now apply plain_not).
    rewrite !forallb_app, Hb. now destruct k.
  - apply forallb_framed; try reflexivity; try (now apply plain_char_ascii).
    rewrite !forallb_app, Ha. now destruct k.
Qed.

(** ** A fenced block between two texts *)




(** * A run of items between two texts *)

Lemma join_app (sep : str) : forall (A B : list str),
  A <> [] -> B <> [] -> join sep (A ++ B) = join sep A ++ sep ++ join sep B.
Proof.
  induction A as [|x A IH]; intros B HA HB; [congruence|].
  destruct A as [|y A].
  - destruct B as [|b B]; [congruence|]. reflexivity.
  - change ((x :: y :: A) ++ B) with (x :: y :: (A ++ B)).
    rewrite !join_cons. change (y :: A ++ B) with ((y :: A) ++ B).
    rewrite IH by (discriminate || exact HB). now rewrite <- !app_assoc.
Qed.

Lemma split_before (pre w : str) :
  ends_line pre = true -> split NL (pre ++ w) = lines_before pre ++ split NL w.
Proof.
  intros He. unfold lines_before. destruct (ends_line_inv pre He) as [-> | [p ->]].
  - reflexivity.
  - rewrite <- app_assoc. cbn [app]. rewrite !split_app_sep.
    change (split NL []) with [@nil ascii]. now rewrite removelast_last.
Qed.

Lemma join_before (pre : str) (B : list str) :
  ends_line pre = true -> B <> [] ->
  join [NL] (lines_before pre ++ B) = pre ++ join [NL] B.
Proof.
  intros He HB. unfold lines_before. destruct (ends_line_inv pre He) as [-> | [p ->]].
  - reflexivity.
  - rewrite split_app_sep. change (split NL []) with [@nil ascii].
    rewrite removelast_last, join_app by (apply split_not_nil || exact HB).
    rewrite (join_split NL p), <- app_assoc. reflexivity.
Qed.

Lemma split_after (x post : str) :
  starts_line post = true -> split NL (x ++ post) = split NL x ++ lines_after post.
Proof.
  intros Hs. unfold lines_after. destruct post as [|c q].
  - now rewrite !app_nil_r.
  - cbn [starts_line] in Hs. apply Ascii.eqb_eq in Hs. subst c.
    rewrite split_app_sep, split_cons, Ascii.eqb_refl. reflexivity.
Qed.

Lemma join_after (A : list str) (post : str) :
  starts_line post = true -> A <> [] ->
  join [NL] (A ++ lines_after post) = join [NL] A ++ post.
Proof.
  intros Hs HA. unfold lines_after. destruct post as [|c q].
  - now rewrite !app_nil_r.
  - cbn [starts_line] in Hs. apply Ascii.eqb_eq in Hs. subst c.
    rewrite split_cons, Ascii.eqb_refl. cbn [List.tl].
    rewrite join_app by (apply split_not_nil || exact HA).
    now rewrite (join_split NL q).
Qed.

Lemma forallb_removelast {A : Type} (f : A -> bool) : forall l : list A,
  forallb f l = true -> forallb f (removelast l) = true.
Proof.
  induction l as [|x l IH]; intros H; [reflexivity|].
  cbn [forallb] in H. apply andb_true_iff in H. destruct H as [Hx Hl].
  destruct l as [|y l]; [reflexivity|].
  change (removelast (x :: y :: l)) with (x :: removelast (y :: l)).
  cbn [forallb]. now rewrite Hx, IH.
Qed.

Lemma forallb_tl {A : Type} (f : A -> bool) (l : list A) :
  forallb f l = true -> forallb f (List.tl l) = true.
Proof.
  destruct l as [|x l]; [reflexivity|]. cbn [forallb List.tl]. intros H.
  apply andb_true_iff in H. tauto.
Qed.

(** The loop of the list pass on a run of ordered items between lines
    that are no items. *)
Lemma ordered_between (Lp Lq : list str) (items : list (str * str)) :
  items <> [] -> forallb ordered_item items = true ->
  forallb is_other Lp = true -> forallb is_other Lq = true ->
  list_lines (Lp ++ map item_line items ++ Lq) =
  Some (Lp ++ (lit "<ol>" :: map item_li items ++ [lit "</ol>"]) ++ Lq).
Proof.
  intros Hne Hi Hp Hq.
  rewrite (@list_lines_restart Lp _ Lp) by (now rewrite for_each_is_other).
  assert (H : list_lines (map item_line items ++ Lq) =
              Some ((lit "<ol>" :: map item_li items ++ [lit "</ol>"]) ++ Lq)).
  { unfold list_lines. rewrite for_each_app.
    unfold item_line. rewrite (ordered_run Hne Hi). cbn [bind].
    destruct Lq as [|l Lq].
    - cbn [for_each truth closing_tag]. now rewrite app_nil_r.
    - cbn [forallb] in Hq. apply andb_true_iff in Hq. destruct Hq as [Hl Hq].
      cbn [for_each]. rewrite (list_step_is_other IL_ol _ l Hl).
      cbn [bind truth closing_tag]. rewrite (for_each_is_other _ _ Hq).
      cbn [truth]. unfold ol_tag, item_li.
      rewrite <- ?app_assoc. cbn [app]. rewrite <- ?app_assoc. reflexivity. }
  rewrite H. reflexivity.
Qed.

Lemma item_line_no_NL (items : list (str * str)) :
  forallb ordered_item items = true ->
  forallb (forallb (not_char NL)) (map item_line items) = true.
Proof.
  induction items as [|it items IH]; intros H; [reflexivity|].
  cbn [forallb] in H. apply andb_true_iff in H. destruct H as [Hit H].
  apply ordered_item_ok in Hit. destruct Hit as (_ & Hd & _ & Ht).
  cbn [map forallb]. rewrite (IH H), andb_true_r.
  now apply ordered_line_no_NL.
Qed.

(** Lines 85-126 on a run of ordered items between two texts without
    items. *)
Lemma lists_pass_ordered (pre post : str) (items : list (str * str)) :
  items <> [] -> forallb ordered_item items = true ->
  ends_line pre = true -> starts_line post = true ->
  forallb (fun l => negb (list_line l)) (split NL pre) = true ->
  forallb (fun l => negb (list_line l)) (split NL post) = true ->
  lists_pass (pre ++ join [NL] (map item_line items) ++ post) =
  Some (pre ++ join [NL] (lit "<ol>" :: map item_li items ++ [lit "</ol>"]) ++ post).
Proof.
  intros Hne Hi Ep Es Hp Hq.
  assert (Hm : map item_line items <> []) by (destruct items; [congruence | discriminate]).
  unfold lists_pass.
  rewrite (split_before pre _ Ep), (split_after _ post Es).
  rewrite (split_join Hm (item_line_no_NL items Hi)).
  rewrite (@ordered_between (lines_before pre) (lines_after post) items Hne Hi).
  - cbn [bind]. f_equal.
    rewrite join_before by (exact Ep || discriminate).
    rewrite join_after by (exact Es || discriminate). reflexivity.
  - apply forallb_removelast. eapply forallb_impl; [|exact Hp].
    intros l Hl. apply list_line_other. now apply negb_true_iff.
  - apply forallb_tl. eapply forallb_impl; [|exact Hq].
    intros l Hl. apply list_line_other. now apply negb_true_iff.
Qed.

Lemma ol_shape (items : list (str * str)) :
  join [NL] (lit "<ol>" :: map item_li items ++ [lit "</ol>"]) =
  lit (open_lit K_ol) ++ ol_mid items ++ lit (close_lit K_ol).
Proof.
  unfold ol_mid. cbn [open_lit close_lit].
  change (lit "<ol" ++ (lit ">" ++ NL :: concat (map (fun it => item_li it ++ [NL]) items)) ++
          lit "</ol>")
    with (lit "<ol>" ++ NL :: concat (map (fun it => item_li it ++ [NL]) items) ++ lit "</ol>").
  assert (H : forall l : list (str * str),
            join [NL] (map item_li l ++ [lit "</ol>"]) =
            concat (map (fun it => item_li it ++ [NL]) l) ++ lit "</ol>").
  { induction l as [|it l IH]; [reflexivity|].
    cbn [map concat]. change ((item_li it :: map item_li l) ++ [lit "</ol>"])
      with (item_li it :: (map item_li l ++ [lit "</ol>"])).
    destruct (map item_li l ++ [lit "</ol>"]) as [|y r] eqn:E.
    - destruct (map item_li l); discriminate.
    - rewrite join_cons, IH, <- !app_assoc. reflexivity. }
  destruct (map item_li items ++ [lit "</ol>"]) as [|y r] eqn:E.
  - destruct (map item_li items); discriminate.
  - rewrite join_cons, <- E, H. reflexivity.
Qed.

Lemma digit_plain (d : ascii) : is_digit d = true -> plain_char d = true.
Proof.
  destruct d as [b0 b1 b2 b3 b4 b5 b6 b7].
  destruct b0, b1, b2, b3, b4, b5, b6, b7; intros H; try discriminate H; reflexivity.
Qed.

Lemma digit_not_hash (d : ascii) : is_digit d = true -> Ascii.eqb "#" d = false.
Proof.
  intros H. destruct (Ascii.eqb "#" d) eqn:E; [|reflexivity].
  apply Ascii.eqb_eq in E. subst d. discriminate.
Qed.

Lemma item_not_heading (it : str * str) :
  ordered_item it = true -> heading_line (item_line it) = false.
Proof.
  intros H. apply ordered_item_ok in H. destruct H as (Hn & Hd & _).
  unfold item_line, ordered_line. destruct (fst it) as [|d n]; [congruence|].
  cbn [forallb] in Hd. apply andb_true_iff in Hd. destruct Hd as [Hd _].
  apply digit_not_hash in Hd.
  unfold heading_line, has_more. cbn [lit list_ascii_of_string app strip_prefix].
  now rewrite Hd.
Qed.

Section Mid.
Variable f : ascii -> bool.
Hypothesis f_tags :
  forallb f (lit "<li>") = true /\ forallb f (lit "</li>") = true /\
  f ">"%char = true /\ f NL = true.

Lemma forallb_ol_mid (items : list (str * str)) :
  forallb (fun it => forallb f (snd it)) items = true -> forallb f (ol_mid items) = true.
Proof.
  destruct f_tags as (F1 & F2 & F3 & F4).
  intros H. unfold ol_mid. cbn [lit list_ascii_of_string app forallb]. rewrite F3, F4.
  cbn [andb]. induction items as [|it items IH]; [reflexivity|].
  cbn [forallb] in H. apply andb_true_iff in H. destruct H as [Hit H].
  cbn [map concat]. unfold item_li at 1. unfold li.
  rewrite !forallb_app.
  apply andb_true_iff; split; [|now apply IH].
  apply andb_true_iff; split; [|cbn [forallb]; now rewrite F4].
  apply andb_true_iff; split; [exact F1|].
  apply andb_true_iff; split; [exact Hit | exact F2].
Qed.

End Mid.

Lemma tame_ol_mid (items : list (str * str)) :
  forallb (fun it => forallb (not_char "<") (snd it)) items = true ->
  tame (ol_mid items) = true.
Proof.
  intros H. unfold ol_mid.
  assert (Hc : forall p : str,
            clear ("<"%char :: p) (lit "<li>") = true ->
            clear ("<"%char :: p) (lit "</li>") = true ->
            clear ("<"%char :: p)
              (lit ">" ++ NL :: concat (map (fun it => item_li it ++ [NL]) items)) = true).
  { intros p H1 H2.
    change (lit ">" ++ NL :: concat (map (fun it => item_li it ++ [NL]) items))
      with ([">"%char; NL] ++ concat (map (fun it => item_li it ++ [NL]) items)).
    apply clear_app; [reflexivity|].
    induction items as [|it items IH]; [reflexivity|].
    cbn [forallb] in H. apply andb_true_iff in H. destruct H as [Hit H].
    cbn [map concat]. unfold item_li at 1. unfold li. rewrite <- !app_assoc.
    apply clear_app; [exact H1|]. apply clear_app; [now apply clear_free|].
    apply clear_app; [exact H2|]. apply clear_app; [reflexivity | now apply IH]. }
  apply tame_intro; now apply Hc.
Qed.

Lemma items_no_blank (post : str) : forall items : list (str * str),
  forallb ordered_item items = true ->
  occurs [NL; NL]
    (NL :: concat (map (fun it => item_li it ++ [NL]) items) ++ lit "</ol>" ++ post) =
  occurs [NL; NL] post.
Proof.
  induction items as [|it items IH]; intros Hi.
  - cbn [map concat app]. rewrite occurs_step by reflexivity.
    now rewrite (@occurs_free NL [NL] (lit "</ol>")) by reflexivity.
  - cbn [forallb] in Hi. apply andb_true_iff in Hi. destruct Hi as [Hit Hi].
    apply ordered_item_ok in Hit. destruct Hit as (_ & _ & _ & Ht).
    assert (Hli : forallb (not_char NL) (item_li it) = true).
    { unfold item_li, li. rewrite !forallb_app.
      change (forallb (not_char NL) (snd it) = true) in Ht. now rewrite Ht. }
    cbn [map concat]. rewrite <- !app_assoc. cbn [app].
    rewrite occurs_step by (unfold item_li, li; reflexivity).
    rewrite (@occurs_free NL [NL] (item_li it)) by exact Hli.
    now apply IH.
Qed.

Lemma ol_no_blank (pre post : str) (items : list (str * str)) :
  forallb ordered_item items = true ->
  occurs [NL; NL] pre = false -> occurs [NL; NL] post = false ->
  occurs [NL; NL]
    (pre ++ lit (open_lit K_ol) ++ ol_mid items ++ lit (close_lit K_ol) ++ post) = false.
Proof.
  intros Hi Hpre Hpost. unfold ol_mid. cbn [open_lit close_lit].
  replace (pre ++ lit "<ol" ++
           (lit ">" ++ NL :: concat (map (fun it => item_li it ++ [NL]) items)) ++
           lit "</ol>" ++ post)
    with (pre ++ lit "<ol>" ++
          NL :: concat (map (fun it => item_li it ++ [NL]) items) ++ lit "</ol>" ++ post)
    by reflexivity.
  rewrite no_blank_mid by (discriminate || reflexivity).
  now rewrite Hpre, items_no_blank, Hpost.
Qed.

Lemma plain_item_line (it : str * str) :
  ordered_item it = true -> forallb plain_char (snd it) = true ->
  forallb plain_char (item_line it) = true.
Proof.
  intros Hi Ht. apply ordered_item_ok in Hi. destruct Hi as (_ & Hd & _).
  unfold item_line, ordered_line. rewrite !forallb_app.
  apply andb_true_iff; split; [|apply andb_true_iff; split; [reflexivity | exact Ht]].
  eapply forallb_impl; [|exact Hd]. apply digit_plain.
Qed.

Lemma plain_items : forall items : list (str * str),
  forallb ordered_item items = true ->
  forallb (fun it => forallb plain_char (snd it)) items = true ->
  forallb plain_char (join [NL] (map item_line items)) = true.
Proof.
  induction items as [|it items IH]; intros Hi Ht; [reflexivity|].
  cbn [forallb] in Hi, Ht.
  apply andb_true_iff in Hi. destruct Hi as [Hit Hi].
  apply andb_true_iff in Ht. destruct Ht as [Htt Ht].
  pose proof (plain_item_line it Hit Htt) as Hl.
  destruct items as [|it' items]; [exact Hl|].
  change (map item_line (it :: it' :: items))
    with (item_line it :: item_line it' :: map item_line items).
  rewrite join_cons, !forallb_app.
  apply andb_true_iff; split; [exact Hl|].
  apply andb_true_iff; split; [reflexivity | now apply IH].
Qed.

(** The engine on a run of ordered items between two texts without
    markup. *)
Lemma convert_ordered (pre post : str) (items : list (str * str)) :
  items <> [] -> forallb ordered_item items = true ->
  forallb (fun it => forallb plain_char (snd it)) items = true ->
  forallb plain_char pre = true -> forallb plain_char post = true ->
  ends_line pre = true -> starts_line post = true ->
  forallb text_line (split NL pre) = true -> forallb text_line (split NL post) = true ->
  occurs [NL; NL] pre = false -> occurs [NL; NL] post = false ->
  convert_md_to_html (pre ++ join [NL] (map item_line items) ++ post) =
  Some (above pre ++ join [NL] (lit "<ol>" :: map item_li items ++ [lit "</ol>"]) ++
        below post).
Proof.
  intros Hne Hi Ht Hpre Hpost Ep Es Lp Lq Np Nq.
  assert (Hm : map item_line items <> []) by (destruct items; [congruence | discriminate]).
  assert (Hsplit : forall g : str -> bool,
            (forall l, text_line l = true -> g l = true) ->
            (forall it, ordered_item it = true -> g (item_line it) = true) ->
            forallb g (split NL (pre ++ join [NL] (map item_line items) ++ post)) = true).
  { intros g Hg Hgi.
    rewrite (split_before pre _ Ep), (split_after _ post Es).
    rewrite (split_join Hm (item_line_no_NL items Hi)).
    rewrite !forallb_app.
    apply andb_true_iff; split; [|apply andb_true_iff; split].
    - apply forallb_removelast. eapply forallb_impl; [|exact Lp]. exact Hg.
    - apply forallb_forall. intros l Hl. apply in_map_iff in Hl.
      destruct Hl as (it & <- & Hin). apply Hgi.
      now apply (proj1 (forallb_forall _ _) Hi).
    - apply forallb_tl. eapply forallb_impl; [|exact Lq]. exact Hg. }
  assert (Hplain : forallb plain_char (pre ++ join [NL] (map item_line items) ++ post) = true).
  { rewrite !forallb_app. now rewrite Hpre, Hpost, (plain_items items Hi Ht). }
  assert (Htq : forall (g : ascii -> bool),
            (forall c, plain_char c = true -> g c = true) ->
            forallb (fun it => forallb g (snd it)) items = true).
  { intros g Hg. eapply forallb_impl; [|exact Ht]. intros it. cbv beta.
    apply forallb_impl. exact Hg. }
  unfold convert_md_to_html.
  rewrite headers_pass_text.
  2:{ now apply plain_not. }
  2:{ apply Hsplit.
      - intros l Hl. unfold text_line in Hl. apply andb_true_iff in Hl. tauto.
      - intros it Hit. now rewrite item_not_heading. }
  cbn [bind].
  rewrite (code_block_pass_plain _ Hplain). cbn [bind].
  rewrite (inline_pass_free _ (plain_inline_free _ Hplain)). cbn [bind].
  rewrite lists_pass_ordered; try assumption.
  2:{ eapply forallb_impl; [|exact Lp]. intros l Hl. unfold text_line in Hl.
      apply andb_true_iff in Hl. tauto. }
  2:{ eapply forallb_impl; [|exact Lq]. intros l Hl. unfold text_line in Hl.
      apply andb_true_iff in Hl. tauto. }
  cbn [bind]. rewrite ol_shape, <- !app_assoc.
  rewrite (@finish_block K_ol pre (ol_mid items) post Hpre Hpost).
  - reflexivity.
  - apply tame_ol_mid. apply Htq. intros c. now apply plain_char_not.
  - apply forallb_ol_mid; [now repeat split|]. apply Htq. intros c Hc.
    unfold plain_char in Hc. apply andb_true_iff in Hc. tauto.
  - apply forallb_ol_mid; [now repeat split|]. apply Htq. intros c. now apply plain_char_not.
  - now apply ol_no_blank.
Qed.

(** ** The numeral of an ordered item *)

Lemma numeral_ok (n : str) : numeral n = true -> n <> [] /\ forallb is_digit n = true.
Proof.
  unfold numeral. intros H. apply andb_true_iff in H. destruct H as [H1 H2].
  split; [now apply truthy_ne | exact H2].
Qed.


Lemma convert_split (s : str) :
  convert_md_to_html s =
  (html <- to_lists s ;;
   html <- lists_pass html ;;
   html <- paragraphs_pass html ;;
   html <- cleanup_pass html ;;
   html <- badges_pass html ;;
   tables_pass html).
Proof.
  unfold convert_md_to_html, to_lists.
  destruct (headers_pass s) as [h|]; cbn [bind]; [|reflexivity].
  destruct (code_block_pass h) as [c|]; cbn [bind]; [|reflexivity].
  destruct (inline_pass c); reflexivity.
Qed.

(** Lines 85-126 on two texts that differ in the numeral of one line. *)
Lemma lists_pass_numeral (a b n n' text : str) :
  numeral n = true -> numeral n' = true -> item_text text = true ->
  ends_line a = true -> starts_line b = true ->
  lists_pass (a ++ ordered_line n text ++ b) = lists_pass (a ++ ordered_line n' text ++ b).
Proof.
  intros H1 H2 Ht Ea Eb.
  apply numeral_ok in H1, H2. apply item_text_ok in Ht.
  destruct H1 as [H1 D1], H2 as [H2 D2], Ht as [Ht Hdot].
  unfold lists_pass.
  rewrite !(split_before a _ Ea), !(split_after _ b Eb).
  rewrite !split_free by (now apply ordered_line_no_NL).
  cbn [app].
  now rewrite (list_lines_ordered_numeral (lines_before a) (lines_after b) H1 D1 H2 D2 Ht Hdot).
Qed.
(** * The headings pass line by line *)

Lemma sub_line_hit (marker : str) (t : template) (l : str) (c : ascii) (x : str) :
  strip_prefix marker l = Some (c :: x) ->
  sub_line marker t l = expand t (mkMobj l [(1, c :: x)] 1).
Proof. intros H. unfold sub_line. now rewrite H. Qed.

Lemma sub_line_end (marker : str) (t : template) (l : str) :
  strip_prefix marker l = Some [] -> sub_line marker t l = l.
Proof. intros H. unfold sub_line. now rewrite H. Qed.

Lemma sub_line_miss (marker : str) (t : template) (l : str) :
  strip_prefix marker l = None -> sub_line marker t l = l.
Proof. intros H. unfold sub_line. now rewrite H. Qed.

(** A line that begins with [<] is no heading. *)
Lemma sub_line_tag (p : str) (t : template) (r : str) :
  sub_line ("#"%char :: p) t ("<"%char :: r) = "<"%char :: r.
Proof. reflexivity. Qed.

Lemma strip_prefix_dot (p l x : str) :
  strip_prefix p l = Some x -> forallb dot l = true -> forallb dot x = true.
Proof.
  intros H Hl. apply strip_prefix_Some in H. subst l.
  rewrite forallb_app in Hl. apply andb_true_iff in Hl. tauto.
Qed.

(** The four substitutions of lines 57-60 on a line. *)
Lemma sub_lines_raw (l : str) :
  sub_line (lit "#### ") tmpl_h4
    (sub_line (lit "### ") tmpl_h3
       (sub_line (lit "## ") tmpl_h2 (sub_line (lit "# ") tmpl_h1 l))) = heading_raw l.
Proof.
  unfold heading_raw, heading_parts.
  destruct (strip_prefix (lit "# ") l) as [[|c x]|] eqn:E1.
  2:{ rewrite (sub_line_hit _ tmpl_h1 _ E1). reflexivity. }
  all: rewrite ?(sub_line_end _ tmpl_h1 _ E1), ?(sub_line_miss _ tmpl_h1 _ E1);
    destruct (strip_prefix (lit "## ") l) as [[|c x]|] eqn:E2.
  2, 5: rewrite (sub_line_hit _ tmpl_h2 _ E2); reflexivity.
  all: rewrite ?(sub_line_end _ tmpl_h2 _ E2), ?(sub_line_miss _ tmpl_h2 _ E2);
    destruct (strip_prefix (lit "### ") l) as [[|c x]|] eqn:E3.
  2, 5, 8, 11: rewrite (sub_line_hit _ tmpl_h3 _ E3); reflexivity.
  all: rewrite ?(sub_line_end _ tmpl_h3 _ E3), ?(sub_line_miss _ tmpl_h3 _ E3);
    destruct (strip_prefix (lit "#### ") l) as [[|c x]|] eqn:E4;
    rewrite ?(sub_line_end _ tmpl_h4 _ E4), ?(sub_line_miss _ tmpl_h4 _ E4),
      ?(sub_line_hit _ tmpl_h4 _ E4); reflexivity.
Qed.

Lemma sub_line_dot (marker : str) (t : template) (l : str) :
  (forall s x, forallb dot x = true ->
               forallb dot (expand t (mkMobj s [(1, x)] 1)) = true) ->
  forallb dot l = true -> forallb dot (sub_line marker t l) = true.
Proof.
  intros Ht Hl. unfold sub_line.
  destruct (strip_prefix marker l) as [[|c x]|] eqn:E; try exact Hl.
  apply Ht. now apply (strip_prefix_dot _ _ E).
Qed.

Lemma lines_dot_map (f : str -> str) (L : list str) :
  (forall l, forallb dot l = true -> forallb dot (f l) = true) ->
  forallb (forallb dot) L = true -> forallb (forallb dot) (map f L) = true.
Proof.
  intros Hf H. apply forallb_forall. intros l Hl. apply in_map_iff in Hl.
  destruct Hl as (l0 & <- & Hin). apply Hf.
  now apply (proj1 (forallb_forall _ _) H).
Qed.

(** A heading pattern on lines put together. *)
Lemma heading_sub_map (marker : string) (p : str) (t : template) (L : list str) :
  forallb (titem_ok (ngroups (re_heading marker))) t = true ->
  lit marker = "#"%char :: p -> forallb dot (lit marker) = true ->
  L <> [] -> forallb (forallb dot) L = true ->
  re_sub (re_heading marker) t (join [NL] L) =
  Some (join [NL] (map (sub_line (lit marker) t) L)).
Proof.
  intros Hv Hm Hd Hne HL. rewrite (@heading_sub marker p t _ Hv Hm Hd).
  now rewrite (split_join Hne HL).
Qed.

(** Lines 57-60 line by line. *)
Lemma headings_lines (s : str) :
  (html <- re_sub re_h1 tmpl_h1 s ;;
   html <- re_sub re_h2 tmpl_h2 html ;;
   html <- re_sub re_h3 tmpl_h3 html ;;
   re_sub re_h4 tmpl_h4 html) =
  Some (join [NL] (map heading_raw (split NL s))).
Proof.
  assert (D1 : forall l, forallb dot l = true ->
                         forallb dot (sub_line (lit "# ") tmpl_h1 l) = true).
  { intros l. apply sub_line_dot. intros s0 x Hx.
    change (expand tmpl_h1 (mkMobj s0 [(1, x)] 1)) with (lit "<h1>" ++ x ++ lit "</h1>").
    rewrite !forallb_app. now rewrite Hx. }
  assert (D2 : forall l, forallb dot l = true ->
                         forallb dot (sub_line (lit "## ") tmpl_h2 l) = true).
  { intros l. apply sub_line_dot. intros s0 x Hx.
    change (expand tmpl_h2 (mkMobj s0 [(1, x)] 1))
      with ((lit "<h2 id=" ++ [DQ]) ++ x ++ ([DQ] ++ lit ">") ++ x ++ lit "</h2>").
    rewrite !forallb_app. now rewrite Hx. }
  assert (D3 : forall l, forallb dot l = true ->
                         forallb dot (sub_line (lit "### ") tmpl_h3 l) = true).
  { intros l. apply sub_line_dot. intros s0 x Hx.
    change (expand tmpl_h3 (mkMobj s0 [(1, x)] 1)) with (lit "<h3>" ++ x ++ lit "</h3>").
    rewrite !forallb_app. now rewrite Hx. }
  pose proof (split_not_nil NL s) as N0.
  pose proof (split_fields NL s) as F0.
  change (forallb (forallb dot) (split NL s) = true) in F0.
  assert (Nm : forall (f : str -> str) (L : list str), L <> [] -> map f L <> []).
  { intros f L HL. destruct L; [congruence | discriminate]. }
  unfold re_h1, re_h2, re_h3, re_h4.
  rewrite (@heading_sub "# " (lit " ") tmpl_h1 s eq_refl eq_refl eq_refl). cbn [bind].
  rewrite (@heading_sub_map "## " (lit "# ") tmpl_h2 _ eq_refl eq_refl eq_refl)
    by (try (now apply Nm); now apply lines_dot_map).
  cbn [bind].
  rewrite (@heading_sub_map "### " (lit "## ") tmpl_h3 _ eq_refl eq_refl eq_refl)
    by (try (now repeat apply Nm); now repeat apply lines_dot_map).
  cbn [bind].
  rewrite (@heading_sub_map "#### " (lit "### ") tmpl_h4 _ eq_refl eq_refl eq_refl)
    by (try (now repeat apply Nm); now repeat apply lines_dot_map).
  rewrite !map_map. f_equal. f_equal. apply map_ext. intros l. apply sub_lines_raw.
Qed.

(** ** [make_id] line by line *)

Lemma heading_parts_text (l : str) (v : level) (x : str) :
  heading_parts l = Some (v, x) -> x <> [] /\ exists p, l = p ++ x.
Proof.
  unfold heading_parts. intros H.
  destruct (strip_prefix (lit "# ") l) as [[|c1 x1]|] eqn:E1;
    [ | injection H as <- <-; split; [discriminate|];
        eexists; exact (strip_prefix_Some _ _ E1) | ];
    (destruct (strip_prefix (lit "## ") l) as [[|c2 x2]|] eqn:E2;
     [ | injection H as <- <-; split; [discriminate|];
         eexists; exact (strip_prefix_Some _ _ E2) | ]);
    (destruct (strip_prefix (lit "### ") l) as [[|c3 x3]|] eqn:E3;
     [ | injection H as <- <-; split; [discriminate|];
         eexists; exact (strip_prefix_Some _ _ E3) | ]);
    (destruct (strip_prefix (lit "#### ") l) as [[|c4 x4]|] eqn:E4;
     [ discriminate
     | injection H as <- <-; split; [discriminate|];
       eexists; exact (strip_prefix_Some _ _ E4)
     | discriminate ]).
Qed.

Lemma heading_parts_free (f : ascii -> bool) (l : str) (v : level) (x : str) :
  heading_parts l = Some (v, x) -> forallb f l = true -> forallb f x = true.
Proof.
  intros H Hl. apply heading_parts_text in H. destruct H as (_ & p & ->).
  rewrite forallb_app in Hl. apply andb_true_iff in Hl. tauto.
Qed.

(** The pattern of line 67 on the level-2 heading of line 58, at any
    place of a text. *)
Lemma match_h2_id_at (pv : option ascii) (text Y : str) :
  text <> [] -> forallb (not_char DQ) text = true ->
  forallb (not_char "<") text = true ->
  match_at re_h2_id pv
    (((lit "<h2 id=" ++ [DQ]) ++ text ++ ([DQ] ++ lit ">") ++ text ++ lit "</h2>") ++ Y) =
  Some (mkMobj ((lit "<h2 id=" ++ [DQ]) ++ text ++ ([DQ] ++ lit ">") ++ text ++ lit "</h2>")
               [(2, text); (1, text)] 2).
Proof.
  intros Hne Hdq Hlt.
  assert (H : exists pv',
            m re_h2_id Some
              (mkPos pv (((lit "<h2 id=" ++ [DQ]) ++ text ++ ([DQ] ++ lit ">") ++ text ++
                          lit "</h2>") ++ Y) []) =
            Some (mkPos pv' Y [(2, text); (1, text)])).
  { eexists. unfold re_h2_id.
    set (A := lit "<h2 id=" ++ [DQ]). set (B := [DQ] ++ lit ">").
    rewrite <- !app_assoc.
    rewrite m_Seq, m_Lit_app, m_Seq.
    apply m_Grp_Plus_run; try assumption; [reflexivity|].
    rewrite m_Seq, m_Lit_app, m_Seq.
    apply m_Grp_Plus_run; try assumption; [reflexivity|].
    rewrite m_Lit_app. reflexivity. }
  destruct H as [pv' H]. now apply match_at_Some in H.
Qed.

Lemma needs_h2_id : needs (lit "<h2 id=" ++ [DQ]) re_h2_id.
Proof. unfold re_h2_id. apply needs_Seq, needs_Lit. Qed.

(** The loop of line 67 on a line as lines 57-60 leave it. *)
Lemma make_id_line (l Y : str) (pv : option ascii) :
  forallb (not_char "<") l = true -> forallb (not_char DQ) l = true ->
  sub_loop re_h2_id make_id 0 pv (heading_raw l ++ Y) =
  (z <- sub_loop re_h2_id make_id 0 (prev_after (heading_raw l) pv) Y ;;
   Some (heading_html l ++ z)).
Proof.
  intros Hlt Hdq. unfold heading_raw, heading_html.
  destruct (heading_parts l) as [[v x]|] eqn:E.
  - pose proof (@heading_parts_free _ l v x E Hlt) as Hx.
    pose proof (@heading_parts_free _ l v x E Hdq) as Hq.
    destruct (@heading_parts_text l v x E) as [Hne _].
    destruct v.
    + apply (@sub_loop_clear (lit "<h2 id=" ++ [DQ]) _ _ _ _ _ needs_h2_id).
      apply clear_app; [reflexivity | apply clear_app; [|reflexivity]].
      now apply (@clear_free "<" (lit "h2 id=" ++ [DQ])).
    + rewrite (@sub_loop_match _ _ pv _ Y _ _
                 (match_h2_id_at pv Y Hne Hq Hx) eq_refl ltac:(discriminate)
                 (make_id_text _ x [])).
      reflexivity.
    + apply (@sub_loop_clear (lit "<h2 id=" ++ [DQ]) _ _ _ _ _ needs_h2_id).
      apply clear_app; [reflexivity | apply clear_app; [|reflexivity]].
      now apply (@clear_free "<" (lit "h2 id=" ++ [DQ])).
    + apply (@sub_loop_clear (lit "<h2 id=" ++ [DQ]) _ _ _ _ _ needs_h2_id).
      apply clear_app; [reflexivity | apply clear_app; [|reflexivity]].
      now apply (@clear_free "<" (lit "h2 id=" ++ [DQ])).
  - apply (@sub_loop_clear (lit "<h2 id=" ++ [DQ]) _ _ _ _ _ needs_h2_id).
    now apply (@clear_free "<" (lit "h2 id=" ++ [DQ])).
Qed.

Lemma make_id_lines : forall (L : list str) (pv : option ascii),
  L <> [] ->
  forallb (forallb (not_char "<")) L = true -> forallb (forallb (not_char DQ)) L = true ->
  sub_loop re_h2_id make_id 0 pv (join [NL] (map heading_raw L)) =
  Some (join [NL] (map heading_html L)).
Proof.
  induction L as [|l L IH]; intros pv Hne Hlt Hdq; [congruence|].
  cbn [forallb] in Hlt, Hdq.
  apply andb_true_iff in Hlt. destruct Hlt as [Hl Hlt].
  apply andb_true_iff in Hdq. destruct Hdq as [Hq Hdq].
  destruct L as [|l' L].
  - cbn [map join]. rewrite <- (app_nil_r (heading_raw l)) at 1.
    rewrite (make_id_line l [] pv Hl Hq).
    rewrite (@sub_loop_needs (lit "<h2 id=" ++ [DQ]) _ _ [] _ needs_h2_id eq_refl).
    cbn [bind]. now rewrite app_nil_r.
  - change (map heading_raw (l :: l' :: L))
      with (heading_raw l :: heading_raw l' :: map heading_raw L).
    change (map heading_html (l :: l' :: L))
      with (heading_html l :: heading_html l' :: map heading_html L).
    rewrite !join_cons.
    rewrite (make_id_line l _ pv Hl Hq).
    rewrite (@sub_loop_clear (lit "<h2 id=" ++ [DQ]) _ _ [NL] _ _ needs_h2_id eq_refl).
    change (heading_raw l' :: map heading_raw L) with (map heading_raw (l' :: L)).
    rewrite IH by (discriminate || assumption). reflexivity.
Qed.

(** Lines 57-67 on a text without [<] and double quote. *)
Lemma headers_pass_lines (s : str) :
  forallb (not_char "<") s = true -> forallb (not_char DQ) s = true ->
  headers_pass s = Some (join [NL] (map heading_html (split NL s))).
Proof.
  intros Hlt Hdq.
  assert (Hf : forall c, forallb (not_char c) s = true ->
                         forallb (forallb (not_char c)) (split NL s) = true).
  { intros c H. rewrite <- (join_split NL s) in H.
    clear Hlt Hdq. revert H. generalize (split_not_nil NL s).
    induction (split NL s) as [|l L IH]; intros Hne H; [reflexivity|].
    destruct L as [|l' L].
    - cbn [join] in H. cbn [forallb]. now rewrite H.
    - rewrite join_cons, !forallb_app in H.
      apply andb_true_iff in H. destruct H as [H1 H].
      apply andb_true_iff in H. destruct H as [_ H].
      change (forallb (forallb (not_char c)) (l :: l' :: L))
        with (forallb (not_char c) l && forallb (forallb (not_char c)) (l' :: L)).
      rewrite H1. apply IH; [discriminate | exact H]. }
  pose proof (headings_lines s) as H.
  unfold headers_pass.
  destruct (re_sub re_h1 tmpl_h1 s) as [h1|]; cbn [bind] in *; [|discriminate].
  destruct (re_sub re_h2 tmpl_h2 h1) as [h2|]; cbn [bind] in *; [|discriminate].
  destruct (re_sub re_h3 tmpl_h3 h2) as [h3|]; cbn [bind] in *; [|discriminate].
  rewrite H. cbn [bind]. unfold re_sub_fn.
  apply make_id_lines; [apply split_not_nil | now apply Hf | now apply Hf].
Qed.
(** * A table in a document *)






(** * The properties of the specification *)

(** ** Determinism and totality *)

(** C9: the engine is deterministic: two runs on the same Markdown input
    give the same result, byte for byte. *)
Theorem convert_deterministic (md : str) (out1 out2 : option str) :
  convert_md_to_html md = out1 -> convert_md_to_html md = out2 -> out1 = out2.
Proof. intros H1 H2. rewrite <- H1, <- H2. reflexivity. Qed.

Lemma convert_deterministic_witness :
  convert_md_to_html (lit "**x** *y*") =
    Some (lit "<p><strong>x</strong> <em>y</em></p>") /\
  Some (lit "<p><strong>x</strong> <em>y</em></p>") =
    Some (lit "<p><strong>x</strong> <em>y</em></p>").
Proof.
  split; [vm_compute; reflexivity|].
  apply (@convert_deterministic (lit "**x** *y*")); vm_compute; reflexivity.
Defined.

(** C8: on every input the engine returns an HTML string: no call of
    [re.sub] is given an invalid template, [make_id] reads a group that
    every match of its pattern captures, and [convert_table] reads
    [lines[0]] only when there are two lines at least. *)
Theorem convert_returns (md : str) :
  exists html, convert_md_to_html md = Some html.
Proof. apply convert_total. Qed.

(** ** The list pass *)

(** C6: the list pass with its output labelled: every element that the
    loop appends to [result] is recorded as the opening tag of a
    container ([<ul class="checklist">], [<ul>] or [<ol>], as written),
    as a closing tag ([</ul>] or [</ol>], as written) or as a line.  The
    labels rendered are the output of the pass, and the labelled output
    is well nested: a container is opened only while none is open, a
    closing tag is emitted only while a container is open and is the one
    of its kind ([</ol>] for [<ol>], [</ul>] for the two others), and no
    container is open at the end of the input. *)
Theorem list_pass_well_nested (lines : list str) :
  exists tr,
    list_trace lines = Some tr /\
    list_lines lines = Some (map render tr) /\
    well_nested None tr = true.
Proof.
  destruct (list_trace_nested lines) as (tr & Ht & Hw).
  exists tr. repeat split; try assumption.
  rewrite list_lines_erase, Ht. reflexivity.
Qed.



(** ** Ordered items *)

(** Lines 111-116 with the output written out. *)
Lemma list_step_ordered_out (il : in_list_t) (result : list str) (n text : str) :
  numeral n = true -> item_text text = true ->
  list_step (il, result) (ordered_line n text) =
  Some (if truth il then (il, result ++ [li text])
        else (IL_ol, result ++ [lit "<ol>"; li text])).
Proof.
  intros Hn Ht. apply item_text_ok in Ht. destruct Ht as [Hne Hdot].
  unfold numeral in Hn. apply andb_true_iff in Hn. destruct Hn as [Hn Hd].
  apply truthy_ne in Hn.
  rewrite (list_step_ordered (il, result) Hn Hd Hne Hdot).
  unfold open_list, append. destruct (truth il); cbn [negb]; [reflexivity|].
  now rewrite <- app_assoc.
Qed.

(** C10: the numeral of an ordered item is discarded.  A line of ASCII
    digits, [. ] and a text on one line makes lines 111-116 append
    [<li>], the text and [</li>], after [<ol>] where no list is open:
    the numeral is in neither.  So the loop gives the same lines, and
    the list pass the same text, for two numerals of a line, whatever
    stands before and after the line; and two inputs that reach the list
    pass with nothing but the numeral of such a line different give the
    same output of the engine.  A run of such lines between an ASCII
    text that ends a line and one that begins with the end of a line,
    neither with a heading or an item line, leaves the list pass as
    [<ol>], the items and [</ol>] on lines of their own; where the texts
    are without markup (no backtick, asterisk, [[], [<] and [|], no
    blank line) that is what the engine returns, the text before the
    list in an opened paragraph unless blank, the text after it closing
    one unless blank.  A line that stands directly after an opening
    fence does not reach the list pass as a line: line 70 has joined it
    to [<pre><code>]. *)
Theorem ordered_numeral_discarded (pre post : str) (items : list (str * str)) :
  items <> [] -> forallb ordered_item items = true ->
  forallb is_ascii pre = true -> forallb is_ascii post = true ->
  ends_line pre = true -> starts_line post = true ->
  forallb text_line (split NL pre) = true -> forallb text_line (split NL post) = true ->
  (forall il result n text, numeral n = true -> item_text text = true ->
     list_step (il, result) (n ++ lit ". " ++ text) =
     Some (if truth il then (il, result ++ [lit "<li>" ++ text ++ lit "</li>"])
           else (IL_ol, result ++ [lit "<ol>"; lit "<li>" ++ text ++ lit "</li>"]))) /\
  (forall n n' text before after,
     numeral n = true -> numeral n' = true -> item_text text = true ->
     list_lines (before ++ (n ++ lit ". " ++ text) :: after) =
     list_lines (before ++ (n' ++ lit ". " ++ text) :: after)) /\
  (forall a b n n' text,
     numeral n = true -> numeral n' = true -> item_text text = true ->
     ends_line a = true -> starts_line b = true ->
     lists_pass (a ++ (n ++ lit ". " ++ text) ++ b) =
     lists_pass (a ++ (n' ++ lit ". " ++ text) ++ b)) /\
  (forall s1 s2 a b n n' text,
     numeral n = true -> numeral n' = true -> item_text text = true ->
     ends_line a = true -> starts_line b = true ->
     forallb is_ascii s1 = true -> forallb is_ascii s2 = true ->
     to_lists s1 = Some (a ++ (n ++ lit ". " ++ text) ++ b) ->
     to_lists s2 = Some (a ++ (n' ++ lit ". " ++ text) ++ b) ->
     convert_md_to_html s1 = convert_md_to_html s2) /\
  lists_pass
    (pre ++
     join [NL] (map (fun it => fst it ++ lit ". " ++ snd it) items) ++
     post) =
    Some (pre ++
          join [NL] (lit "<ol>" ::
                     map (fun it => lit "<li>" ++ snd it ++ lit "</li>") items ++
                     [lit "</ol>"]) ++
          post) /\
  (forallb plain_char pre = true ->
   forallb plain_char post = true ->
   forallb (fun it => forallb plain_char (snd it)) items = true ->
   occurs [NL; NL] pre = false ->
   occurs [NL; NL] post = false ->
   convert_md_to_html
     (pre ++
      join [NL] (map (fun it => fst it ++ lit ". " ++ snd it) items) ++
      post) =
   Some ((if forallb is_space pre then pre
          else lit "<p>" ++ pre) ++
         join [NL] (lit "<ol>" ::
                    map (fun it => lit "<li>" ++ snd it ++ lit "</li>") items ++
                    [lit "</ol>"]) ++
         (if forallb is_space post then []
          else post ++ lit "</p>"))).
Proof.
  intros Hne Hi _ _ Ep Es Lp Lq.
  assert (Hn : forall l, text_line l = true -> negb (list_line l) = true).
  { intros l Hl. unfold text_line in Hl. apply andb_true_iff in Hl. tauto. }
  split; [|split; [|split; [|split; [|split]]]].
  - intros il result n text Hnum Ht.
    exact (list_step_ordered_out il result n text Hnum Ht).
  - intros n n' text before after H1 H2 Ht.
    apply numeral_ok in H1, H2. apply item_text_ok in Ht.
    destruct H1 as [H1 D1], H2 as [H2 D2], Ht as [Ht Hdot].
    exact (list_lines_ordered_numeral before after H1 D1 H2 D2 Ht Hdot).
  - intros a b n n' text H1 H2 Ht Ea Eb.
    exact (@lists_pass_numeral a b n n' text H1 H2 Ht Ea Eb).
  - intros s1 s2 a b n n' text H1 H2 Ht Ea Eb _ _ T1 T2.
    pose proof (@lists_pass_numeral a b n n' text H1 H2 Ht Ea Eb) as E.
    unfold ordered_line in E.
    rewrite !convert_split, T1, T2. cbn [bind]. now rewrite E.
  - apply (@lists_pass_ordered pre post items Hne Hi Ep Es);
      (eapply forallb_impl; [exact Hn | assumption]).
  - intros Hpre Hpost Ht Np Nq.
    exact (@convert_ordered pre post items Hne Hi Ht Hpre Hpost Ep Es Lp Lq Np Nq).
Qed.

Lemma ordered_numeral_discarded_witness :
  [(lit "1", lit "a"); (lit "7", lit "b - c")] <> [] /\
  forallb ordered_item [(lit "1", lit "a"); (lit "7", lit "b - c")] = true /\
  forallb is_ascii (lit "Steps:" ++ [NL]) = true /\ forallb is_ascii (NL :: lit "end") = true /\
  ends_line (lit "Steps:" ++ [NL]) = true /\ starts_line (NL :: lit "end") = true /\
  forallb text_line (split NL (lit "Steps:" ++ [NL])) = true /\
  forallb text_line (split NL (NL :: lit "end")) = true /\
  (forall il result n text, numeral n = true -> item_text text = true ->
     list_step (il, result) (n ++ lit ". " ++ text) =
     Some (if truth il then (il, result ++ [lit "<li>" ++ text ++ lit "</li>"])
           else (IL_ol, result ++ [lit "<ol>"; lit "<li>" ++ text ++ lit "</li>"]))) /\
  (forall n n' text before after,
     numeral n = true -> numeral n' = true -> item_text text = true ->
     list_lines (before ++ (n ++ lit ". " ++ text) :: after) =
     list_lines (before ++ (n' ++ lit ". " ++ text) :: after)) /\
  (forall a b n n' text,
     numeral n = true -> numeral n' = true -> item_text text = true ->
     ends_line a = true -> starts_line b = true ->
     lists_pass (a ++ (n ++ lit ". " ++ text) ++ b) =
     lists_pass (a ++ (n' ++ lit ". " ++ text) ++ b)) /\
  (forall s1 s2 a b n n' text,
     numeral n = true -> numeral n' = true -> item_text text = true ->
     ends_line a = true -> starts_line b = true ->
     forallb is_ascii s1 = true -> forallb is_ascii s2 = true ->
     to_lists s1 = Some (a ++ (n ++ lit ". " ++ text) ++ b) ->
     to_lists s2 = Some (a ++ (n' ++ lit ". " ++ text) ++ b) ->
     convert_md_to_html s1 = convert_md_to_html s2) /\
  lists_pass
    ((lit "Steps:" ++ [NL]) ++
     join [NL] (map (fun it => fst it ++ lit ". " ++ snd it) [(lit "1", lit "a"); (lit "7", lit "b - c")]) ++
     (NL :: lit "end")) =
    Some ((lit "Steps:" ++ [NL]) ++
          join [NL] (lit "<ol>" ::
                     map (fun it => lit "<li>" ++ snd it ++ lit "</li>") [(lit "1", lit "a"); (lit "7", lit "b - c")] ++
                     [lit "</ol>"]) ++
          (NL :: lit "end")) /\
  (forallb plain_char (lit "Steps:" ++ [NL]) = true ->
   forallb plain_char (NL :: lit "end") = true ->
   forallb (fun it => forallb plain_char (snd it)) [(lit "1", lit "a"); (lit "7", lit "b - c")] = true ->
   occurs [NL; NL] (lit "Steps:" ++ [NL]) = false ->
   occurs [NL; NL] (NL :: lit "end") = false ->
   convert_md_to_html
     ((lit "Steps:" ++ [NL]) ++
      join [NL] (map (fun it => fst it ++ lit ". " ++ snd it) [(lit "1", lit "a"); (lit "7", lit "b - c")]) ++
      (NL :: lit "end")) =
   Some ((if forallb is_space (lit "Steps:" ++ [NL]) then (lit "Steps:" ++ [NL])
          else lit "<p>" ++ (lit "Steps:" ++ [NL])) ++
         join [NL] (lit "<ol>" ::
                    map (fun it => lit "<li>" ++ snd it ++ lit "</li>") [(lit "1", lit "a"); (lit "7", lit "b - c")] ++
                    [lit "</ol>"]) ++
         (if forallb is_space (NL :: lit "end") then []
          else (NL :: lit "end") ++ lit "</p>"))).
Proof.
  split; [discriminate|]. do 7 (split; [reflexivity|]).
  apply (@ordered_numeral_discarded (lit "Steps:" ++ [NL]) (NL :: lit "end")
           [(lit "1", lit "a"); (lit "7", lit "b - c")]);
    (discriminate || reflexivity).
Defined.

(** ** Tables *)



(** ** Headings *)

(** C5, as the code has it: on an ASCII text without [<] and without
    double quote the headings pass works line by line.  A line [## ] and
    a text becomes the [h2] element of the text with the identifier that
    [make_id] computes from it: the text in lower case, without the
    characters outside [\w], [\s] and [-], and with every space replaced
    by a hyphen, each space of a run by one, other whitespace kept.  A
    line [# ], [### ] or [#### ] and a text becomes the [h1], [h3] or
    [h4] element of the text, with no identifier.  Every other line
    stays as it is. *)
Theorem heading_identifiers (s : str) :
  forallb is_ascii s = true ->
  forallb (not_char "<") s = true -> forallb (not_char DQ) s = true ->
  headers_pass s = Some (join [NL] (map heading_html (split NL s))).
Proof. intros _ Hlt Hdq. now apply headers_pass_lines. Qed.

Lemma heading_identifiers_witness :
  forallb is_ascii
    (lit "# Title" ++ NL :: lit "## Getting  Started!" ++ NL :: lit "text" ++ NL ::
     lit "### Sub" ++ NL :: lit "#### Deep # x") = true /\
  forallb (not_char "<")
    (lit "# Title" ++ NL :: lit "## Getting  Started!" ++ NL :: lit "text" ++ NL ::
     lit "### Sub" ++ NL :: lit "#### Deep # x") = true /\
  forallb (not_char DQ)
    (lit "# Title" ++ NL :: lit "## Getting  Started!" ++ NL :: lit "text" ++ NL ::
     lit "### Sub" ++ NL :: lit "#### Deep # x") = true /\
  headers_pass
    (lit "# Title" ++ NL :: lit "## Getting  Started!" ++ NL :: lit "text" ++ NL ::
     lit "### Sub" ++ NL :: lit "#### Deep # x") =
  Some (join [NL]
          [lit "<h1>Title</h1>";
           lit "<h2 id=" ++ [DQ] ++ lit "getting--started" ++ [DQ] ++
             lit ">Getting  Started!</h2>";
           lit "text"; lit "<h3>Sub</h3>"; lit "<h4>Deep # x</h4>"]).
Proof.
  do 3 (split; [reflexivity|]).
  apply (@heading_identifiers
           (lit "# Title" ++ NL :: lit "## Getting  Started!" ++ NL :: lit "text" ++ NL ::
            lit "### Sub" ++ NL :: lit "#### Deep # x"));
    reflexivity.
Defined.

(** The claim C5 as it is worded fails in three ways.  A run of two
    spaces gives two hyphens, not one, and a tab gives none.  With a
    double quote in the text the pattern of line 67 ends the identifier
    at the quote and [make_id] writes the identifier in the place of the
    text.  With [<] in the text the pattern of line 67 does not match
    and the identifier stays the text as it is written. *)
Lemma heading_identifiers_counterexample :
  headers_pass (lit "## a  b") =
    Some (lit "<h2 id=" ++ [DQ] ++ lit "a--b" ++ [DQ] ++ lit ">a  b</h2>") /\
  spec_slug (lit "a  b") = lit "a-b" /\
  headers_pass (lit "## a" ++ "009"%char :: lit "b") =
    Some (lit "<h2 id=" ++ [DQ] ++ lit "a" ++ "009"%char :: lit "b" ++ [DQ] ++
          lit ">a" ++ "009"%char :: lit "b</h2>") /\
  headers_pass (lit "## A" ++ DQ :: lit ">b") =
    Some (lit "<h2 id=" ++ [DQ] ++ lit "a" ++ [DQ] ++ lit ">A</h2>") /\
  headers_pass (lit "## A<b") =
    Some (lit "<h2 id=" ++ [DQ] ++ lit "A<b" ++ [DQ] ++ lit ">A<b</h2>").
Proof. repeat split; vm_compute; reflexivity. Qed.
(** ** Fenced blocks *)






(** ** Paragraphs *)

Lemma unmarked_parts (s : str) :
  unmarked s = true ->
  forallb plain_char s = true /\
  forallb (fun l => negb (heading_line l)) (split NL s) = true /\
  forallb (fun l => negb (list_line l)) (split NL s) = true /\
  occurs [NL; NL] s = false /\
  existsb (fun c => negb (is_space c)) s = true.
Proof.
  unfold unmarked. intros H.
  apply andb_true_iff in H. destruct H as [H Hns].
  apply andb_true_iff in H. destruct H as [H Hbl].
  apply andb_true_iff in H. destruct H as [Hp Hl].
  apply negb_true_iff in Hbl. repeat split; try assumption;
    (eapply forallb_impl; [|exact Hl]); intros l Ht; unfold text_line in Ht;
    apply andb_true_iff in Ht; tauto.
Qed.

(** C7, as the code has it: for an ASCII text with no markup (no line
    that is a heading or a list item, none of the characters that begin
    inline markup, a tag or a table row), no blank line and something
    besides whitespace, the output is one paragraph element around the
    input as it is; nothing is trimmed. *)
Theorem plain_paragraph (s : str) :
  unmarked s = true -> convert_md_to_html s = Some (lit "<p>" ++ s ++ lit "</p>").
Proof.
  intros H. apply unmarked_parts in H. destruct H as (Hp & Hh & Hl & Hbl & Hns).
  assert (Hlt : forallb (not_char "<") s = true) by (now apply plain_not).
  assert (Hbar : forallb (not_char "|") s = true) by (now apply plain_not).
  assert (Hasc : forallb is_ascii s = true) by (now apply plain_char_ascii).
  unfold convert_md_to_html.
  rewrite (headers_pass_text s Hlt Hh). cbn [bind].
  rewrite (code_block_pass_plain s Hp). cbn [bind].
  rewrite (inline_pass_plain s Hp). cbn [bind].
  rewrite (lists_pass_text s Hl). cbn [bind].
  rewrite (paragraphs_pass_plain s Hbl). cbn [bind].
  fold (par s).
  rewrite (cleanup_pass_plain s Hlt Hns). cbn [bind].
  rewrite badges_pass_ascii by (apply forallb_wrap; [reflexivity | exact Hasc | reflexivity]).
  cbn [bind].
  apply tables_pass_plain. apply forallb_wrap; [reflexivity | exact Hbar | reflexivity].
Qed.

Lemma plain_paragraph_witness :
  unmarked (lit "  2024 was a good year," ++ NL :: lit "-5 degrees, #1 of 3. ") = true /\
  convert_md_to_html (lit "  2024 was a good year," ++ NL :: lit "-5 degrees, #1 of 3. ") =
    Some (lit "<p>" ++ (lit "  2024 was a good year," ++ NL :: lit "-5 degrees, #1 of 3. ") ++
          lit "</p>").
Proof.
  split; [reflexivity|].
  apply (@plain_paragraph (lit "  2024 was a good year," ++ NL :: lit "-5 degrees, #1 of 3. ")).
  reflexivity.
Defined.

(** The claim C7 as it is worded fails on a text that begins with a
    space: the paragraph has the space, the trimmed text has not.  It
    fails as well on texts without block markup that have inline markup,
    a blank line, nothing but whitespace, or an empty paragraph written
    out: the output is not the input in one paragraph. *)
Lemma plain_paragraph_counterexample :
  convert_md_to_html (lit " a") = Some (lit "<p> a</p>") /\
  strip (lit " a") = lit "a" /\
  convert_md_to_html (lit " a") <> Some (lit "<p>" ++ strip (lit " a") ++ lit "</p>") /\
  convert_md_to_html (lit "*a*") = Some (lit "<p><em>a</em></p>") /\
  convert_md_to_html (lit "a" ++ NL :: NL :: lit "b") =
    Some (lit "<p>a" ++ NL :: lit "</p>" ++ NL :: lit "<p>" ++ NL :: lit "b</p>") /\
  convert_md_to_html (lit " ") = Some [] /\
  convert_md_to_html (lit "a <p> </p> b") = Some (lit "<p>a  b</p>").
Proof.
  split; [vm_compute; reflexivity|]. split; [reflexivity|].
  split; [vm_compute; discriminate|].
  repeat split; vm_compute; reflexivity.
Qed.

(** ** Two examples of the specification *)

(** Bold and italic side by side: [**x** *y*] gives a [<strong>] around
    [x] and an [<em>] around [y], in one paragraph. *)
Theorem bold_italic_example :
  convert_md_to_html (lit "**x** *y*") =
  Some (lit "<p><strong>x</strong> <em>y</em></p>").
Proof. vm_compute. reflexivity. Qed.

(** A title and a checklist of two items: one [<h1>], then one checklist
    container with an unchecked and a checked item, and no paragraph tag
    around either. *)
Theorem checklist_example :
  convert_md_to_html
    (lit "# Title" ++ [NL; NL] ++ lit "- [ ] task one" ++ NL :: lit "- [x] task two" ++ [NL]) =
  Some (lit "<h1>Title</h1>" ++ [NL; NL] ++ ul_checklist_tag ++ NL ::
        expand tmpl_unchecked_item (mkMobj [] [(1, lit "task one")] 1) ++ NL ::
        expand tmpl_checked_item (mkMobj [] [(1, lit "task two")] 1) ++ NL ::
        lit "</ul>").
Proof. vm_compute. reflexivity. Qed.
(** * Further properties *)

(** ** Runs of list items *)

(** X1: a run of regular items that begins where no list is open is
    put in one [<ul>] container, which the next line that is no item
    closes by [</ul>]; the lines after that line are handled as a text of
    their own.  At the end of the input the container is closed there.
    No list is open at the start of the text and after every line that
    is no item. *)
Theorem bullet_run_grouped (before r0 : list str) (texts : list str) (other : str)
    (more : list str) :
  forallb (forallb is_ascii) before = true ->
  for_each list_step (IL_False, []) before = Some (IL_False, r0) ->
  texts <> [] -> forallb bullet_text texts = true ->
  is_other other = true -> forallb is_ascii other = true ->
  list_lines (before ++ map bullet_line texts ++ other :: more) =
    (r <- list_lines more ;;
     Some (r0 ++ lit "<ul>" :: map li texts ++ lit "</ul>" :: other :: r)) /\
  list_lines (before ++ map bullet_line texts) =
    Some (r0 ++ lit "<ul>" :: map li texts ++ [lit "</ul>"]) /\
  (forall ls, exists r,
     for_each list_step (IL_False, []) (ls ++ [other]) = Some (IL_False, r)).
Proof.
  intros _ Hb Hne H Ho _.
  assert (Hrun : for_each list_step (IL_False, []) (before ++ map bullet_line texts) =
                 Some (IL_True, r0 ++ lit "<ul>" :: map li texts)).
  { rewrite for_each_app, Hb. cbn [bind].
    replace (IL_False, r0) with (prepend r0 (IL_False, []))
      by (unfold prepend; cbn [fst snd]; now rewrite app_nil_r).
    rewrite for_each_prepend, (bullets_run Hne H). reflexivity. }
  split; [|split].
  - replace (before ++ map bullet_line texts ++ other :: more)
      with ((before ++ map bullet_line texts ++ [other]) ++ more)
      by (rewrite <- !app_assoc; reflexivity).
    rewrite (@list_lines_restart _ more
               (r0 ++ lit "<ul>" :: map li texts ++ [lit "</ul>"; other])).
    + destruct (list_lines more) as [r|]; cbn [bind]; [|reflexivity].
      rewrite <- ?app_assoc. cbn [app]. rewrite <- ?app_assoc. reflexivity.
    + rewrite app_assoc, for_each_app, Hrun. cbn [bind for_each].
      rewrite (list_step_is_other IL_True _ other Ho). cbn [bind truth closing_tag].
      rewrite <- ?app_assoc. cbn [app]. rewrite <- ?app_assoc. reflexivity.
  - unfold list_lines. rewrite Hrun. cbn [bind truth closing_tag].
    rewrite <- app_assoc. reflexivity.
  - intros ls.
    destruct (for_each_total list_step list_step_total ls (IL_False, [])) as [[il res] E].
    rewrite for_each_app, E. cbn [bind for_each].
    rewrite (list_step_is_other il res other Ho). cbn [bind]. eauto.
Qed.

Lemma bullet_run_grouped_witness :
  forallb (forallb is_ascii) [lit "1. x"; lit "intro"] = true /\
  for_each list_step (IL_False, []) [lit "1. x"; lit "intro"] =
    Some (IL_False, [lit "<ol>"; lit "<li>x</li>"; lit "</ol>"; lit "intro"]) /\
  [lit "a"; lit "b c"] <> [] /\
  forallb bullet_text [lit "a"; lit "b c"] = true /\
  is_other (lit "text") = true /\ forallb is_ascii (lit "text") = true /\
  list_lines ([lit "1. x"; lit "intro"] ++ map bullet_line [lit "a"; lit "b c"] ++
              lit "text" :: [lit "- d"]) =
    (r <- list_lines [lit "- d"] ;;
     Some ([lit "<ol>"; lit "<li>x</li>"; lit "</ol>"; lit "intro"] ++
           lit "<ul>" :: map li [lit "a"; lit "b c"] ++ lit "</ul>" :: lit "text" :: r)) /\
  list_lines ([lit "1. x"; lit "intro"] ++ map bullet_line [lit "a"; lit "b c"]) =
    Some ([lit "<ol>"; lit "<li>x</li>"; lit "</ol>"; lit "intro"] ++
          lit "<ul>" :: map li [lit "a"; lit "b c"] ++ [lit "</ul>"]) /\
  (forall ls, exists r,
     for_each list_step (IL_False, []) (ls ++ [lit "text"]) = Some (IL_False, r)).
Proof.
  split; [reflexivity|].
  split; [vm_compute; reflexivity|]. split; [discriminate|].
  do 3 (split; [vm_compute; reflexivity|]).
  apply (@bullet_run_grouped [lit "1. x"; lit "intro"]
           [lit "<ol>"; lit "<li>x</li>"; lit "</ol>"; lit "intro"]
           [lit "a"; lit "b c"] (lit "text") [lit "- d"]);
    try discriminate; vm_compute; reflexivity.
Defined.

(** X2: a run of ordered items that begins where no list is open is put
    in one [<ol>] container, closed by [</ol>] before the next line that
    is no item, or at the end of the input. *)
Theorem ordered_run_grouped (before r0 : list str) (items : list (str * str))
    (other : str) (more : list str) :
  forallb (forallb is_ascii) before = true ->
  for_each list_step (IL_False, []) before = Some (IL_False, r0) ->
  items <> [] -> forallb ordered_item items = true ->
  is_other other = true -> forallb is_ascii other = true ->
  list_lines (before ++ map (fun it => ordered_line (fst it) (snd it)) items ++
              other :: more) =
    (r <- list_lines more ;;
     Some (r0 ++ lit "<ol>" :: map (fun it => li (snd it)) items ++
           lit "</ol>" :: other :: r)) /\
  list_lines (before ++ map (fun it => ordered_line (fst it) (snd it)) items) =
    Some (r0 ++ lit "<ol>" :: map (fun it => li (snd it)) items ++ [lit "</ol>"]).
Proof.
  intros _ Hb Hne H Ho _.
  assert (Hrun : for_each list_step (IL_False, [])
                   (before ++ map (fun it => ordered_line (fst it) (snd it)) items) =
                 Some (IL_ol, r0 ++ lit "<ol>" :: map (fun it => li (snd it)) items)).
  { rewrite for_each_app, Hb. cbn [bind].
    replace (IL_False, r0) with (prepend r0 (IL_False, []))
      by (unfold prepend; cbn [fst snd]; now rewrite app_nil_r).
    rewrite for_each_prepend, (ordered_run Hne H). reflexivity. }
  split.
  - replace (before ++ map (fun it => ordered_line (fst it) (snd it)) items ++ other :: more)
      with ((before ++ map (fun it => ordered_line (fst it) (snd it)) items ++ [other])
            ++ more)
      by (rewrite <- !app_assoc; reflexivity).
    rewrite (@list_lines_restart _ more
               (r0 ++ lit "<ol>" :: map (fun it => li (snd it)) items ++
                [lit "</ol>"; other])).
    + destruct (list_lines more) as [r|]; cbn [bind]; [|reflexivity].
      rewrite <- ?app_assoc. cbn [app]. rewrite <- ?app_assoc. reflexivity.
    + rewrite app_assoc, for_each_app, Hrun. cbn [bind for_each].
      rewrite (list_step_is_other IL_ol _ other Ho). cbn [bind truth closing_tag].
      rewrite <- ?app_assoc. cbn [app]. rewrite <- ?app_assoc. reflexivity.
  - unfold list_lines. rewrite Hrun. cbn [bind truth closing_tag].
    rewrite <- app_assoc. reflexivity.
Qed.

Lemma ordered_run_grouped_witness :
  forallb (forallb is_ascii) [lit "- z"; lit "intro"] = true /\
  for_each list_step (IL_False, []) [lit "- z"; lit "intro"] =
    Some (IL_False, [lit "<ul>"; lit "<li>z</li>"; lit "</ul>"; lit "intro"]) /\
  [(lit "1", lit "a"); (lit "10", lit "b")] <> [] /\
  forallb ordered_item [(lit "1", lit "a"); (lit "10", lit "b")] = true /\
  is_other [] = true /\ forallb is_ascii [] = true /\
  list_lines ([lit "- z"; lit "intro"] ++
              map (fun it => ordered_line (fst it) (snd it))
                  [(lit "1", lit "a"); (lit "10", lit "b")] ++ [] :: [lit "end"]) =
    (r <- list_lines [lit "end"] ;;
     Some ([lit "<ul>"; lit "<li>z</li>"; lit "</ul>"; lit "intro"] ++
           lit "<ol>" :: map (fun it => li (snd it)) [(lit "1", lit "a"); (lit "10", lit "b")]
           ++ lit "</ol>" :: [] :: r)) /\
  list_lines ([lit "- z"; lit "intro"] ++
              map (fun it => ordered_line (fst it) (snd it))
                  [(lit "1", lit "a"); (lit "10", lit "b")]) =
    Some ([lit "<ul>"; lit "<li>z</li>"; lit "</ul>"; lit "intro"] ++
          lit "<ol>" :: map (fun it => li (snd it)) [(lit "1", lit "a"); (lit "10", lit "b")]
          ++ [lit "</ol>"]).
Proof.
  split; [reflexivity|].
  split; [vm_compute; reflexivity|]. split; [discriminate|].
  do 3 (split; [vm_compute; reflexivity|]).
  apply (@ordered_run_grouped [lit "- z"; lit "intro"]
           [lit "<ul>"; lit "<li>z</li>"; lit "</ul>"; lit "intro"]
           [(lit "1", lit "a"); (lit "10", lit "b")] [] [lit "end"]);
    try discriminate; vm_compute; reflexivity.
Defined.

(** X3: the kind of the first item of a run decides the container.
    Ordered items after regular items are put in the [<ul>] that is open,
    regular items after ordered items in the [<ol>]; no container is
    closed or opened where the kind changes. *)
Theorem mixed_run_one_container (texts : list str) (items : list (str * str)) :
  texts <> [] -> items <> [] ->
  forallb bullet_text texts = true -> forallb ordered_item items = true ->
  list_lines (map bullet_line texts ++
              map (fun it => ordered_line (fst it) (snd it)) items) =
    Some (ul_tag :: map li texts ++ map (fun it => li (snd it)) items ++ [lit "</ul>"]) /\
  list_lines (map (fun it => ordered_line (fst it) (snd it)) items ++
              map bullet_line texts) =
    Some (ol_tag :: map (fun it => li (snd it)) items ++ map li texts ++ [lit "</ol>"]).
Proof.
  intros Ht Hi Hts His. split; unfold list_lines; rewrite for_each_app.
  - rewrite (bullets_run Ht Hts). cbn [bind].
    rewrite (ordered_open items IL_True _ eq_refl His). cbn [bind truth closing_tag app].
    now rewrite <- app_assoc.
  - rewrite (ordered_run Hi His). cbn [bind].
    rewrite (bullets_open_any texts IL_ol _ eq_refl Hts). cbn [bind truth closing_tag app].
    now rewrite <- app_assoc.
Qed.

Lemma mixed_run_one_container_witness :
  [lit "a"] <> [] /\ [(lit "1", lit "b")] <> [] /\
  forallb bullet_text [lit "a"] = true /\
  forallb ordered_item [(lit "1", lit "b")] = true /\
  list_lines (map bullet_line [lit "a"] ++
              map (fun it => ordered_line (fst it) (snd it)) [(lit "1", lit "b")]) =
    Some (ul_tag :: map li [lit "a"] ++
          map (fun it => li (snd it)) [(lit "1", lit "b")] ++ [lit "</ul>"]) /\
  list_lines (map (fun it => ordered_line (fst it) (snd it)) [(lit "1", lit "b")] ++
              map bullet_line [lit "a"]) =
    Some (ol_tag :: map (fun it => li (snd it)) [(lit "1", lit "b")] ++
          map li [lit "a"] ++ [lit "</ol>"]).
Proof.
  split; [discriminate|]. split; [discriminate|].
  split; [vm_compute; reflexivity|]. split; [vm_compute; reflexivity|].
  apply (@mixed_run_one_container [lit "a"] [(lit "1", lit "b")]);
    try discriminate; vm_compute; reflexivity.
Defined.

(** X4: an ASCII text without a line that is a list item comes out of
    the list pass as it went in: splitting at the newlines and joining
    again loses nothing, a newline at the end included. *)
Theorem lists_pass_no_items (s : str) :
  forallb is_ascii s = true ->
  forallb is_other (split NL s) = true -> lists_pass s = Some s.
Proof.
  intros _ H. unfold lists_pass, list_lines.
  rewrite (for_each_is_other _ [] H). cbn [bind truth app].
  now rewrite join_split.
Qed.

Lemma lists_pass_no_items_witness :
  forallb is_ascii (lit "-a" ++ NL :: lit "1.b" ++ [NL; NL]) = true /\
  forallb is_other (split NL (lit "-a" ++ NL :: lit "1.b" ++ [NL; NL])) = true /\
  lists_pass (lit "-a" ++ NL :: lit "1.b" ++ [NL; NL]) =
    Some (lit "-a" ++ NL :: lit "1.b" ++ [NL; NL]).
Proof.
  split; [reflexivity|]. split; [vm_compute; reflexivity|].
  apply (@lists_pass_no_items (lit "-a" ++ NL :: lit "1.b" ++ [NL; NL]));
    vm_compute; reflexivity.
Defined.

(** ** Checklist lines *)







(** ** Paragraph breaks *)

Lemma blank_lines_none (pv : option ascii) (w : str) :
  starts_with [NL; NL] w = false -> match_at re_blank_lines pv w = None.
Proof.
  intros Hw. apply match_at_None. unfold re_blank_lines.
  rewrite m_Seq, m_Chr. destruct w as [|c w]; [reflexivity|].
  destruct (is_char NL c) eqn:Ec; [|reflexivity].
  rewrite m_Plus_Chr. destruct w as [|d w]; [reflexivity|].
  destruct (is_char NL d) eqn:Ed; [|reflexivity].
  unfold starts_with in Hw. cbn [strip_prefix] in Hw.
  unfold is_char in Ec, Ed. rewrite Ec, Ed in Hw. discriminate.
Qed.

Lemma repeat_NL_class (k : nat) : forallb (is_char NL) (repeat NL k) = true.
Proof. induction k as [|k IH]; [reflexivity|]. cbn [repeat forallb]. now rewrite IH. Qed.

Lemma stops_NL (b : str) :
  occurs [NL; NL] (NL :: b) = false -> stops (is_char NL) b = true.
Proof.
  intros H. apply occurs_head in H. destruct b as [|c b]; [reflexivity|].
  unfold starts_with in H. cbn [strip_prefix] in H. rewrite Ascii.eqb_refl in H.
  cbn [stops]. unfold is_char. destruct (Ascii.eqb NL c); [discriminate | reflexivity].
Qed.

(** The pattern of line 129 on a run of two newlines or more. *)
Lemma match_blank_lines (pv : option ascii) (k : nat) (b : str) :
  stops (is_char NL) b = true ->
  match_at re_blank_lines pv (repeat NL (2 + k) ++ b) =
  Some (mkMobj (repeat NL (2 + k)) [] 0).
Proof.
  intros Hb.
  assert (H : m re_blank_lines Some (mkPos pv (repeat NL (2 + k) ++ b) []) =
              Some (mkPos (prev_after (repeat NL (1 + k)) (Some NL)) b [])).
  { unfold re_blank_lines. cbn [Nat.add repeat app].
    rewrite m_Seq, m_Chr. unfold is_char at 1. rewrite Ascii.eqb_refl.
    change (NL :: repeat NL k ++ b) with (repeat NL (1 + k) ++ b).
    apply m_Plus_run; [discriminate | apply repeat_NL_class | exact Hb | reflexivity]. }
  apply match_at_Some in H. exact H.
Qed.

(** X6: a run of two newlines or more between two texts is replaced by
    one paragraph break, however long the run is, and the whole is put
    between [<p>] and [</p>]. *)
Theorem paragraph_break (a b : str) (k : nat) :
  occurs [NL; NL] (a ++ [NL]) = false -> occurs [NL; NL] (NL :: b) = false ->
  paragraphs_pass (a ++ repeat NL (2 + k) ++ b) =
  Some (lit "<p>" ++ a ++ [NL] ++ lit "</p>" ++ [NL] ++ lit "<p>" ++ [NL] ++ b ++ lit "</p>").
Proof.
  intros Ha Hb. unfold paragraphs_pass.
  rewrite re_sub_valid by reflexivity.
  rewrite sub_loop_prefix.
  - rewrite (@sub_loop_match _ _ _ (repeat NL (2 + k)) b _
               ([NL] ++ lit "</p>" ++ [NL] ++ lit "<p>" ++ [NL])
               (@match_blank_lines _ k b (@stops_NL b Hb)) eq_refl).
    + rewrite (@sub_loop_id_inv _ _ (fun _ w => occurs [NL; NL] w = false)).
      * cbn [bind]. rewrite <- !app_assoc. reflexivity.
      * intros pv w Hw. apply blank_lines_none. now apply occurs_head.
      * intros pv c w Hw. now apply occurs_tail in Hw.
      * now apply occurs_tail in Hb.
    + discriminate.
    + reflexivity.
  - intros a1 a2 -> Hne. apply blank_lines_none.
    rewrite <- app_assoc in Ha. apply occurs_suffix, occurs_head in Ha.
    change (repeat NL (2 + k) ++ b) with ([NL] ++ repeat NL (1 + k) ++ b).
    rewrite app_assoc, starts_with_long; [exact Ha|].
    rewrite length_app. destruct a2; [congruence|]. cbn. lia.
Qed.

Lemma paragraph_break_witness :
  occurs [NL; NL] (lit "one" ++ [NL]) = false /\
  occurs [NL; NL] (NL :: lit "two") = false /\
  paragraphs_pass (lit "one" ++ repeat NL (2 + 3) ++ lit "two") =
  Some (lit "<p>" ++ lit "one" ++ [NL] ++ lit "</p>" ++ [NL] ++ lit "<p>" ++ [NL] ++
        lit "two" ++ lit "</p>").
Proof.
  split; [reflexivity|]. split; [reflexivity|].
  apply (@paragraph_break (lit "one") (lit "two") 3); reflexivity.
Defined.

(** ** Inline markup *)

(** X7: a span between two backticks becomes a [<code>] element with the
    text of the span as it is; the span may run over several lines. *)
Theorem inline_code_span (pre code post : str) :
  inline_free pre = true -> inline_free code = true -> inline_free post = true ->
  code <> [] ->
  inline_pass (pre ++ lit "`" ++ code ++ lit "`" ++ post) =
  Some (pre ++ lit "<code>" ++ code ++ lit "</code>" ++ post).
Proof.
  intros Hpre Hcode Hpost Hne.
  pose proof (inline_free_not "`" pre eq_refl Hpre) as Hp1.
  pose proof (inline_free_not "*" pre eq_refl Hpre) as Hp2.
  pose proof (inline_free_not "[" pre eq_refl Hpre) as Hp3.
  pose proof (inline_free_not "`" code eq_refl Hcode) as Hc1.
  pose proof (inline_free_not "*" code eq_refl Hcode) as Hc2.
  pose proof (inline_free_not "[" code eq_refl Hcode) as Hc3.
  pose proof (inline_free_not "`" post eq_refl Hpost) as Hq1.
  pose proof (inline_free_not "*" post eq_refl Hpost) as Hq2.
  pose proof (inline_free_not "[" post eq_refl Hpost) as Hq3.
  assert (H1 : re_sub re_inline_code tmpl_inline_code
                 (pre ++ (lit "`" ++ code ++ lit "`") ++ post) =
               Some (pre ++ (lit "<code>" ++ code ++ lit "</code>") ++ post)).
  { apply (@re_sub_first "`" [] _ tmpl_inline_code pre (lit "`" ++ code ++ lit "`") post
             (mkMobj (lit "`" ++ code ++ lit "`") [(1, code)] 1));
      try assumption; try reflexivity; [discriminate|].
    intros pv. now apply match_inline_code. }
  unfold inline_pass.
  replace (pre ++ lit "`" ++ code ++ lit "`" ++ post)
    with (pre ++ (lit "`" ++ code ++ lit "`") ++ post) by (now rewrite <- !app_assoc).
  rewrite H1. cbn [bind].
  destruct (@emph_link_id (pre ++ (lit "<code>" ++ code ++ lit "</code>") ++ post))
    as (Hb & Hi & Hl); [free_all | free_all |].
  rewrite Hb. cbn [bind]. rewrite Hi. cbn [bind]. rewrite Hl.
  now rewrite <- !app_assoc.
Qed.

Lemma inline_code_span_witness :
  inline_free (lit "run ") = true /\
  inline_free (lit "make" ++ NL :: lit "all") = true /\
  inline_free (lit " now") = true /\
  lit "make" ++ NL :: lit "all" <> [] /\
  inline_pass (lit "run " ++ lit "`" ++ (lit "make" ++ NL :: lit "all") ++ lit "`" ++ lit " now") =
  Some (lit "run " ++ lit "<code>" ++ (lit "make" ++ NL :: lit "all") ++ lit "</code>" ++
        lit " now").
Proof.
  do 3 (split; [reflexivity|]). split; [discriminate|].
  apply (@inline_code_span (lit "run ") (lit "make" ++ NL :: lit "all") (lit " now"));
    try discriminate; reflexivity.
Defined.

Lemma occurs_two_stars (mid y post : str) :
  forallb (not_char "*") mid = true -> forallb (not_char "*") y = true ->
  forallb (not_char "*") post = true -> y <> [] ->
  occurs (lit "**") (mid ++ (lit "*" ++ y ++ lit "*") ++ post) = false.
Proof.
  intros Hm Hy Hp Hne.
  change (lit "**") with ("*"%char :: lit "*").
  rewrite occurs_free by exact Hm.
  rewrite <- !app_assoc. cbn [lit list_ascii_of_string app].
  rewrite occurs_step.
  - rewrite occurs_free by exact Hy.
    rewrite occurs_step.
    + now apply occurs_absent.
    + unfold starts_with. cbn [strip_prefix]. rewrite Ascii.eqb_refl.
      destruct post as [|c post]; [reflexivity|].
      cbn [forallb] in Hp. apply andb_true_iff in Hp. destruct Hp as [Hc _].
      unfold not_char in Hc. apply negb_true_iff in Hc. now rewrite Hc.
  - unfold starts_with. cbn [strip_prefix]. rewrite Ascii.eqb_refl.
    destruct y as [|c y]; [congruence|].
    cbn [forallb] in Hy. apply andb_true_iff in Hy. destruct Hy as [Hc _].
    unfold not_char in Hc. apply negb_true_iff in Hc. cbn [app]. now rewrite Hc.
Qed.

(** X8: a bold span and an italic span in one text give a [<strong>] and
    an [<em>] element, each around its own text: the bold pass, which
    runs first, stops at the first closing [**], and leaves the single
    asterisks to the italic pass. *)
Theorem bold_and_italic (pre x mid y post : str) :
  inline_free pre = true -> inline_free mid = true -> inline_free post = true ->
  inline_free x = true -> item_text x = true ->
  inline_free y = true -> item_text y = true ->
  inline_pass (pre ++ lit "**" ++ x ++ lit "**" ++ mid ++ lit "*" ++ y ++ lit "*" ++ post) =
  Some (pre ++ lit "<strong>" ++ x ++ lit "</strong>" ++ mid ++
        lit "<em>" ++ y ++ lit "</em>" ++ post).
Proof.
  intros Hpre Hmid Hpost Hx Hxt Hy Hyt.
  apply item_text_ok in Hxt. destruct Hxt as [Hxn Hxd].
  apply item_text_ok in Hyt. destruct Hyt as [Hyn Hyd].
  pose proof (inline_free_not "`" pre eq_refl Hpre) as Hp1.
  pose proof (inline_free_not "*" pre eq_refl Hpre) as Hp2.
  pose proof (inline_free_not "[" pre eq_refl Hpre) as Hp3.
  pose proof (inline_free_not "`" mid eq_refl Hmid) as Hm1.
  pose proof (inline_free_not "*" mid eq_refl Hmid) as Hm2.
  pose proof (inline_free_not "[" mid eq_refl Hmid) as Hm3.
  pose proof (inline_free_not "`" post eq_refl Hpost) as Hq1.
  pose proof (inline_free_not "*" post eq_refl Hpost) as Hq2.
  pose proof (inline_free_not "[" post eq_refl Hpost) as Hq3.
  pose proof (inline_free_not "`" x eq_refl Hx) as Hx1.
  pose proof (inline_free_not "*" x eq_refl Hx) as Hx2.
  pose proof (inline_free_not "[" x eq_refl Hx) as Hx3.
  pose proof (inline_free_not "`" y eq_refl Hy) as Hy1.
  pose proof (inline_free_not "*" y eq_refl Hy) as Hy2.
  pose proof (inline_free_not "[" y eq_refl Hy) as Hy3.
  set (s0 := pre ++ (lit "**" ++ x ++ lit "**") ++ mid ++ (lit "*" ++ y ++ lit "*") ++ post).
  set (s1 := pre ++ (lit "<strong>" ++ x ++ lit "</strong>") ++
             mid ++ (lit "*" ++ y ++ lit "*") ++ post).
  set (s2 := (pre ++ (lit "<strong>" ++ x ++ lit "</strong>") ++ mid) ++
             (lit "<em>" ++ y ++ lit "</em>") ++ post).
  assert (H0 : re_sub re_inline_code tmpl_inline_code s0 = Some s0).
  { apply (@re_sub_free "`" []); [reflexivity|]. unfold s0. free_all. }
  assert (H1 : re_sub re_bold tmpl_bold s0 = Some s1).
  { unfold s0, s1. rewrite re_sub_valid by reflexivity.
    unfold re_bold.
    change (lit "**") with ("*"%char :: lit "*").
    rewrite (@sub_loop_first "*" (lit "*") _ _ pre
               (("*"%char :: lit "*") ++ x ++ ("*"%char :: lit "*"))
               (mid ++ (lit "*" ++ y ++ lit "*") ++ post)
               (lit "<strong>" ++ x ++ lit "</strong>") Hp2).
    - rewrite sub_loop_no_occ by (now apply occurs_two_stars). reflexivity.
    - discriminate.
    - intros pv. eexists. split; [now apply match_emph|]. split; reflexivity. }
  assert (H2 : re_sub re_italic tmpl_italic s1 = Some s2).
  { unfold s1, s2.
    replace (pre ++ (lit "<strong>" ++ x ++ lit "</strong>") ++
             mid ++ (lit "*" ++ y ++ lit "*") ++ post)
      with ((pre ++ (lit "<strong>" ++ x ++ lit "</strong>") ++ mid) ++
            (lit "*" ++ y ++ lit "*") ++ post) by (now rewrite <- !app_assoc).
    apply (@re_sub_first "*" [] _ tmpl_italic _ (lit "*" ++ y ++ lit "*") post
             (mkMobj (lit "*" ++ y ++ lit "*") [(1, y)] 1));
      try assumption; try reflexivity; [free_all | discriminate |].
    intros pv. now apply (@match_emph "*" []). }
  assert (H3 : re_sub re_link tmpl_link s2 = Some s2).
  { apply (@re_sub_free "[" []); [reflexivity|]. unfold s2. free_all. }
  unfold inline_pass.
  replace (pre ++ lit "**" ++ x ++ lit "**" ++ mid ++ lit "*" ++ y ++ lit "*" ++ post)
    with s0 by (unfold s0; now rewrite <- !app_assoc).
  rewrite H0. cbn [bind]. rewrite H1. cbn [bind]. rewrite H2. cbn [bind]. rewrite H3.
  unfold s2. now rewrite <- !app_assoc.
Qed.

Lemma bold_and_italic_witness :
  inline_free [] = true /\ inline_free (lit " ") = true /\ inline_free [] = true /\
  inline_free (lit "x") = true /\ item_text (lit "x") = true /\
  inline_free (lit "y") = true /\ item_text (lit "y") = true /\
  inline_pass ([] ++ lit "**" ++ lit "x" ++ lit "**" ++ lit " " ++
               lit "*" ++ lit "y" ++ lit "*" ++ []) =
  Some ([] ++ lit "<strong>" ++ lit "x" ++ lit "</strong>" ++ lit " " ++
        lit "<em>" ++ lit "y" ++ lit "</em>" ++ []).
Proof.
  do 7 (split; [reflexivity|]).
  apply (@bold_and_italic [] (lit "x") (lit " ") (lit "y") []); reflexivity.
Defined.

(** X9: a link becomes an anchor whose [href] is the address as it is
    written, nothing escaped, and whose content is the text of the
    link. *)
Theorem link_rewritten (pre text url post : str) :
  inline_free pre = true -> inline_free post = true ->
  inline_free text = true -> forallb (not_char "]") text = true -> text <> [] ->
  inline_free url = true -> forallb (not_char ")") url = true -> url <> [] ->
  inline_pass (pre ++ lit "[" ++ text ++ lit "](" ++ url ++ lit ")" ++ post) =
  Some (pre ++ lit "<a href=" ++ [DQ] ++ url ++ [DQ] ++ lit ">" ++ text ++ lit "</a>" ++ post).
Proof.
  intros Hpre Hpost Ht Htc Htn Hu Huc Hun.
  pose proof (inline_free_not "`" pre eq_refl Hpre) as Hp1.
  pose proof (inline_free_not "*" pre eq_refl Hpre) as Hp2.
  pose proof (inline_free_not "[" pre eq_refl Hpre) as Hp3.
  pose proof (inline_free_not "`" post eq_refl Hpost) as Hq1.
  pose proof (inline_free_not "*" post eq_refl Hpost) as Hq2.
  pose proof (inline_free_not "[" post eq_refl Hpost) as Hq3.
  pose proof (inline_free_not "`" text eq_refl Ht) as Ht1.
  pose proof (inline_free_not "*" text eq_refl Ht) as Ht2.
  pose proof (inline_free_not "`" url eq_refl Hu) as Hu1.
  pose proof (inline_free_not "*" url eq_refl Hu) as Hu2.
  set (s0 := pre ++ (lit "[" ++ text ++ lit "](" ++ url ++ lit ")") ++ post).
  assert (H0 : re_sub re_inline_code tmpl_inline_code s0 = Some s0).
  { apply (@re_sub_free "`" []); [reflexivity|]. unfold s0. free_all. }
  assert (H1 : re_sub re_bold tmpl_bold s0 = Some s0).
  { apply (@re_sub_free "*" (lit "*")); [reflexivity|]. unfold s0. free_all. }
  assert (H2 : re_sub re_italic tmpl_italic s0 = Some s0).
  { apply (@re_sub_free "*" []); [reflexivity|]. unfold s0. free_all. }
  assert (H3 : re_sub re_link tmpl_link s0 =
               Some (pre ++ expand tmpl_link
                              (mkMobj (lit "[" ++ text ++ lit "](" ++ url ++ lit ")")
                                      [(2, url); (1, text)] 2) ++ post)).
  { apply (@re_sub_first "[" [] _ tmpl_link pre _ post);
      try assumption; try reflexivity; [discriminate|].
    intros pv. now apply match_link. }
  unfold inline_pass.
  replace (pre ++ lit "[" ++ text ++ lit "](" ++ url ++ lit ")" ++ post)
    with s0 by (unfold s0; now rewrite <- !app_assoc).
  rewrite H0. cbn [bind]. rewrite H1. cbn [bind]. rewrite H2. cbn [bind]. rewrite H3.
  unfold tmpl_link, tl. cbn [expand m_caps assoc Nat.eqb].
  rewrite app_nil_r. now rewrite <- !app_assoc.
Qed.

Lemma link_rewritten_witness :
  inline_free (lit "see ") = true /\ inline_free (lit ".") = true /\
  inline_free (lit "the docs") = true /\ forallb (not_char "]") (lit "the docs") = true /\
  lit "the docs" <> [] /\
  inline_free (lit "a.html?q=<b>&r=" ++ [DQ]) = true /\
  forallb (not_char ")") (lit "a.html?q=<b>&r=" ++ [DQ]) = true /\
  lit "a.html?q=<b>&r=" ++ [DQ] <> [] /\
  inline_pass (lit "see " ++ lit "[" ++ lit "the docs" ++ lit "](" ++
               (lit "a.html?q=<b>&r=" ++ [DQ]) ++ lit ")" ++ lit ".") =
  Some (lit "see " ++ lit "<a href=" ++ [DQ] ++ (lit "a.html?q=<b>&r=" ++ [DQ]) ++ [DQ] ++
        lit ">" ++ lit "the docs" ++ lit "</a>" ++ lit ".").
Proof.
  do 4 (split; [reflexivity|]). split; [discriminate|].
  do 2 (split; [reflexivity|]). split; [discriminate|].
  apply (@link_rewritten (lit "see ") (lit "the docs") (lit "a.html?q=<b>&r=" ++ [DQ]) (lit "."));
    try discriminate; reflexivity.
Defined.

(** X10: a text with one asterisk has no span for the bold or the italic
    pass: the asterisk stays as it is. *)
Theorem lone_asterisk (a b : str) :
  inline_free a = true -> inline_free b = true ->
  inline_pass (a ++ lit "*" ++ b) = Some (a ++ lit "*" ++ b).
Proof.
  intros Ha Hb.
  pose proof (inline_free_not "`" a eq_refl Ha) as Ha1.
  pose proof (inline_free_not "*" a eq_refl Ha) as Ha2.
  pose proof (inline_free_not "[" a eq_refl Ha) as Ha3.
  pose proof (inline_free_not "`" b eq_refl Hb) as Hb1.
  pose proof (inline_free_not "*" b eq_refl Hb) as Hb2.
  pose proof (inline_free_not "[" b eq_refl Hb) as Hb3.
  set (s := a ++ lit "*" ++ b).
  assert (H0 : re_sub re_inline_code tmpl_inline_code s = Some s).
  { apply (@re_sub_free "`" []); [reflexivity|]. unfold s. free_all. }
  assert (H1 : re_sub re_bold tmpl_bold s = Some s).
  { rewrite re_sub_valid by reflexivity. unfold re_bold. apply sub_loop_no_occ.
    unfold s. change (lit "**") with ("*"%char :: lit "*").
    rewrite occurs_free by exact Ha2. cbn [lit list_ascii_of_string app].
    rewrite occurs_step.
    - now apply occurs_absent.
    - unfold starts_with. cbn [strip_prefix]. rewrite Ascii.eqb_refl.
      destruct b as [|c b]; [reflexivity|].
      cbn [forallb] in Hb2. apply andb_true_iff in Hb2. destruct Hb2 as [Hc _].
      unfold not_char in Hc. apply negb_true_iff in Hc. now rewrite Hc. }
  assert (H2 : re_sub re_italic tmpl_italic s = Some s).
  { rewrite re_sub_valid by reflexivity. apply sub_loop_id. intros a' w E.
    destruct (match_at re_italic (prev_after a' None) w) as [mo|] eqn:Hm; [|reflexivity].
    exfalso. unfold re_italic in Hm. apply needs_close in Hm.
    destruct Hm as (t & -> & Ht). unfold s in E.
    change (lit "*" ++ b) with ("*"%char :: b) in E.
    change (lit "*" ++ t) with ("*"%char :: t) in E.
    destruct (@free_prefix_shorter _ a a' _ _ Ha2 E) as [z Hz].
    destruct z as [|c z].
    - cbn [app] in Hz. injection Hz as ->.
      pose proof (@occurs_absent "*" [] t Hb2) as Hn.
      change (lit "*") with ["*"%char] in Ht. congruence.
    - cbn [app] in Hz. injection Hz as _ ->.
      rewrite forallb_app in Hb2. apply andb_true_iff in Hb2. destruct Hb2 as [_ Hb2].
      cbn [forallb] in Hb2. discriminate. }
  assert (H3 : re_sub re_link tmpl_link s = Some s).
  { apply (@re_sub_free "[" []); [reflexivity|]. unfold s. free_all. }
  unfold inline_pass. fold s.
  rewrite H0. cbn [bind]. rewrite H1. cbn [bind]. rewrite H2. cbn [bind]. exact H3.
Qed.

Lemma lone_asterisk_witness :
  inline_free (lit "2 ") = true /\ inline_free (lit " 3 = 6") = true /\
  inline_pass (lit "2 " ++ lit "*" ++ lit " 3 = 6") =
  Some (lit "2 " ++ lit "*" ++ lit " 3 = 6").
Proof.
  do 2 (split; [reflexivity|]).
  apply (@lone_asterisk (lit "2 ") (lit " 3 = 6")); reflexivity.
Defined.

(** ** The place of the output (lines 206-242) *)

(** X11: the three prefixes given to the page template are the same
    one, and it leads from the directory of the output file back to the
    output base: [../] for a file in one of the folders, nothing for a
    file at the root. *)
Theorem place_prefixes (path name stem : str) :
  css_path (place path name stem) = root_path (place path name stem) /\
  js_path (place path name stem) = root_path (place path name stem) /\
  root_path (place path name stem) =
    up (length (output_path (place path name stem)) - 1).
Proof.
  unfold place.
  destruct (occurs (lit "submission/app-store") path); [repeat split|].
  destruct (occurs (lit "submission/beta-testing") path); [repeat split|].
  destruct (occurs (lit "submission/marketing") path); [repeat split|].
  destruct (occurs (lit "submission/implementation") path); [repeat split|].
  destruct (occurs (lit "submission") path && eqb_str name (lit "README.md"));
    [repeat split|].
  destruct (occurs (lit "Sponge/ai") path); repeat split.
Qed.

Lemma eqb_str_refl : forall s : str, eqb_str s s = true.
Proof.
  induction s as [|c s IH]; [reflexivity|]. cbn [eqb_str].
  now rewrite Ascii.eqb_refl, IH.
Qed.

Lemma relative_to_app : forall (base rest : list str),
  relative_to (base ++ rest) base = Some rest.
Proof.
  induction base as [|b base IH]; intros rest; [destruct rest; reflexivity|].
  cbn [app relative_to]. now rewrite eqb_str_refl.
Qed.

(** X12: a file under the base directory whose path has neither
    [submission] nor [Sponge/ai] in it is put at the root of the output,
    under its stem with the extension [.html], with empty prefixes.  For
    a path that is not under the base directory line 204 raises, and
    nothing is placed. *)
Theorem place_root (rest : list str) (name stem : str) :
  forallb component rest = true ->
  occurs (lit "submission") (path_str (base_dir ++ rest)) = false ->
  occurs (lit "Sponge/ai") (path_str (base_dir ++ rest)) = false ->
  locate (base_dir ++ rest) name stem = Some (mkTarget [stem ++ lit ".html"] [] [] []) /\
  (forall parts, relative_to parts base_dir = None -> locate parts name stem = None).
Proof.
  intros _ Hs Ha. split.
  - unfold locate. rewrite relative_to_app. cbn [bind]. f_equal. unfold place.
    change (lit "submission/app-store") with (lit "submission" ++ lit "/app-store").
    change (lit "submission/beta-testing") with (lit "submission" ++ lit "/beta-testing").
    change (lit "submission/marketing") with (lit "submission" ++ lit "/marketing").
    change (lit "submission/implementation") with (lit "submission" ++ lit "/implementation").
    rewrite !occurs_longer by exact Hs. rewrite Hs, Ha. reflexivity.
  - intros parts H. unfold locate. now rewrite H.
Qed.

Lemma place_root_witness :
  forallb component [lit "CHANGELOG.md"] = true /\
  occurs (lit "submission") (path_str (base_dir ++ [lit "CHANGELOG.md"])) = false /\
  occurs (lit "Sponge/ai") (path_str (base_dir ++ [lit "CHANGELOG.md"])) = false /\
  locate (base_dir ++ [lit "CHANGELOG.md"]) (lit "CHANGELOG.md") (lit "CHANGELOG") =
    Some (mkTarget [lit "CHANGELOG" ++ lit ".html"] [] [] []) /\
  (forall parts, relative_to parts base_dir = None ->
                 locate parts (lit "CHANGELOG.md") (lit "CHANGELOG") = None).
Proof.
  do 3 (split; [vm_compute; reflexivity|]).
  apply (@place_root [lit "CHANGELOG.md"] (lit "CHANGELOG.md") (lit "CHANGELOG"));
    vm_compute; reflexivity.
Defined.

(** ** A heading alone *)

Lemma line_starts_dot : forall s : str,
  forallb dot s = true -> line_starts_ok false s = true.
Proof.
  induction s as [|c s IH]; intros H; [reflexivity|].
  cbn [forallb] in H. apply andb_true_iff in H. destruct H as [Hc Hs].
  cbn [line_starts_ok andb negb].
  unfold dot, not_char in Hc. rewrite eqb_NL_sym in Hc. apply negb_true_iff in Hc.
  rewrite Hc. now apply IH.
Qed.

(** One line that begins with no character of a block. *)
Lemma line_starts_one (c : ascii) (s : str) :
  block_start c = false -> forallb dot (c :: s) = true ->
  line_starts_ok true (c :: s) = true.
Proof.
  intros Hc H. apply line_starts_dot in H. cbn [line_starts_ok] in *.
  rewrite Hc. cbn [andb negb] in *. exact H.
Qed.

(** Lines 57-67 on a line that is a heading of level 1, 3 or 4. *)
Lemma headers_pass_level (text : str) :
  text <> [] -> forallb dot text = true -> forallb (not_char "<") text = true ->
  headers_pass (lit "# " ++ text) = Some (heading_elt "1" text) /\
  headers_pass (lit "### " ++ text) = Some (heading_elt "3" text) /\
  headers_pass (lit "#### " ++ text) = Some (heading_elt "4" text).
Proof.
  intros Hne Hdot Hlt.
  assert (Hin : forall marker, forallb dot (lit marker) = true ->
                forallb dot (lit marker ++ text) = true).
  { intros marker Hm. rewrite forallb_app. now rewrite Hm, Hdot. }
  assert (Hout : forall n : ascii, not_char NL n = true ->
                 forallb dot (["<"; "h"; n; ">"]%char ++ text ++ ["<"; "/"; "h"; n; ">"]%char)
                 = true).
  { intros n Hn. apply forallb_wrap; try assumption;
      cbn [forallb]; unfold dot; rewrite Hn; reflexivity. }
  unfold headers_pass, heading_elt. repeat split.
  - unfold re_h1.
    rewrite (@heading_plain "# " "1" tmpl_h1 text)
      by (try assumption; discriminate || reflexivity). cbn [bind].
    rewrite (heading_none "## " tmpl_h2) by (try (apply Hout; reflexivity); reflexivity).
    cbn [bind].
    rewrite (heading_none "### " tmpl_h3) by (try (apply Hout; reflexivity); reflexivity).
    cbn [bind].
    rewrite (heading_none "#### " tmpl_h4) by (try (apply Hout; reflexivity); reflexivity).
    cbn [bind]. unfold re_sub_fn, re_h2_id.
    rewrite sub_loop_no_occ by (apply no_h2_in_heading; [cbn; tauto | exact Hlt]).
    reflexivity.
  - rewrite (heading_none "# " tmpl_h1) by (try apply Hin; reflexivity). cbn [bind].
    rewrite (heading_none "## " tmpl_h2) by (try apply Hin; reflexivity). cbn [bind].
    unfold re_h3.
    rewrite (@heading_plain "### " "3" tmpl_h3 text)
      by (try assumption; discriminate || reflexivity). cbn [bind].
    rewrite (heading_none "#### " tmpl_h4) by (try (apply Hout; reflexivity); reflexivity).
    cbn [bind]. unfold re_sub_fn, re_h2_id.
    rewrite sub_loop_no_occ by (apply no_h2_in_heading; [cbn; tauto | exact Hlt]).
    reflexivity.
  - rewrite (heading_none "# " tmpl_h1) by (try apply Hin; reflexivity). cbn [bind].
    rewrite (heading_none "## " tmpl_h2) by (try apply Hin; reflexivity). cbn [bind].
    rewrite (heading_none "### " tmpl_h3) by (try apply Hin; reflexivity). cbn [bind].
    unfold re_h4.
    rewrite (@heading_plain "#### " "4" tmpl_h4 text)
      by (try assumption; discriminate || reflexivity). cbn [bind].
    unfold re_sub_fn, re_h2_id.
    rewrite sub_loop_no_occ by (apply no_h2_in_heading; [cbn; tauto | exact Hlt]).
    reflexivity.
Qed.

(** The passes between the headings and the paragraphs leave the element
    of a heading as it is. *)
Lemma heading_elt_kept (n : ascii) (text : str) :
  In n ["1"; "3"; "4"]%char ->
  forallb plain_char text = true -> forallb dot text = true ->
  code_block_pass (heading_elt n text) = Some (heading_elt n text) /\
  inline_pass (heading_elt n text) = Some (heading_elt n text) /\
  lists_pass (heading_elt n text) = Some (heading_elt n text) /\
  paragraphs_pass (heading_elt n text) = Some (par (heading_elt n text)).
Proof.
  intros Hn Hp Hdot.
  pose proof (plain_not "`" text eq_refl Hp) as H1.
  pose proof (plain_not "*" text eq_refl Hp) as H2.
  pose proof (plain_not "[" text eq_refl Hp) as H3.
  assert (Hd : forallb dot (heading_elt n text) = true).
  { unfold heading_elt. destruct Hn as [<- | [<- | [<- | []]]]; free_all. }
  assert (F1 : forallb (not_char "`") (heading_elt n text) = true).
  { unfold heading_elt. destruct Hn as [<- | [<- | [<- | []]]]; free_all. }
  assert (F2 : forallb (not_char "*") (heading_elt n text) = true).
  { unfold heading_elt. destruct Hn as [<- | [<- | [<- | []]]]; free_all. }
  assert (F3 : forallb (not_char "[") (heading_elt n text) = true).
  { unfold heading_elt. destruct Hn as [<- | [<- | [<- | []]]]; free_all. }
  repeat split.
  - apply (@re_sub_free "`" (lit "``")); [reflexivity | exact F1].
  - unfold inline_pass, re_inline_code.
    rewrite (@re_sub_free "`" [] _ tmpl_inline_code) by (try exact F1; reflexivity).
    cbn [bind].
    destruct (@emph_link_id _ F2 F3) as (Hb & Hi & Hl).
    rewrite Hb. cbn [bind]. rewrite Hi. cbn [bind]. exact Hl.
  - apply lists_pass_plain. unfold heading_elt in *.
    now apply (@line_starts_one "<").
  - apply paragraphs_pass_plain. now apply (@occurs_absent NL [NL]).
Qed.

(** [<p>\s*</p>] on a paragraph that begins with something else than
    whitespace and [</p>]. *)
Lemma empty_par_none (pv : option ascii) (w : str) :
  stops is_space w = true -> starts_with (lit "</p>") w = false ->
  match_at re_empty_par pv (lit "<p>" ++ w) = None.
Proof.
  intros Hw Hs. apply match_at_None. unfold re_empty_par. rewrite m_Seq, m_Lit_app.
  destruct (m (spaces ;; Lit (lit "</p>")) Some _) as [p'|] eqn:H; [|reflexivity].
  exfalso. apply after_spaces_Lit in H. cbn [rest] in H.
  destruct H as (a & b & E & Ha & Hb).
  destruct a as [|c a].
  - cbn [app] in E. subst b. congruence.
  - subst w. cbn [app stops] in Hw. cbn [forallb] in Ha.
    apply andb_true_iff in Ha. destruct Ha as [Hc _]. rewrite Hc in Hw. discriminate.
Qed.

(** [(\s*l f)] as group [n] on a text that begins with the literal [l]
    and a character of [f]. *)
Lemma m_Grp_open (n : nat) (l : str) (f : ascii -> bool) (k : pos -> option pos)
    (pv : option ascii) (c : ascii) (tl : str) (cs : list (nat * str)) :
  stops is_space (l ++ c :: tl) = true -> f c = true ->
  m (Grp n (spaces ;; Lit l ;; Chr f)) k (mkPos pv (l ++ c :: tl) cs) =
  k (mkPos (Some c) tl ((n, l ++ [c]) :: cs)).
Proof.
  intros Hs Hf. rewrite m_Grp, m_Seq. unfold spaces. rewrite m_Star_Chr.
  cbn [prev rest caps].
  assert (Hg : forall k', greedy is_space k' pv (l ++ c :: tl) cs =
                          k' (mkPos pv (l ++ c :: tl) cs)).
  { intros k'. destruct (l ++ c :: tl) as [|d w]; [reflexivity|].
    cbn [stops] in Hs. apply negb_true_iff in Hs. cbn [greedy]. now rewrite Hs. }
  rewrite Hg, m_Seq, m_Lit_app, m_Chr, Hf.
  unfold set_cap, consumed. cbn [prev rest caps].
  replace (l ++ c :: tl) with ((l ++ [c]) ++ tl) by (now rewrite <- app_assoc).
  now rewrite firstn_app_exact.
Qed.

Lemma cleanup_heading (n : ascii) (text : str) :
  In n ["1"; "3"; "4"]%char -> forallb (not_char "<") text = true ->
  cleanup_pass (par (heading_elt n text)) = Some (heading_elt n text).
Proof.
  intros Hn Ht.
  assert (Hr : in_range 49 54 n = true) by (destruct Hn as [<- | [<- | [<- | []]]]; reflexivity).
  assert (Hp : occurs (lit "<p>") (heading_elt n text) = false).
  { unfold heading_elt. destruct Hn as [<- | [<- | [<- | []]]]; no_occ_with occurs_step occurs_free Ht. }
  assert (S1 : re_sub re_empty_par [] (par (heading_elt n text)) =
               Some (par (heading_elt n text))).
  { rewrite re_sub_valid by reflexivity. unfold par, heading_elt.
    change (lit "<p>" ++ ?w) with ("<"%char :: lit "p>" ++ w).
    rewrite sub_loop_skip_first.
    - unfold re_empty_par. rewrite sub_loop_no_occ; [reflexivity|].
      destruct Hn as [<- | [<- | [<- | []]]]; no_occ_with occurs_step occurs_free Ht.
    - apply (@empty_par_none None); reflexivity. }
  assert (S2 : re_sub re_p_heading tmpl_g1 (par (heading_elt n text)) =
               Some (heading_elt n text ++ lit "</p>")).
  { rewrite re_sub_valid by reflexivity. unfold re_p_heading.
    replace (par (heading_elt n text))
      with ([] ++ (lit "<p>" ++ ["<"; "h"; n]%char) ++
            ">"%char :: text ++ ["<"; "/"; "h"; n; ">"]%char ++ lit "</p>")
      by (unfold par, heading_elt; rewrite <- !app_assoc; reflexivity).
    rewrite (@sub_loop_first "<" (lit "p>") _ _ [] (lit "<p>" ++ ["<"; "h"; n]%char)
               (">"%char :: text ++ ["<"; "/"; "h"; n; ">"]%char ++ lit "</p>")
               ["<"; "h"; n]%char eq_refl).
    - rewrite sub_loop_no_occ.
      + cbn [bind]. unfold heading_elt. rewrite <- !app_assoc. reflexivity.
      + destruct Hn as [<- | [<- | [<- | []]]]; no_occ_with occurs_step occurs_free Ht.
    - discriminate.
    - intros pv. eexists. split; [|split].
      + eapply match_at_Some.
        change (Lit ("<"%char :: lit "p>")) with (Lit (lit "<p>")).
        rewrite <- app_assoc. rewrite m_Seq, m_Lit_app.
        change (["<"; "h"; n]%char ++ ?w) with (lit "<h" ++ n :: w).
        rewrite (@m_Grp_open 1 (lit "<h") _ Some _ n _ [] eq_refl Hr). reflexivity.
      + reflexivity.
      + reflexivity. }
  assert (S3 : re_sub re_heading_p tmpl_g1 (heading_elt n text ++ lit "</p>") =
               Some (heading_elt n text)).
  { rewrite re_sub_valid by reflexivity. unfold heading_elt.
    change ((["<"; "h"; n; ">"]%char ++ text ++ ["<"; "/"; "h"; n; ">"]%char) ++ lit "</p>")
      with ("<"%char :: (["h"; n; ">"]%char ++ text ++ ["<"; "/"; "h"; n; ">"]%char) ++
            lit "</p>").
    assert (Hnd : needs (lit "</h") re_heading_p)
      by (apply needs_Seq, needs_Grp, needs_Seq, needs_Lit).
    rewrite sub_loop_skip_first by (apply match_at_None, Hnd; reflexivity).
    replace ((["h"; n; ">"]%char ++ text ++ ["<"; "/"; "h"; n; ">"]%char) ++ lit "</p>")
      with ((["h"; n; ">"]%char ++ text) ++ (["<"; "/"; "h"; n; ">"]%char ++ lit "</p>") ++ [])
      by (now rewrite app_nil_r, <- !app_assoc).
    rewrite sub_loop_prefix.
    - rewrite (@sub_loop_match _ _ _ (["<"; "/"; "h"; n; ">"]%char ++ lit "</p>") []
                 (mkMobj (["<"; "/"; "h"; n; ">"]%char ++ lit "</p>")
                         [(1, ["<"; "/"; "h"; n; ">"]%char)] 1)
                 ["<"; "/"; "h"; n; ">"]%char).
      + cbn [sub_loop]. rewrite match_at_None by (apply Hnd; reflexivity).
        cbn [bind]. rewrite app_nil_r, <- app_assoc. reflexivity.
      + destruct Hn as [<- | [<- | [<- | []]]]; reflexivity.
      + reflexivity.
      + discriminate.
      + reflexivity.
    - intros a1 a2 E Hne. apply match_at_None, Hnd. cbn [rest].
      apply (@not_char_head "<" (lit "/h")); [|exact Hne].
      assert (Ha : forallb (not_char "<") (["h"; n; ">"]%char ++ text) = true)
        by (destruct Hn as [<- | [<- | [<- | []]]]; free_all).
      rewrite E, forallb_app in Ha. apply andb_true_iff in Ha. tauto. }
  unfold cleanup_pass. rewrite S1. cbn [bind]. rewrite S2. cbn [bind]. rewrite S3.
  cbn [bind]. unfold re_p_open, re_close_p.
  rewrite re_sub_needs with (p := lit "<p>");
    [ | reflexivity | apply needs_Seq, needs_Lit | exact Hp ].
  cbn [bind].
  rewrite re_sub_needs with (p := lit "</pre>");
    [ | reflexivity | apply needs_Seq, needs_Grp, needs_Lit
      | unfold heading_elt; destruct Hn as [<- | [<- | [<- | []]]]; no_occ_with occurs_step occurs_free Ht ].
  cbn [bind].
  rewrite re_sub_needs with (p := lit "<p>");
    [ | reflexivity | apply needs_Seq, needs_Lit | exact Hp ].
  cbn [bind].
  rewrite re_sub_needs with (p := lit "</ul>");
    [ | reflexivity | apply needs_Seq, needs_Grp, needs_Lit
      | unfold heading_elt; destruct Hn as [<- | [<- | [<- | []]]]; no_occ_with occurs_step occurs_free Ht ].
  cbn [bind].
  rewrite re_sub_needs with (p := lit "<p>");
    [ | reflexivity | apply needs_Seq, needs_Lit | exact Hp ].
  cbn [bind].
  rewrite re_sub_needs with (p := lit "</ol>");
    [ | reflexivity | apply needs_Seq, needs_Grp, needs_Lit
      | unfold heading_elt; destruct Hn as [<- | [<- | [<- | []]]]; no_occ_with occurs_step occurs_free Ht ].
  reflexivity.
Qed.

Lemma convert_heading (marker : string) (n : ascii) (text : str) :
  In n ["1"; "3"; "4"]%char ->
  headers_pass (lit marker ++ text) = Some (heading_elt n text) ->
  forallb plain_char text = true -> forallb dot text = true ->
  convert_md_to_html (lit marker ++ text) = Some (heading_elt n text).
Proof.
  intros Hn Hh Hp Hdot.
  destruct (@heading_elt_kept n text Hn Hp Hdot) as (Hc & Hi & Hl & Hpar).
  pose proof (plain_not "<" text eq_refl Hp) as Hlt.
  pose proof (plain_not "|" text eq_refl Hp) as Hbar.
  pose proof (plain_char_ascii text Hp) as Hasc.
  unfold convert_md_to_html.
  rewrite Hh. cbn [bind]. rewrite Hc. cbn [bind]. rewrite Hi. cbn [bind].
  rewrite Hl. cbn [bind]. rewrite Hpar. cbn [bind].
  rewrite (@cleanup_heading n text Hn Hlt). cbn [bind].
  rewrite badges_pass_ascii
    by (unfold heading_elt; destruct Hn as [<- | [<- | [<- | []]]]; free_all).
  cbn [bind]. apply tables_pass_plain.
  unfold heading_elt; destruct Hn as [<- | [<- | [<- | []]]]; free_all.
Qed.

(** X13: a text that is one heading line of level 1, 3 or 4 gives the
    heading element and nothing else: the paragraph tags that line 130
    puts around it are taken away again by lines 134 and 135. *)
Theorem heading_alone (text : str) :
  text <> [] -> forallb plain_char text = true -> forallb dot text = true ->
  convert_md_to_html (lit "# " ++ text) = Some (lit "<h1>" ++ text ++ lit "</h1>") /\
  convert_md_to_html (lit "### " ++ text) = Some (lit "<h3>" ++ text ++ lit "</h3>") /\
  convert_md_to_html (lit "#### " ++ text) = Some (lit "<h4>" ++ text ++ lit "</h4>").
Proof.
  intros Hne Hp Hdot.
  pose proof (plain_not "<" text eq_refl Hp) as Hlt.
  destruct (@headers_pass_level text Hne Hdot Hlt) as (H1 & H3 & H4).
  repeat split.
  - apply (@convert_heading "# " "1"); [cbn; tauto | assumption..].
  - apply (@convert_heading "### " "3"); [cbn; tauto | assumption..].
  - apply (@convert_heading "#### " "4"); [cbn; tauto | assumption..].
Qed.

Lemma heading_alone_witness :
  lit "Release notes, v2" <> [] /\
  forallb plain_char (lit "Release notes, v2") = true /\
  forallb dot (lit "Release notes, v2") = true /\
  convert_md_to_html (lit "# " ++ lit "Release notes, v2") =
    Some (lit "<h1>" ++ lit "Release notes, v2" ++ lit "</h1>") /\
  convert_md_to_html (lit "### " ++ lit "Release notes, v2") =
    Some (lit "<h3>" ++ lit "Release notes, v2" ++ lit "</h3>") /\
  convert_md_to_html (lit "#### " ++ lit "Release notes, v2") =
    Some (lit "<h4>" ++ lit "Release notes, v2" ++ lit "</h4>").
Proof.
  split; [discriminate|]. do 2 (split; [reflexivity|]).
  apply (@heading_alone (lit "Release notes, v2")); try discriminate; reflexivity.
Defined.

(** ** The title of the page (lines 199-200) *)

Lemma search_loop_prefix (r : re) : forall (a : str) pv b,
  (forall a1 a2, a = a1 ++ a2 -> a2 <> [] ->
     match_at r (prev_after a1 pv) (a2 ++ b) = None) ->
  search_loop r pv (a ++ b) = search_loop r (prev_after a pv) b.
Proof.
  induction a as [|c a IH]; intros pv b H; [reflexivity|].
  pose proof (H [] (c :: a) eq_refl ltac:(discriminate)) as H0.
  change (match_at r pv (c :: a ++ b) = None) in H0.
  cbn [app search_loop]. rewrite H0. rewrite IH; [reflexivity|].
  intros a1 a2 -> Hne. apply (H (c :: a1) a2 eq_refl Hne).
Qed.

Lemma search_loop_hit (r : re) (pv : option ascii) (s : str) (mo : mobj) :
  match_at r pv s = Some mo -> search_loop r pv s = Some mo.
Proof. intros H. destruct s; cbn [search_loop]; now rewrite H. Qed.

Lemma search_loop_none (p : str) (r : re) : forall (s : str) pv,
  occurs p s = false -> search_loop (Lit p ;; r) pv s = None.
Proof.
  induction s as [|c s IH]; intros pv H.
  - cbn [search_loop]. rewrite match_at_None; [reflexivity|].
    rewrite m_Seq. apply m_Lit_fail. cbn [rest]. now apply occurs_head.
  - cbn [search_loop]. rewrite match_at_None.
    + apply IH. now apply occurs_tail in H.
    + rewrite m_Seq. apply m_Lit_fail. cbn [rest]. now apply occurs_head.
Qed.

(** [<h1>(.+?)</h1>] on a heading of level 1. *)
Lemma match_title (pv : option ascii) (t post : str) :
  t <> [] -> forallb dot t = true -> forallb (not_char "<") t = true ->
  match_at re_title pv ((lit "<h1>" ++ t ++ lit "</h1>") ++ post) =
  Some (mkMobj (lit "<h1>" ++ t ++ lit "</h1>") [(1, t)] 1).
Proof.
  intros Hne Hdot Hx.
  assert (H : m re_title Some (mkPos pv ((lit "<h1>" ++ t ++ lit "</h1>") ++ post) []) =
              Some (mkPos (Some ">"%char) post [(1, t)])).
  { rewrite <- !app_assoc. unfold re_title.
    rewrite m_Seq, m_Lit_app, m_Seq, m_Grp, m_LazyPlus_Chr.
    destruct t as [|c t]; [congruence|].
    cbn [forallb] in Hdot, Hx.
    apply andb_true_iff in Hdot. destruct Hdot as [Hc Hdot].
    apply andb_true_iff in Hx. destruct Hx as [_ Hx].
    rewrite <- app_comm_cons. rewrite Hc.
    rewrite lazy_first.
    - apply lazy_hit. rewrite m_Lit. unfold set_cap, consumed. cbn [prev rest caps].
      rewrite strip_prefix_app.
      rewrite app_comm_cons, firstn_app_exact. reflexivity.
    - exact Hdot.
    - intros a1 a2 E Hn2. apply m_Lit_fail. unfold set_cap. cbn [rest].
      apply (@not_char_head "<" (lit "/h1>")); [|exact Hn2].
      rewrite E, forallb_app in Hx. apply andb_true_iff in Hx. tauto. }
  apply match_at_Some in H. exact H.
Qed.

Lemma h1_not_before (pre a1 a2 w : str) :
  occurs (lit "<h1>") (pre ++ lit "<h1") = false ->
  pre = a1 ++ a2 -> a2 <> [] ->
  starts_with (lit "<h1>") (a2 ++ lit "<h1>" ++ w) = false.
Proof.
  intros Hocc -> Hne.
  rewrite <- app_assoc in Hocc. apply occurs_suffix, occurs_head in Hocc.
  change (lit "<h1>" ++ w) with (lit "<h1" ++ ">"%char :: w).
  rewrite app_assoc, starts_with_long; [exact Hocc|].
  rewrite length_app. destruct a2; [congruence|]. cbn. lia.
Qed.

Lemma page_title_h1 (pre t post stem : str) :
  occurs (lit "<h1>") (pre ++ lit "<h1") = false ->
  t <> [] -> forallb dot t = true -> forallb (not_char "<") t = true ->
  page_title (pre ++ lit "<h1>" ++ t ++ lit "</h1>" ++ post) stem = Some t.
Proof.
  intros Hpre Hne Hdot Hlt. unfold page_title, re_search.
  replace (pre ++ lit "<h1>" ++ t ++ lit "</h1>" ++ post)
    with (pre ++ (lit "<h1>" ++ t ++ lit "</h1>") ++ post) by (now rewrite <- !app_assoc).
  rewrite search_loop_prefix.
  - erewrite search_loop_hit; [|now apply match_title]. reflexivity.
  - intros a1 a2 E Hn2. apply match_at_None. unfold re_title. rewrite m_Seq.
    apply m_Lit_fail. cbn [rest]. rewrite <- !app_assoc.
    eapply h1_not_before; eassumption.
Qed.

(** X14: the title of the page is the text of the first heading of
    level 1 of the fragment, whatever comes after it. *)
Theorem first_h1_is_title (pre t post stem : str) :
  occurs (lit "<h1>") (pre ++ lit "<h1") = false ->
  t <> [] -> forallb dot t = true -> forallb (not_char "<") t = true ->
  page_title (pre ++ lit "<h1>" ++ t ++ lit "</h1>" ++ post) stem = Some t.
Proof. apply page_title_h1. Qed.

Lemma first_h1_is_title_witness :
  occurs (lit "<h1>") (lit "<p>intro</p><h2>x</h2>" ++ lit "<h1") = false /\
  lit "One" <> [] /\ forallb dot (lit "One") = true /\
  forallb (not_char "<") (lit "One") = true /\
  page_title (lit "<p>intro</p><h2>x</h2>" ++ lit "<h1>" ++ lit "One" ++ lit "</h1>" ++
              lit "<h1>Two</h1>") (lit "README") = Some (lit "One").
Proof.
  split; [reflexivity|]. split; [discriminate|]. do 2 (split; [reflexivity|]).
  apply (@first_h1_is_title (lit "<p>intro</p><h2>x</h2>") (lit "One") (lit "<h1>Two</h1>")
           (lit "README")); try discriminate; reflexivity.
Defined.

Lemma convert_plain_text (s : str) :
  plain s = true -> convert_md_to_html s = Some (par s).
Proof.
  unfold plain. intros H.
  apply andb_true_iff in H. destruct H as [H Hns].
  apply andb_true_iff in H. destruct H as [H Hbl].
  apply andb_true_iff in H. destruct H as [Hp Hl].
  apply negb_true_iff in Hbl.
  assert (Hlt : forallb (not_char "<") s = true) by (now apply plain_not).
  assert (Hbar : forallb (not_char "|") s = true) by (now apply plain_not).
  assert (Hasc : forallb is_ascii s = true) by (now apply plain_char_ascii).
  unfold convert_md_to_html.
  rewrite (headers_pass_plain s Hp Hl). cbn [bind].
  rewrite (code_block_pass_plain s Hp). cbn [bind].
  rewrite (inline_pass_plain s Hp). cbn [bind].
  rewrite (lists_pass_plain s Hl). cbn [bind].
  rewrite (paragraphs_pass_plain s Hbl). cbn [bind].
  fold (par s).
  rewrite (cleanup_pass_plain s Hlt Hns). cbn [bind].
  rewrite badges_pass_ascii by (apply forallb_wrap; [reflexivity | exact Hasc | reflexivity]).
  cbn [bind].
  apply tables_pass_plain. apply forallb_wrap; [reflexivity | exact Hbar | reflexivity].
Qed.

(** X15: for a document that is one heading line of level 1 the title
    of the page is the text of the heading; for a document of plain text,
    which has no heading, it is the name of the file without its
    extension. *)
Theorem document_title (text s stem : str) :
  text <> [] -> forallb plain_char text = true -> forallb dot text = true ->
  plain s = true ->
  (html <- convert_md_to_html (lit "# " ++ text) ;; page_title html stem) = Some text /\
  (html <- convert_md_to_html s ;; page_title html stem) = Some stem.
Proof.
  intros Hne Hp Hdot Hs.
  pose proof (plain_not "<" text eq_refl Hp) as Hlt. split.
  - rewrite (@convert_heading "# " "1" text); try assumption.
    + cbn [bind]. unfold heading_elt.
      apply (@page_title_h1 [] text [] stem); try assumption. reflexivity.
    + cbn; tauto.
    + now apply headers_pass_level.
  - rewrite (convert_plain_text s Hs). cbn [bind].
    unfold page_title, re_search, re_title.
    rewrite search_loop_none; [reflexivity|].
    unfold plain in Hs.
    apply andb_true_iff in Hs. destruct Hs as [Hs _].
    apply andb_true_iff in Hs. destruct Hs as [Hs _].
    apply andb_true_iff in Hs. destruct Hs as [Hs _].
    pose proof (plain_not "<" s eq_refl Hs) as Hs'.
    unfold par. no_occ_with occurs_step occurs_free Hs'.
Qed.

Lemma document_title_witness :
  lit "User guide" <> [] /\ forallb plain_char (lit "User guide") = true /\
  forallb dot (lit "User guide") = true /\ plain (lit "Just text.") = true /\
  (html <- convert_md_to_html (lit "# " ++ lit "User guide") ;;
   page_title html (lit "notes")) = Some (lit "User guide") /\
  (html <- convert_md_to_html (lit "Just text.") ;;
   page_title html (lit "notes")) = Some (lit "notes").
Proof.
  split; [discriminate|]. do 3 (split; [reflexivity|]).
  apply (@document_title (lit "User guide") (lit "Just text.") (lit "notes"));
    try discriminate; reflexivity.
Defined.
(** ** Tables *)

(** X16: a block of pipe rows, two at least, becomes one table, written
    out by [table_html]: the cells of the first row that are not blank,
    trimmed, are the [<th>] cells of the header; the second row is
    dropped whatever it holds; every further row gives a [<tr>] with one
    [<td>] for each of its cells that is not blank, and a row whose cells
    are all blank gives nothing.  The text before and after the block is
    kept, and the text after it is searched for further blocks. *)
Theorem table_block (pre : str) (hs : list str) (sep : str) (rows : list (list str))
    (post : str) :
  forallb (not_char "|") pre = true ->
  row_ok hs = true ->
  item_text sep = true -> forallb is_ascii sep = true ->
  forallb row_ok rows = true ->
  stops (is_char "|") post = true ->
  tables_pass (pre ++ (NL :: block (row_of hs :: sep :: map row_of rows)) ++ post) =
  (z <- tables_pass post ;;
   Some (pre ++ [NL] ++ table_html (trimmed hs) (with_cells (map trimmed rows)) ++
         [NL] ++ z)).
Proof. intros Hpre Hh Hsep _ Hrows Hpost. now apply tables_pass_block. Qed.

Lemma table_block_witness :
  forallb (not_char "|") (lit "Sizes:") = true /\
  row_ok [lit " Name "; lit " Size "] = true /\
  item_text (lit "this is no separator") = true /\
  forallb is_ascii (lit "this is no separator") = true /\
  forallb row_ok [[lit " a "; lit " 1 "]; [lit "   "]; [lit " b "; lit "  "; lit " 3 "]] = true /\
  stops (is_char "|") (lit "end") = true /\
  tables_pass (lit "Sizes:" ++
               (NL :: block (row_of [lit " Name "; lit " Size "] ::
                             lit "this is no separator" ::
                             map row_of [[lit " a "; lit " 1 "]; [lit "   "];
                                         [lit " b "; lit "  "; lit " 3 "]])) ++ lit "end") =
  (z <- tables_pass (lit "end") ;;
   Some (lit "Sizes:" ++ [NL] ++
         table_html (trimmed [lit " Name "; lit " Size "])
                    (with_cells (map trimmed [[lit " a "; lit " 1 "]; [lit "   "];
                                              [lit " b "; lit "  "; lit " 3 "]])) ++
         [NL] ++ z)).
Proof.
  do 6 (split; [reflexivity|]).
  apply (@table_block (lit "Sizes:") [lit " Name "; lit " Size "]
           (lit "this is no separator")
           [[lit " a "; lit " 1 "]; [lit "   "]; [lit " b "; lit "  "; lit " 3 "]]
           (lit "end")); reflexivity.
Defined.

(** X17: one pipe row alone is not made a table: [convert_table] gives
    the row back, and the pass puts it in the text between two newlines
    more than it had. *)
Theorem single_row_kept (pre h post : str) :
  forallb (not_char "|") pre = true -> item_text h = true ->
  stops (is_char "|") post = true ->
  tables_pass (pre ++ (NL :: pipe_row h ++ [NL]) ++ post) =
  (z <- tables_pass post ;;
   Some (pre ++ [NL] ++ (NL :: pipe_row h ++ [NL]) ++ [NL] ++ z)).
Proof.
  intros Hpre Hh Hpost.
  assert (Hb : NL :: pipe_row h ++ [NL] = NL :: block [h])
    by (unfold block; cbn [map concat]; now rewrite app_nil_r).
  rewrite Hb. apply tables_pass_first; try assumption.
  - cbn [forallb]. now rewrite Hh.
  - now apply convert_table_one.
Qed.

Lemma single_row_kept_witness :
  forallb (not_char "|") (lit "a") = true /\ item_text (lit " x ") = true /\
  stops (is_char "|") [] = true /\
  tables_pass (lit "a" ++ (NL :: pipe_row (lit " x ") ++ [NL]) ++ []) =
  (z <- tables_pass [] ;;
   Some (lit "a" ++ [NL] ++ (NL :: pipe_row (lit " x ") ++ [NL]) ++ [NL] ++ z)).
Proof.
  do 3 (split; [reflexivity|]).
  apply (@single_row_kept (lit "a") (lit " x ") []); reflexivity.
Defined.

(** X18: the cells of a row are what stands between its [|], trimmed;
    what is left of the first [|] and right of the last one is dropped,
    and so is every cell that is empty or blank, so that the cells after
    it move one column to the left. *)
Theorem cells_of_row (cells : list str) :
  cells <> [] ->
  forallb (forallb (not_char "|")) cells = true ->
  forallb (forallb is_ascii) cells = true ->
  cells_of (pipe_row (join (lit "|") cells)) =
  map strip (filter (fun c => truthy (strip c)) cells).
Proof.
  intros Hne Hc _. unfold cells_of, pipe_row.
  cbn [lit list_ascii_of_string app]. rewrite split_cons, Ascii.eqb_refl.
  rewrite (@split_join_more "|" cells [] Hne Hc).
  change ([] :: cells ++ split "|" []) with ([[]] ++ cells ++ [[]]).
  rewrite !strip_all_app. cbn. now rewrite app_nil_r.
Qed.

Lemma cells_of_row_witness :
  [lit " a "; lit "  "; lit "b"] <> [] /\
  forallb (forallb (not_char "|")) [lit " a "; lit "  "; lit "b"] = true /\
  forallb (forallb is_ascii) [lit " a "; lit "  "; lit "b"] = true /\
  cells_of (pipe_row (join (lit "|") [lit " a "; lit "  "; lit "b"])) =
  map strip (filter (fun c => truthy (strip c)) [lit " a "; lit "  "; lit "b"]).
Proof.
  split; [discriminate|]. do 2 (split; [reflexivity|]).
  apply (@cells_of_row [lit " a "; lit "  "; lit "b"]); try discriminate; reflexivity.
Defined.

(** * The status badges *)

Lemma starts_with_forallb (f : ascii -> bool) (p s : str) :
  starts_with p s = true -> forallb f s = true -> forallb f p = true.
Proof.
  unfold starts_with. destruct (strip_prefix p s) as [t|] eqn:E; [|discriminate].
  intros _ H. apply strip_prefix_Some in E. subst s.
  rewrite forallb_app in H. apply andb_true_iff in H. tauto.
Qed.

(** A literal with a character that the text does not have occurs nowhere
    in the text. *)
Lemma occurs_missing (f : ascii -> bool) (p : str) :
  forallb f p = false -> forall s : str, forallb f s = true -> occurs p s = false.
Proof.
  intros Hp. induction s as [|c s IH]; intros Hs.
  - cbn [occurs]. destruct (starts_with p []) eqn:E; [|reflexivity].
    rewrite (starts_with_forallb f p [] E Hs) in Hp. discriminate.
  - cbn [occurs]. destruct (starts_with p (c :: s)) eqn:E.
    + rewrite (starts_with_forallb f p (c :: s) E Hs) in Hp. discriminate.
    + cbn [forallb] in Hs. apply andb_true_iff in Hs. destruct Hs as [_ Hs].
      now rewrite (IH Hs).
Qed.

Lemma re_sub_Lit_missing (x : ascii) (glyph : str) (out s : str) :
  forallb (not_char x) glyph = false -> forallb (not_char x) s = true ->
  re_sub (Lit glyph) [TL out] s = Some s.
Proof.
  intros Hg Hs. rewrite re_sub_valid by reflexivity.
  apply sub_loop_no_occ_Lit. now apply occurs_missing with (f := not_char x).
Qed.

(** One occurrence of the literal, in a text that has its first character
    nowhere else. *)
Lemma re_sub_Lit_one (glyph : str) (g : ascii) (gs : str) (out pre post : str) :
  glyph = g :: gs ->
  forallb (not_char g) pre = true -> forallb (not_char g) post = true ->
  re_sub (Lit glyph) [TL out] (pre ++ glyph ++ post) = Some (pre ++ out ++ post).
Proof.
  intros -> Hpre Hpost. rewrite re_sub_valid by reflexivity.
  rewrite sub_loop_prefix.
  - rewrite (@sub_loop_match _ _ _ (g :: gs) post
               (mkMobj (g :: gs) [] (ngroups (Lit (g :: gs)))) (out ++ [])).
    + rewrite sub_loop_no_occ_Lit by (now apply occurs_absent).
      cbn [bind]. now rewrite app_nil_r.
    + eapply match_at_Some. rewrite m_Lit_app. reflexivity.
    + reflexivity.
    + discriminate.
    + reflexivity.
  - intros a1 a2 E Hne. apply match_at_None. apply m_Lit_fail. cbn [rest].
    destruct a2 as [|c a2]; [congruence|].
    rewrite E, forallb_app in Hpre. apply andb_true_iff in Hpre. destruct Hpre as [_ Hpre].
    cbn [forallb] in Hpre. apply andb_true_iff in Hpre. destruct Hpre as [Hc _].
    unfold starts_with. cbn [app strip_prefix].
    unfold not_char in Hc. apply negb_true_iff in Hc. now rewrite Hc.
Qed.

(** A written text between two texts of ASCII characters has not the
    character [x], when the written text has not. *)
Lemma around_not (x : ascii) (pre mid post : str) :
  is_ascii x = false -> forallb (not_char x) mid = true ->
  forallb is_ascii pre = true -> forallb is_ascii post = true ->
  forallb (not_char x) (pre ++ mid ++ post) = true.
Proof.
  intros Hx Hmid Hpre Hpost. apply forallb_wrap; [|exact Hmid|]; now apply ascii_not.
Qed.

(** X19: each of the four status glyphs, in a text of ASCII characters,
    is put in a [span] of its own class, and the three other passes leave
    the result alone.  The warning glyph is U+26A0 with the variation
    selector U+FE0F after it: the sign without the selector is no badge
    and stays as it is. *)
Theorem badge_wrapped (pre post : str) :
  forallb is_ascii pre = true -> forallb is_ascii post = true ->
  badges_pass (pre ++ glyph_success ++ post) =
    Some (pre ++ badge "badge-success" glyph_success ++ post) /\
  badges_pass (pre ++ glyph_danger ++ post) =
    Some (pre ++ badge "badge-danger" glyph_danger ++ post) /\
  badges_pass (pre ++ glyph_warning ++ post) =
    Some (pre ++ badge "badge-warning" glyph_warning ++ post) /\
  badges_pass (pre ++ glyph_info ++ post) =
    Some (pre ++ badge "badge-info" glyph_info ++ post) /\
  badges_pass (pre ++ warning_sign ++ post) = Some (pre ++ warning_sign ++ post).
Proof.
  intros Hpre Hpost. unfold badges_pass, tmpl_badge.
  pose proof (@ascii_not (ascii_of_nat 226) pre eq_refl Hpre) as Hpre2.
  pose proof (@ascii_not (ascii_of_nat 226) post eq_refl Hpost) as Hpost2.
  pose proof (@ascii_not (ascii_of_nat 240) pre eq_refl Hpre) as Hpre4.
  pose proof (@ascii_not (ascii_of_nat 240) post eq_refl Hpost) as Hpost4.
  repeat split.
  - rewrite (@re_sub_Lit_one glyph_success (ascii_of_nat 226) (bytes [156; 133]))
      by (reflexivity || assumption).
    cbn [bind].
    rewrite (@re_sub_Lit_missing (ascii_of_nat 157) glyph_danger)
      by (reflexivity || (apply around_not; first [reflexivity | assumption])).
    cbn [bind].
    rewrite (@re_sub_Lit_missing (ascii_of_nat 154) glyph_warning)
      by (reflexivity || (apply around_not; first [reflexivity | assumption])).
    cbn [bind].
    rewrite (@re_sub_Lit_missing (ascii_of_nat 240) glyph_info)
      by (reflexivity || (apply around_not; first [reflexivity | assumption])).
    reflexivity.
  - rewrite (@re_sub_Lit_missing (ascii_of_nat 156) glyph_success)
      by (reflexivity || (apply around_not; first [reflexivity | assumption])).
    cbn [bind].
    rewrite (@re_sub_Lit_one glyph_danger (ascii_of_nat 226) (bytes [157; 140]))
      by (reflexivity || assumption).
    cbn [bind].
    rewrite (@re_sub_Lit_missing (ascii_of_nat 154) glyph_warning)
      by (reflexivity || (apply around_not; first [reflexivity | assumption])).
    cbn [bind].
    rewrite (@re_sub_Lit_missing (ascii_of_nat 240) glyph_info)
      by (reflexivity || (apply around_not; first [reflexivity | assumption])).
    reflexivity.
  - rewrite (@re_sub_Lit_missing (ascii_of_nat 156) glyph_success)
      by (reflexivity || (apply around_not; first [reflexivity | assumption])).
    cbn [bind].
    rewrite (@re_sub_Lit_missing (ascii_of_nat 157) glyph_danger)
      by (reflexivity || (apply around_not; first [reflexivity | assumption])).
    cbn [bind].
    rewrite (@re_sub_Lit_one glyph_warning (ascii_of_nat 226) (bytes [154; 160; 239; 184; 143]))
      by (reflexivity || assumption).
    cbn [bind].
    rewrite (@re_sub_Lit_missing (ascii_of_nat 240) glyph_info)
      by (reflexivity || (apply around_not; first [reflexivity | assumption])).
    reflexivity.
  - rewrite (@re_sub_Lit_missing (ascii_of_nat 226) glyph_success)
      by (reflexivity || (apply around_not; first [reflexivity | assumption])).
    cbn [bind].
    rewrite (@re_sub_Lit_missing (ascii_of_nat 226) glyph_danger)
      by (reflexivity || (apply around_not; first [reflexivity | assumption])).
    cbn [bind].
    rewrite (@re_sub_Lit_missing (ascii_of_nat 226) glyph_warning)
      by (reflexivity || (apply around_not; first [reflexivity | assumption])).
    cbn [bind].
    rewrite (@re_sub_Lit_one glyph_info (ascii_of_nat 240) (bytes [159; 148; 132]))
      by (reflexivity || assumption).
    reflexivity.
  - rewrite (@re_sub_Lit_missing (ascii_of_nat 156) glyph_success)
      by (reflexivity || (apply around_not; first [reflexivity | assumption])).
    cbn [bind].
    rewrite (@re_sub_Lit_missing (ascii_of_nat 157) glyph_danger)
      by (reflexivity || (apply around_not; first [reflexivity | assumption])).
    cbn [bind].
    rewrite (@re_sub_Lit_missing (ascii_of_nat 239) glyph_warning)
      by (reflexivity || (apply around_not; first [reflexivity | assumption])).
    cbn [bind].
    rewrite (@re_sub_Lit_missing (ascii_of_nat 240) glyph_info)
      by (reflexivity || (apply around_not; first [reflexivity | assumption])).
    reflexivity.
Qed.

Lemma badge_wrapped_witness :
  forallb is_ascii (lit "Build: ") = true /\ forallb is_ascii (lit " done") = true /\
  badges_pass (lit "Build: " ++ glyph_success ++ lit " done") =
    Some (lit "Build: " ++ badge "badge-success" glyph_success ++ lit " done") /\
  badges_pass (lit "Build: " ++ glyph_danger ++ lit " done") =
    Some (lit "Build: " ++ badge "badge-danger" glyph_danger ++ lit " done") /\
  badges_pass (lit "Build: " ++ glyph_warning ++ lit " done") =
    Some (lit "Build: " ++ badge "badge-warning" glyph_warning ++ lit " done") /\
  badges_pass (lit "Build: " ++ glyph_info ++ lit " done") =
    Some (lit "Build: " ++ badge "badge-info" glyph_info ++ lit " done") /\
  badges_pass (lit "Build: " ++ warning_sign ++ lit " done") =
    Some (lit "Build: " ++ warning_sign ++ lit " done").
Proof.
  do 2 (split; [reflexivity|]).
  apply (@badge_wrapped (lit "Build: ") (lit " done")); reflexivity.
Defined.
